(** * The atomic sale-processing core of the Intelligent Sales system

    A shallow embedding of [db_setup.sql] (tables, stored procedure
    [make_sale], trigger [trg_sale_item_after_insert]) and of the request
    validation of [POST /api/sale] (routes/sales.js).

    Conventions.
    - [INT] columns and variables are [Z]; an [INT] column write outside the
      32-bit range raises "out of range".
    - [DECIMAL(10,2)] values are [Z] counted in hundredths, so 129.99 is
      [12999]; multiplication by an [INT] is exact.  The procedure is read
      under MySQL's default strict SQL mode: an out-of-range assignment is
      an error, not a silent clamp.
    - A [VARCHAR(n)] value is a [string]; under the strict mode a value of
      more than [n] characters written to the column is an error ("data too
      long"), not a silent cut.
    - SQL [NULL] is [None].
    - A table is a finite map from its primary key to its row.
    - Whether [CHECK] constraints are enforced depends on the server version
      (MySQL before 8.0.16 parses and ignores them).  It is the section
      variable [check_constraints]; every result holds for both settings.
    - Sessions run in autocommit mode, as the connections of the pool in
      [db.js] do: outside [make_sale] every statement is its own
      transaction.
    - A transaction buffers its row changes in a write log that is applied
      by [COMMIT] and dropped by [ROLLBACK]; [db] is the committed state,
      the only one another session can observe.  Exclusive row locks on
      [Product] are explicit. *)

From stdpp Require Import gmap strings list fin_maps.
From Stdlib Require Import ZArith Lia.

Local Open Scope string_scope.
Local Open Scope list_scope.
Local Open Scope Z_scope.

(** ** Data model *)

Definition INT_MIN : Z := -2147483648.
Definition INT_MAX : Z := 2147483647.
Definition DECIMAL_10_2_MAX : Z := 9999999999.

Definition fits_INT (z : Z) : bool := (INT_MIN <=? z) && (z <=? INT_MAX).
Definition fits_DECIMAL_10_2 (z : Z) : bool :=
  (- DECIMAL_10_2_MAX <=? z) && (z <=? DECIMAL_10_2_MAX).

(** Rows.  Columns that no statement of the core reads or writes
    ([name], [category], [description], [sale_date]) are left out. *)
Record Product_row := mkProduct { Product_price : Z; Product_stock : Z }.

Record Sale_row := mkSale {
  Sale_customer_id : Z;
  Sale_salesperson_id : option Z;
  Sale_total_amount : Z }.

Record Sale_Item_row := mkSale_Item {
  Sale_Item_sale_id : Z;
  Sale_Item_product_id : Z;
  Sale_Item_quantity : Z;
  Sale_Item_price : Z }.

Record Payment_row := mkPayment {
  Payment_sale_id : Z;
  Payment_mode : string;
  Payment_status : string }.

(** The tables.  [Customer] and [Salesperson] only matter through the
    foreign keys of [Sale], so they are the sets of their keys. *)
Record database := mkDb {
  Customer : gset Z;
  Salesperson : gset Z;
  Product : gmap Z Product_row;
  Sale : gmap Z Sale_row;
  Sale_Item : gmap Z Sale_Item_row;
  Payment : gmap Z Payment_row }.

(** The AUTO_INCREMENT counters.  They are not transactional: a rollback
    does not give an allocated key back. *)
Record counters := mkCounters {
  next_sale_id : Z;
  next_sale_item_id : Z;
  next_payment_id : Z }.

(** Errors of class SQLEXCEPTION. *)
Inductive sql_error :=
| SIGNAL_45000 (MESSAGE_TEXT : string)
| ER_CHECK_CONSTRAINT_VIOLATED (constraint : string)
| ER_NO_REFERENCED_ROW
| ER_BAD_NULL_ERROR
| ER_WARN_DATA_OUT_OF_RANGE
| ER_DATA_TOO_LONG
| ER_STORAGE_ENGINE.

Inductive sql_result (A : Type) :=
| Ok (a : A)
| Err (e : sql_error).
Global Arguments Ok {A} a.
Global Arguments Err {A} e.

Definition sql_bind {A B} (m : sql_result A) (k : A -> sql_result B) : sql_result B :=
  match m with
  | Ok a => k a
  | Err e => Err e
  end.

Notation "x <-- m ;; k" := (sql_bind m (fun x => k))
  (at level 100, m at next level, right associativity).
Notation "'ASSERT' b 'ELSE' e ;; k" := (if b then k else Err e)
  (at level 100, b at next level, e at next level, right associativity).

(** Row changes, as a transaction logs them. *)
Inductive write :=
| Ins_Sale (id : Z) (r : Sale_row)
| Ins_Sale_Item (id : Z) (r : Sale_Item_row)
| Ins_Payment (id : Z) (r : Payment_row)
| Upd_Product (id : Z) (r : Product_row)
| Upd_Sale (id : Z) (r : Sale_row)
| Upd_Payment (id : Z) (r : Payment_row).

Definition apply_write (d : database) (x : write) : database :=
  match x with
  | Ins_Sale id r | Upd_Sale id r =>
      mkDb (Customer d) (Salesperson d) (Product d) (<[id := r]> (Sale d))
           (Sale_Item d) (Payment d)
  | Ins_Sale_Item id r =>
      mkDb (Customer d) (Salesperson d) (Product d) (Sale d)
           (<[id := r]> (Sale_Item d)) (Payment d)
  | Ins_Payment id r | Upd_Payment id r =>
      mkDb (Customer d) (Salesperson d) (Product d) (Sale d)
           (Sale_Item d) (<[id := r]> (Payment d))
  | Upd_Product id r =>
      mkDb (Customer d) (Salesperson d) (<[id := r]> (Product d)) (Sale d)
           (Sale_Item d) (Payment d)
  end.

Definition apply_writes (d : database) (l : list write) : database :=
  foldl apply_write d l.

(** ** Sessions, locks and transactions *)

(** A connection of the pool. *)
Definition conn := nat.

(** The statements of [make_sale], named by their line in [db_setup.sql]. *)
Inductive label :=
| L135_IF_quantity
| L139_START_TRANSACTION
| L141_SELECT_FOR_UPDATE
| L146_IF_price_IS_NULL
| L150_IF_stock
| L154_INSERT_Sale
| L157_SET_v_sale_id
| L163_SET_from_make_sale_1
| L166_INSERT_Sale_Item
| L169_SET_from_make_sale_0
| L172_UPDATE_Product
| L176_SET_v_total
| L178_UPDATE_Sale
| L183_INSERT_Payment
| L186_COMMIT
| L189_SELECT_result.

Global Instance label_eq_dec : EqDecision label.
Proof. solve_decision. Defined.

(** The activation record of a running [make_sale]: the next statement,
    the four IN parameters and the four DECLAREd variables. *)
Record frame := mkFrame {
  pc : label;
  p_customer_id : option Z;
  p_product_id : option Z;
  p_quantity : option Z;
  p_salesperson_id : option Z;
  v_price : option Z;
  v_stock : option Z;
  v_sale_id : option Z;
  v_total : option Z }.

(** Session state: the user variable [@from_make_sale], [LAST_INSERT_ID()],
    the write log of the open transaction (if one is open), and the running
    call (if any). *)
Record session := mkSession {
  from_make_sale : option Z;
  last_insert_id : Z;
  trx : option (list write);
  call : option frame }.

(** What all sessions share: the committed tables, the AUTO_INCREMENT
    counters, and the holder of the exclusive lock of each locked [Product]
    row. *)
Record shared := mkShared {
  db : database;
  auto_increment : counters;
  row_locks : gmap Z conn }.

Definition goto (l : label) (f : frame) : frame :=
  mkFrame l (p_customer_id f) (p_product_id f) (p_quantity f)
          (p_salesperson_id f) (v_price f) (v_stock f) (v_sale_id f) (v_total f).

Definition set_call (o : option frame) (s : session) : session :=
  mkSession (from_make_sale s) (last_insert_id s) (trx s) o.
Definition set_trx (t : option (list write)) (s : session) : session :=
  mkSession (from_make_sale s) (last_insert_id s) t (call s).
Definition set_from_make_sale (v : option Z) (s : session) : session :=
  mkSession v (last_insert_id s) (trx s) (call s).
Definition set_last_insert_id (id : Z) (s : session) : session :=
  mkSession (from_make_sale s) id (trx s) (call s).

Definition set_db (d : database) (sh : shared) : shared :=
  mkShared d (auto_increment sh) (row_locks sh).
Definition set_auto_increment (n : counters) (sh : shared) : shared :=
  mkShared (db sh) n (row_locks sh).
Definition set_row_locks (l : gmap Z conn) (sh : shared) : shared :=
  mkShared (db sh) (auto_increment sh) l.

(** The tables as the session sees them: the committed rows overlaid with
    the changes of its own open transaction. *)
Definition view (sh : shared) (s : session) : database :=
  apply_writes (db sh) (default [] (trx s)).

(** The row of [Product] is not locked by another session. *)
Definition lock_free_for (c : conn) (locks : gmap Z conn) (pid : Z) : bool :=
  match locks !! pid with
  | None => true
  | Some holder => bool_decide (holder = c)
  end.

Definition written_products (ws : list write) : list Z :=
  omap (fun x => match x with Upd_Product id _ => Some id | _ => None end) ws.

Definition acquire (c : conn) (pids : list Z) (locks : gmap Z conn) : gmap Z conn :=
  foldr (fun pid l => <[pid := c]> l) locks pids.

Definition release (c : conn) (locks : gmap Z conn) : gmap Z conn :=
  filter (fun kv => kv.2 ≠ c) locks.

(** Executing the row changes [ws] of one statement.  Writing a [Product]
    row needs its exclusive lock: [None] when another session holds it
    (the statement waits).  Inside a transaction the changes go to the log
    and the locks are kept; in autocommit mode they are committed at once. *)
Definition write_rows (c : conn) (ws : list write) (sh : shared) (s : session)
  : option (shared * session) :=
  if forallb (lock_free_for c (row_locks sh)) (written_products ws) then
    match trx s with
    | Some log =>
        Some (set_row_locks (acquire c (written_products ws) (row_locks sh)) sh,
              set_trx (Some (log ++ ws)) s)
    | None => Some (set_db (apply_writes (db sh) ws) sh, s)
    end
  else None.

Definition COMMIT (c : conn) (sh : shared) (s : session) : shared * session :=
  (set_row_locks (release c (row_locks sh)) (set_db (view sh s) sh),
   set_trx None s).

Definition ROLLBACK (c : conn) (sh : shared) (s : session) : shared * session :=
  (set_row_locks (release c (row_locks sh)) sh, set_trx None s).

(** START TRANSACTION commits an open transaction implicitly. *)
Definition START_TRANSACTION (c : conn) (sh : shared) (s : session) : shared * session :=
  let '(sh1, s1) := COMMIT c sh s in (sh1, set_trx (Some []) s1).

(** ** Statements

    Each statement is evaluated against the tables the session sees and
    yields its row changes or raises. *)

Definition NOT_NULL {A} (v : option A) : sql_result A :=
  match v with
  | Some a => Ok a
  | None => Err ER_BAD_NULL_ERROR
  end.

Definition IFNULL (a : option Z) (b : Z) : Z := default b a.

Definition NULLIF (a : option Z) (b : Z) : option Z :=
  match a with
  | Some x => if x =? b then None else Some x
  | None => None
  end.

(** ** The request validation of [POST /api/sale] (routes/sales.js)

    [Number(req.body.x)] is a double.  The route only asks whether it is an
    integer and whether it is [<= 0], so a double is kept as: an integer,
    a finite fraction with its sign, an infinity with its sign, or NaN. *)
Inductive js_number :=
| JsInteger (z : Z)
| JsFraction (negative : bool)
| JsInfinity (negative : bool)
| JsNaN.

Definition Number_isInteger (n : js_number) : bool :=
  match n with
  | JsInteger _ => true
  | _ => false
  end.

Definition js_le_0 (n : js_number) : bool :=
  match n with
  | JsInteger z => z <=? 0
  | JsFraction negative | JsInfinity negative => negative
  | JsNaN => false
  end.

(** [Number(x) || 0]: NaN and zero are falsy. *)
Definition js_or_0 (n : js_number) : js_number :=
  match n with
  | JsNaN => JsInteger 0
  | _ => n
  end.

Record sale_request := mkRequest {
  body_customer_id : js_number;
  body_product_id : js_number;
  body_quantity : js_number;
  body_salesperson_id : js_number }.

(** What the handler does first: answer without sending any query, or send
    [CALL make_sale(?,?,?,?)] with these four values. *)
Inductive route_action :=
| Respond (status : Z) (error : string)
| Query_CALL_make_sale (customer_id product_id quantity salesperson_id : js_number).

(** Lines 82-99 of the handler, up to its first [pool.query]. *)
Definition post_sale (req : sale_request) : route_action :=
  let customer_id := body_customer_id req in
  let product_id := body_product_id req in
  let quantity := body_quantity req in
  let salesperson_id := js_or_0 (body_salesperson_id req) in
  if negb (Number_isInteger customer_id) || js_le_0 customer_id
  then Respond 400 "Invalid customer_id"
  else if negb (Number_isInteger product_id) || js_le_0 product_id
  then Respond 400 "Invalid product_id"
  else if negb (Number_isInteger quantity) || js_le_0 quantity
  then Respond 400 "Invalid quantity"
  else Query_CALL_make_sale customer_id product_id quantity salesperson_id.

Section Engine.

(** Does the server enforce CHECK constraints? *)
Variable check_constraints : bool.

Definition CHECK (name : string) (holds : bool) : sql_result unit :=
  if negb check_constraints || holds then Ok tt
  else Err (ER_CHECK_CONSTRAINT_VIOLATED name).

(** The row constraints of [Product] (lines 55-56). *)
Definition CHECK_Product (r : Product_row) : sql_result unit :=
  _ <-- CHECK "price >= 0" (0 <=? Product_price r);;
  CHECK "stock >= 0" (0 <=? Product_stock r).

(** [UPDATE Product SET stock = stock - qty WHERE product_id = pid]. *)
Definition UPDATE_Product_SET_stock (pid qty : Z) (d : database)
  : sql_result (list write) :=
  match Product d !! pid with
  | None => Ok []
  | Some r =>
      let r' := mkProduct (Product_price r) (Product_stock r - qty) in
      ASSERT fits_INT (Product_stock r') ELSE ER_WARN_DATA_OUT_OF_RANGE;;
      _ <-- CHECK_Product r';;
      Ok [Upd_Product pid r']
  end.

(** The trigger (lines 197-214), run after the row [NEW] went into
    [Sale_Item]; [d] already has the new row. *)
Definition trg_sale_item_after_insert (at_from_make_sale : option Z)
    (NEW : Sale_Item_row) (d : database) : sql_result (list write) :=
  if IFNULL at_from_make_sale 0 =? 0 then
    ws <-- UPDATE_Product_SET_stock (Sale_Item_product_id NEW)
                                    (Sale_Item_quantity NEW) d;;
    match Product (apply_writes d ws) !! Sale_Item_product_id NEW with
    | Some r =>
        if Product_stock r <? 0
        then Err (SIGNAL_45000 "Stock cannot be negative")
        else Ok ws
    | None => Ok ws
    end
  else Ok [].

(** [INSERT INTO Sale_Item(sale_id, product_id, quantity, price)]: the
    ranges of the columns [quantity INT] and [price DECIMAL(10,2)] (lines
    94-95), the row constraints and foreign keys of lines 96-99, then the
    trigger.  [sale_id] and [product_id] are held against the keys of [Sale]
    and [Product] by their foreign keys.  An error in the trigger makes the
    whole statement fail, so no row change of it survives. *)
Definition INSERT_INTO_Sale_Item (at_from_make_sale : option Z) (id : Z)
    (NEW : Sale_Item_row) (d : database) : sql_result (list write) :=
  ASSERT fits_INT (Sale_Item_quantity NEW) ELSE ER_WARN_DATA_OUT_OF_RANGE;;
  ASSERT fits_DECIMAL_10_2 (Sale_Item_price NEW) ELSE ER_WARN_DATA_OUT_OF_RANGE;;
  _ <-- CHECK "quantity > 0" (0 <? Sale_Item_quantity NEW);;
  _ <-- CHECK "price >= 0" (0 <=? Sale_Item_price NEW);;
  ASSERT bool_decide (is_Some (Sale d !! Sale_Item_sale_id NEW))
    ELSE ER_NO_REFERENCED_ROW;;
  ASSERT bool_decide (is_Some (Product d !! Sale_Item_product_id NEW))
    ELSE ER_NO_REFERENCED_ROW;;
  let row := [Ins_Sale_Item id NEW] in
  fired <-- trg_sale_item_after_insert at_from_make_sale NEW (apply_writes d row);;
  Ok (row ++ fired).

(** [INSERT INTO Sale(customer_id, salesperson_id, sale_date, total_amount)]. *)
Definition INSERT_INTO_Sale (id : Z) (customer_id salesperson_id : option Z)
    (total_amount : Z) (d : database) : sql_result (list write) :=
  cu <-- NOT_NULL customer_id;;
  ASSERT bool_decide (cu ∈ Customer d) ELSE ER_NO_REFERENCED_ROW;;
  ASSERT (match salesperson_id with
          | Some sp => bool_decide (sp ∈ Salesperson d)
          | None => true
          end) ELSE ER_NO_REFERENCED_ROW;;
  Ok [Ins_Sale id (mkSale cu salesperson_id total_amount)].

(** [UPDATE Sale SET total_amount = total WHERE sale_id = sid]. *)
Definition UPDATE_Sale_SET_total_amount (sid : Z) (total : option Z) (d : database)
  : sql_result (list write) :=
  match Sale d !! sid with
  | None => Ok []
  | Some r =>
      t <-- NOT_NULL total;;
      ASSERT fits_DECIMAL_10_2 t ELSE ER_WARN_DATA_OUT_OF_RANGE;;
      Ok [Upd_Sale sid (mkSale (Sale_customer_id r) (Sale_salesperson_id r) t)]
  end.

(** [INSERT INTO Payment(sale_id, mode, status)]. *)
Definition INSERT_INTO_Payment (id : Z) (sale_id : option Z) (mode status : string)
    (d : database) : sql_result (list write) :=
  sid <-- NOT_NULL sale_id;;
  ASSERT bool_decide (is_Some (Sale d !! sid)) ELSE ER_NO_REFERENCED_ROW;;
  Ok [Ins_Payment id (mkPayment sid mode status)].

(** Is [v] made of spaces only? *)
Fixpoint only_spaces (v : string) : bool :=
  match v with
  | EmptyString => true
  | String a v' => Ascii.eqb a Ascii.Space && only_spaces v'
  end.

(** [UPDATE Payment SET mode = ? WHERE sale_id = ?], the statement the route
    [POST /api/sale] issues after the call (routes/sales.js, line 107).
    [mode] is [VARCHAR(20)] (line 105): a longer value is refused when it is
    to be written to a row, and with no payment of that sale nothing is
    written.  The handler cuts its mode to 20 characters (line 86) and so
    never sends a longer one.  A value that is too long by trailing spaces
    only, which the server would cut to the length of the column with a
    warning, is not told apart here: it is refused like any other, and the
    refusal is stated below only of values with more than spaces in
    excess. *)
Definition UPDATE_Payment_SET_mode (mode : string) (sale_id : Z) (d : database)
  : sql_result (list write) :=
  let rows := map_to_list (filter (fun kv => Payment_sale_id kv.2 = sale_id)
                                  (Payment d)) in
  match rows with
  | [] => Ok []
  | _ :: _ =>
      ASSERT (String.length mode <=? 20)%nat ELSE ER_DATA_TOO_LONG;;
      Ok ((fun kv : Z * Payment_row =>
             Upd_Payment kv.1 (mkPayment (Payment_sale_id kv.2) mode
                                         (Payment_status kv.2)))
          <$> rows)
  end.

(** Modelled from the spec: the catalog's price update (section 4.3,
    "read/update price", "Enforces at write time: price >= 0"); the
    repository has no statement that changes a price. *)
Definition UPDATE_Product_SET_price (pid price : Z) (d : database)
  : sql_result (list write) :=
  match Product d !! pid with
  | None => Ok []
  | Some r =>
      let r' := mkProduct price (Product_stock r) in
      ASSERT fits_DECIMAL_10_2 price ELSE ER_WARN_DATA_OUT_OF_RANGE;;
      _ <-- CHECK_Product r';;
      Ok [Upd_Product pid r']
  end.

(** ** The stored procedure [make_sale], statement by statement *)

Inductive outcome :=
| Result_row (sale_id total_amount : option Z)
| Query_OK
| Raised (e : sql_error).

Inductive step_result :=
| Waits
| Goes (sh : shared) (s : session)
| Ends (sh : shared) (s : session) (o : outcome).

(** [DECLARE EXIT HANDLER FOR SQLEXCEPTION BEGIN ROLLBACK; RESIGNAL; END]
    (lines 129-133).  It does not touch [@from_make_sale]. *)
Definition EXIT_HANDLER (c : conn) (e : sql_error) (sh : shared) (s : session)
  : step_result :=
  let '(sh1, s1) := ROLLBACK c sh s in
  Ends sh1 (set_call None s1) (Raised e).

Definition continue (f : frame) (sh : shared) (s : session) : step_result :=
  Goes sh (set_call (Some f) s).

(** A statement that reaches the storage engine: it can fail there
    ([fault], e.g. a lock wait timeout or a deadlock), raise by itself, wait
    for a row lock, or go through. *)
Definition storage_statement (c : conn) (fault : bool)
    (stmt : sql_result (list write)) (sh : shared) (s : session)
    (k : shared -> session -> step_result) : step_result :=
  if fault then EXIT_HANDLER c ER_STORAGE_ENGINE sh s else
  match stmt with
  | Err e => EXIT_HANDLER c e sh s
  | Ok ws =>
      match write_rows c ws sh s with
      | None => Waits
      | Some (sh1, s1) => k sh1 s1
      end
  end.

Definition sql_lt (a b : option Z) : bool :=
  match a, b with
  | Some x, Some y => x <? y
  | _, _ => false
  end.

Definition set_v_price_v_stock (r : Product_row) (f : frame) : frame :=
  mkFrame (pc f) (p_customer_id f) (p_product_id f) (p_quantity f)
          (p_salesperson_id f) (Some (Product_price r)) (Some (Product_stock r))
          (v_sale_id f) (v_total f).
Definition set_v_sale_id (v : option Z) (f : frame) : frame :=
  mkFrame (pc f) (p_customer_id f) (p_product_id f) (p_quantity f)
          (p_salesperson_id f) (v_price f) (v_stock f) v (v_total f).
Definition set_v_total (v : option Z) (f : frame) : frame :=
  mkFrame (pc f) (p_customer_id f) (p_product_id f) (p_quantity f)
          (p_salesperson_id f) (v_price f) (v_stock f) (v_sale_id f) v.

Definition bump_sale (sh : shared) : shared :=
  let n := auto_increment sh in
  set_auto_increment
    (mkCounters (next_sale_id n + 1) (next_sale_item_id n) (next_payment_id n)) sh.
Definition bump_sale_item (sh : shared) : shared :=
  let n := auto_increment sh in
  set_auto_increment
    (mkCounters (next_sale_id n) (next_sale_item_id n + 1) (next_payment_id n)) sh.
Definition bump_payment (sh : shared) : shared :=
  let n := auto_increment sh in
  set_auto_increment
    (mkCounters (next_sale_id n) (next_sale_item_id n) (next_payment_id n + 1)) sh.

(** One statement of the running call [f] of session [c]. *)
Definition step_make_sale (c : conn) (fault : bool) (f : frame)
    (sh : shared) (s : session) : step_result :=
  match pc f with
  | L135_IF_quantity =>
      if match p_quantity f with Some q => q <=? 0 | None => true end
      then EXIT_HANDLER c (SIGNAL_45000 "Quantity must be greater than 0") sh s
      else continue (goto L139_START_TRANSACTION f) sh s
  | L139_START_TRANSACTION =>
      if fault then EXIT_HANDLER c ER_STORAGE_ENGINE sh s else
      let '(sh1, s1) := START_TRANSACTION c sh s in
      continue (goto L141_SELECT_FOR_UPDATE f) sh1 s1
  | L141_SELECT_FOR_UPDATE =>
      if fault then EXIT_HANDLER c ER_STORAGE_ENGINE sh s else
      match p_product_id f with
      | None => continue (goto L146_IF_price_IS_NULL f) sh s
      | Some pid =>
          match Product (view sh s) !! pid with
          | None => continue (goto L146_IF_price_IS_NULL f) sh s
          | Some r =>
              if lock_free_for c (row_locks sh) pid then
                continue (goto L146_IF_price_IS_NULL (set_v_price_v_stock r f))
                         (set_row_locks (<[pid := c]> (row_locks sh)) sh) s
              else Waits
          end
      end
  | L146_IF_price_IS_NULL =>
      match v_price f with
      | None => EXIT_HANDLER c (SIGNAL_45000 "Invalid product_id") sh s
      | Some _ => continue (goto L150_IF_stock f) sh s
      end
  | L150_IF_stock =>
      if sql_lt (v_stock f) (p_quantity f)
      then EXIT_HANDLER c (SIGNAL_45000 "Insufficient stock") sh s
      else continue (goto L154_INSERT_Sale f) sh s
  | L154_INSERT_Sale =>
      let id := next_sale_id (auto_increment sh) in
      storage_statement c fault
        (INSERT_INTO_Sale id (p_customer_id f) (NULLIF (p_salesperson_id f) 0) 0
                          (view sh s)) sh s
        (fun sh1 s1 =>
           continue (goto L157_SET_v_sale_id f) (bump_sale sh1)
                    (set_last_insert_id id s1))
  | L157_SET_v_sale_id =>
      continue (goto L163_SET_from_make_sale_1
                     (set_v_sale_id (Some (last_insert_id s)) f)) sh s
  | L163_SET_from_make_sale_1 =>
      continue (goto L166_INSERT_Sale_Item f) sh (set_from_make_sale (Some 1) s)
  | L166_INSERT_Sale_Item =>
      let id := next_sale_item_id (auto_increment sh) in
      storage_statement c fault
        (sid <-- NOT_NULL (v_sale_id f);;
         pid <-- NOT_NULL (p_product_id f);;
         q <-- NOT_NULL (p_quantity f);;
         pr <-- NOT_NULL (v_price f);;
         INSERT_INTO_Sale_Item (from_make_sale s) id (mkSale_Item sid pid q pr)
                               (view sh s)) sh s
        (fun sh1 s1 =>
           continue (goto L169_SET_from_make_sale_0 f) (bump_sale_item sh1)
                    (set_last_insert_id id s1))
  | L169_SET_from_make_sale_0 =>
      continue (goto L172_UPDATE_Product f) sh (set_from_make_sale (Some 0) s)
  | L172_UPDATE_Product =>
      storage_statement c fault
        (match p_product_id f with
         | None => Ok []
         | Some pid =>
             q <-- NOT_NULL (p_quantity f);;
             UPDATE_Product_SET_stock pid q (view sh s)
         end) sh s
        (fun sh1 s1 => continue (goto L176_SET_v_total f) sh1 s1)
  | L176_SET_v_total =>
      match v_price f, p_quantity f with
      | Some pr, Some q =>
          if fits_DECIMAL_10_2 (pr * q)
          then continue (goto L178_UPDATE_Sale (set_v_total (Some (pr * q)) f)) sh s
          else EXIT_HANDLER c ER_WARN_DATA_OUT_OF_RANGE sh s
      | _, _ => continue (goto L178_UPDATE_Sale (set_v_total None f)) sh s
      end
  | L178_UPDATE_Sale =>
      storage_statement c fault
        (match v_sale_id f with
         | None => Ok []
         | Some sid => UPDATE_Sale_SET_total_amount sid (v_total f) (view sh s)
         end) sh s
        (fun sh1 s1 => continue (goto L183_INSERT_Payment f) sh1 s1)
  | L183_INSERT_Payment =>
      let id := next_payment_id (auto_increment sh) in
      storage_statement c fault
        (INSERT_INTO_Payment id (v_sale_id f) "CASH" "SUCCESS" (view sh s)) sh s
        (fun sh1 s1 =>
           continue (goto L186_COMMIT f) (bump_payment sh1)
                    (set_last_insert_id id s1))
  | L186_COMMIT =>
      if fault then EXIT_HANDLER c ER_STORAGE_ENGINE sh s else
      let '(sh1, s1) := COMMIT c sh s in
      continue (goto L189_SELECT_result f) sh1 s1
  | L189_SELECT_result =>
      Ends sh (set_call None s) (Result_row (v_sale_id f) (v_total f))
  end.

(** [CALL make_sale(...)]: the activation record at the first statement,
    every DECLAREd variable NULL. *)
Definition enter_make_sale
    (customer_id product_id quantity salesperson_id : option Z) : frame :=
  mkFrame L135_IF_quantity customer_id product_id quantity salesperson_id
          None None None None.

(** A single statement sent on an idle connection, in autocommit mode. *)
Definition autocommit_statement (c : conn) (fault : bool)
    (stmt : sql_result (list write)) (sh : shared) (s : session)
    (k : shared -> session -> shared * session) : step_result :=
  if fault then Ends sh s (Raised ER_STORAGE_ENGINE) else
  match stmt with
  | Err e => Ends sh s (Raised e)
  | Ok ws =>
      match write_rows c ws sh s with
      | None => Waits
      | Some (sh1, s1) => let '(sh2, s2) := k sh1 s1 in Ends sh2 s2 Query_OK
      end
  end.

(** What a client can send on a connection. *)
Inductive action :=
| CALL_make_sale (customer_id product_id quantity salesperson_id : option Z)
| Next_statement (fault : bool)
| INSERT_Sale_Item (NEW : Sale_Item_row) (fault : bool)
| UPDATE_Payment_mode (mode : string) (sale_id : Z) (fault : bool)
| UPDATE_Product_price (pid price : Z) (fault : bool).

Definition perform (c : conn) (a : action) (sh : shared) (s : session)
  : step_result :=
  match a, call s with
  | CALL_make_sale cu pid q sp, None =>
      continue (enter_make_sale cu pid q sp) sh s
  | Next_statement fault, Some f => step_make_sale c fault f sh s
  | INSERT_Sale_Item NEW fault, None =>
      let id := next_sale_item_id (auto_increment sh) in
      autocommit_statement c fault
        (INSERT_INTO_Sale_Item (from_make_sale s) id NEW (view sh s)) sh s
        (fun sh1 s1 => (bump_sale_item sh1, set_last_insert_id id s1))
  | UPDATE_Payment_mode mode sid fault, None =>
      autocommit_statement c fault
        (UPDATE_Payment_SET_mode mode sid (view sh s)) sh s
        (fun sh1 s1 => (sh1, s1))
  | UPDATE_Product_price pid price fault, None =>
      autocommit_statement c fault
        (UPDATE_Product_SET_price pid price (view sh s)) sh s
        (fun sh1 s1 => (sh1, s1))
  | _, _ => Waits
  end.

(** ** The server: all sessions over the shared tables *)

Record world := mkWorld {
  shared_state : shared;
  sessions : gmap conn session }.

Definition world_step (c : conn) (a : action) (w : world)
  : option (world * option outcome) :=
  match sessions w !! c with
  | None => None
  | Some s =>
      match perform c a (shared_state w) s with
      | Waits => None
      | Goes sh s' => Some (mkWorld sh (<[c := s']> (sessions w)), None)
      | Ends sh s' o => Some (mkWorld sh (<[c := s']> (sessions w)), Some o)
      end
  end.

(** One transition of the server: some connection performs some action. *)
Definition step (w w' : world) : Prop :=
  exists c a o, world_step c a w = Some (w', o).

Definition reachable : world -> world -> Prop := rtc step.

(** ** A call run on its own

    [run_make_sale] runs the call of session [c] to its end while no other
    session moves; [faults] tells which statements fail in the storage
    engine.  A statement that would wait for a row lock then waits in vain:
    it ends in a lock wait timeout, an SQLEXCEPTION like any other. *)
Definition or_timeout (c : conn) (sh : shared) (s : session) (r : step_result)
  : step_result :=
  match r with
  | Waits => EXIT_HANDLER c ER_STORAGE_ENGINE sh s
  | _ => r
  end.

Fixpoint run_make_sale (fuel : nat) (c : conn) (faults : label -> bool)
    (sh : shared) (s : session) : option (outcome * shared * session) :=
  match fuel with
  | O => None
  | S fuel' =>
      match call s with
      | None => None
      | Some f =>
          match or_timeout c sh s (step_make_sale c (faults (pc f)) f sh s) with
          | Waits => None
          | Goes sh' s' => run_make_sale fuel' c faults sh' s'
          | Ends sh' s' o => Some (o, sh', s')
          end
      end
  end.

(** The procedure has sixteen statements and no loop. *)
Definition make_sale (c : conn)
    (customer_id product_id quantity salesperson_id : option Z)
    (faults : label -> bool) (sh : shared) (s : session)
  : option (outcome * shared * session) :=
  match call s with
  | Some _ => None
  | None =>
      run_make_sale 16 c faults sh
        (set_call (Some (enter_make_sale customer_id product_id quantity
                                         salesperson_id)) s)
  end.

(** The same run, told with the statement at which it ended. *)
Fixpoint run_make_sale_at (fuel : nat) (c : conn) (faults : label -> bool)
    (sh : shared) (s : session) : option (label * outcome * shared * session) :=
  match fuel with
  | O => None
  | S fuel' =>
      match call s with
      | None => None
      | Some f =>
          match or_timeout c sh s (step_make_sale c (faults (pc f)) f sh s) with
          | Waits => None
          | Goes sh' s' => run_make_sale_at fuel' c faults sh' s'
          | Ends sh' s' o => Some (pc f, o, sh', s')
          end
      end
  end.

Definition make_sale_at (c : conn)
    (customer_id product_id quantity salesperson_id : option Z)
    (faults : label -> bool) (sh : shared) (s : session)
  : option (label * outcome * shared * session) :=
  match call s with
  | Some _ => None
  | None =>
      run_make_sale_at 16 c faults sh
        (set_call (Some (enter_make_sale customer_id product_id quantity
                                         salesperson_id)) s)
  end.

Definition no_fault : label -> bool := fun _ => false.
Definition fault_at (l : label) : label -> bool := fun l' => bool_decide (l' = l).

(** ** The shape of a running call

    What holds of the session of a running call before each statement: its
    write log, and, while it holds the lock, that its variables are the
    committed row.  [sale_vars] names the values the call has fixed so far. *)
Record sale_vars := mkVars {
  sv_pid : Z; sv_q : Z; sv_pr : Z; sv_st : Z;
  sv_cu : Z; sv_sid : Z; sv_iid : Z; sv_payid : Z }.

Definition idx (l : label) : nat :=
  match l with
  | L135_IF_quantity => 0
  | L139_START_TRANSACTION => 1
  | L141_SELECT_FOR_UPDATE => 2
  | L146_IF_price_IS_NULL => 3
  | L150_IF_stock => 4
  | L154_INSERT_Sale => 5
  | L157_SET_v_sale_id => 6
  | L163_SET_from_make_sale_1 => 7
  | L166_INSERT_Sale_Item => 8
  | L169_SET_from_make_sale_0 => 9
  | L172_UPDATE_Product => 10
  | L176_SET_v_total => 11
  | L178_UPDATE_Sale => 12
  | L183_INSERT_Payment => 13
  | L186_COMMIT => 14
  | L189_SELECT_result => 15
  end.

(** [@from_make_sale] before the statement [l] of a call entered with the
    value [before]: lines 163 and 169 are the only assignments. *)
Definition flag_at (l : label) (before : option Z) : option Z :=
  if (idx l <=? 7)%nat then before
  else if (idx l <=? 9)%nat then Some 1 else Some 0.

(** The five row changes of a sale, in the order the procedure makes
    them. *)
Definition sale_writes (salesperson_id : option Z) (v : sale_vars) : list write :=
  let sp := NULLIF salesperson_id 0 in
  [ Ins_Sale (sv_sid v) (mkSale (sv_cu v) sp 0);
    Ins_Sale_Item (sv_iid v)
      (mkSale_Item (sv_sid v) (sv_pid v) (sv_q v) (sv_pr v));
    Upd_Product (sv_pid v) (mkProduct (sv_pr v) (sv_st v - sv_q v));
    Upd_Sale (sv_sid v) (mkSale (sv_cu v) sp (sv_pr v * sv_q v));
    Ins_Payment (sv_payid v) (mkPayment (sv_sid v) "CASH" "SUCCESS") ].

(** How many of them are in the log before each statement; [None] where
    no transaction is open. *)
Definition logged (l : label) : option nat :=
  match l with
  | L135_IF_quantity | L139_START_TRANSACTION | L189_SELECT_result => None
  | L141_SELECT_FOR_UPDATE | L146_IF_price_IS_NULL | L150_IF_stock
  | L154_INSERT_Sale => Some 0%nat
  | L157_SET_v_sale_id | L163_SET_from_make_sale_1 | L166_INSERT_Sale_Item =>
      Some 1%nat
  | L169_SET_from_make_sale_0 | L172_UPDATE_Product => Some 2%nat
  | L176_SET_v_total | L178_UPDATE_Sale => Some 3%nat
  | L183_INSERT_Payment => Some 4%nat
  | L186_COMMIT => Some 5%nat
  end.

Definition expected_log (f : frame) (v : sale_vars) : option (list write) :=
  match logged (pc f) with
  | Some n => Some (take n (sale_writes (p_salesperson_id f) v))
  | None => None
  end.

Definition same_params (f f' : frame) : Prop :=
  p_customer_id f' = p_customer_id f /\
  p_product_id f' = p_product_id f /\
  p_quantity f' = p_quantity f /\
  p_salesperson_id f' = p_salesperson_id f.

(** What a call that returns its result row has done to the tables. *)
Definition sale_done (d : database) (f : frame) (v : sale_vars)
    (d' : database) (o : outcome) : Prop :=
  p_customer_id f = Some (sv_cu v) /\
  p_product_id f = Some (sv_pid v) /\
  p_quantity f = Some (sv_q v) /\
  0 < sv_q v <= sv_st v /\
  Product d !! sv_pid v = Some (mkProduct (sv_pr v) (sv_st v)) /\
  d' = apply_writes d (sale_writes (p_salesperson_id f) v) /\
  o = Result_row (Some (sv_sid v)) (Some (sv_pr v * sv_q v)).

(** The call holds the lock of its [Product] row and its variables are
    that row as committed. *)
Definition locked_row (c : conn) (sh : shared) (f : frame) (v : sale_vars) : Prop :=
  p_product_id f = Some (sv_pid v) /\
  v_price f = Some (sv_pr v) /\
  v_stock f = Some (sv_st v) /\
  Product (db sh) !! sv_pid v = Some (mkProduct (sv_pr v) (sv_st v)) /\
  row_locks sh !! sv_pid v = Some c.

Record shape (c : conn) (sh : shared) (s : session) (f : frame) (v : sale_vars)
  : Prop := mkShape {
  shape_trx : trx s = expected_log f v;
  shape_quantity :
    (1 <= idx (pc f))%nat -> p_quantity f = Some (sv_q v) /\ 0 < sv_q v;
  shape_unread : (idx (pc f) <= 2)%nat -> v_price f = None;
  shape_read :
    idx (pc f) = 3%nat -> v_price f = None \/ locked_row c sh f v;
  shape_locked :
    (4 <= idx (pc f) <= 14)%nat -> locked_row c sh f v;
  shape_stock : (5 <= idx (pc f))%nat -> sv_q v <= sv_st v;
  shape_customer : (6 <= idx (pc f))%nat -> p_customer_id f = Some (sv_cu v);
  shape_last_insert_id : idx (pc f) = 6%nat -> last_insert_id s = sv_sid v;
  shape_sale_id : (7 <= idx (pc f))%nat -> v_sale_id f = Some (sv_sid v);
  shape_flag : idx (pc f) = 8%nat -> from_make_sale s = Some 1;
  shape_flag_cleared : (10 <= idx (pc f))%nat -> from_make_sale s = Some 0;
  shape_total :
    (12 <= idx (pc f))%nat ->
    v_total f = Some (sv_pr v * sv_q v) }.

(** The session state the invariants ask for: an idle session has no open
    transaction, a running call has its shape. *)
Definition session_ok (c : conn) (sh : shared) (s : session) : Prop :=
  match call s with
  | None => trx s = None
  | Some f => exists v, shape c sh s f v
  end.

(** Session [c] holds no row lock. *)
Definition holds_no_lock (c : conn) (sh : shared) : Prop :=
  forall pid, row_locks sh !! pid <> Some c.

(** How one step of session [c] may change the counters and the locks. *)
Definition counters_le (n n' : counters) : Prop :=
  next_sale_id n <= next_sale_id n' /\
  next_sale_item_id n <= next_sale_item_id n' /\
  next_payment_id n <= next_payment_id n'.

Definition allocates (n n' : counters) (x : write) : Prop :=
  match x with
  | Ins_Sale id _ => id = next_sale_id n /\ next_sale_id n' = id + 1
  | Ins_Sale_Item id _ => id = next_sale_item_id n /\ next_sale_item_id n' = id + 1
  | Ins_Payment id _ => id = next_payment_id n /\ next_payment_id n' = id + 1
  | _ => True
  end.

(** The key of an inserted row was allocated when the counters were [n] or
    later. *)
Definition born_after (n : counters) (x : write) : Prop :=
  match x with
  | Ins_Sale id _ => next_sale_id n <= id
  | Ins_Sale_Item id _ => next_sale_item_id n <= id
  | Ins_Payment id _ => next_payment_id n <= id
  | _ => True
  end.

Definition locks_step (c : conn) (l l' : gmap Z conn) : Prop :=
  l' = l \/ l' = release c l \/
  exists pid, lock_free_for c l pid = true /\ l' = <[pid := c]> l.

(** ** What one step can do

    Every step of a session falls in one of seven classes.  [effect] says,
    for each, how the shared state and the session change. *)

(** The row changes of a statement sent in autocommit mode, with the
    counters after it. *)
Inductive autocommit_writes (s : session) (sh : shared)
  : list write -> counters -> Prop :=
| AW_insert (NEW : Sale_Item_row) (ws : list write) :
    INSERT_INTO_Sale_Item (from_make_sale s)
      (next_sale_item_id (auto_increment sh)) NEW (db sh) = Ok ws ->
    autocommit_writes s sh ws (auto_increment (bump_sale_item sh))
| AW_payment (mode : string) (sale_id : Z) (ws : list write) :
    UPDATE_Payment_SET_mode mode sale_id (db sh) = Ok ws ->
    autocommit_writes s sh ws (auto_increment sh)
| AW_price (pid price : Z) (ws : list write) :
    UPDATE_Product_SET_price pid price (db sh) = Ok ws ->
    autocommit_writes s sh ws (auto_increment sh).

Inductive effect (c : conn) (sh : shared) (s : session)
    (sh' : shared) (s' : session) : Prop :=
| Eff_statement (f f' : frame) (v v' : sale_vars) :
    call s = Some f -> pc f <> L186_COMMIT -> shape c sh s f v ->
    call s' = Some f' -> shape c sh' s' f' v' ->
    db sh' = db sh ->
    locks_step c (row_locks sh) (row_locks sh') ->
    counters_le (auto_increment sh) (auto_increment sh') ->
    (forall x, x ∈ default [] (trx s') ->
               x ∈ default [] (trx s) \/
               allocates (auto_increment sh) (auto_increment sh') x) ->
    effect c sh s sh' s'
| Eff_commit (f : frame) (v : sale_vars) :
    call s = Some f -> pc f = L186_COMMIT -> shape c sh s f v ->
    sh' = set_row_locks (release c (row_locks sh))
            (set_db (apply_writes (db sh) (sale_writes (p_salesperson_id f) v)) sh) ->
    s' = set_call (Some (goto L189_SELECT_result f)) (set_trx None s) ->
    effect c sh s sh' s'
| Eff_raise :
    sh' = set_row_locks (release c (row_locks sh)) sh ->
    s' = set_call None (set_trx None s) ->
    effect c sh s sh' s'
| Eff_return (f : frame) :
    call s = Some f -> pc f = L189_SELECT_result -> trx s = None ->
    sh' = sh -> s' = set_call None s ->
    effect c sh s sh' s'
| Eff_call (customer_id product_id quantity salesperson_id : option Z) :
    call s = None -> trx s = None ->
    sh' = sh ->
    s' = set_call (Some (enter_make_sale customer_id product_id quantity
                                         salesperson_id)) s ->
    effect c sh s sh' s'
| Eff_failed :
    sh' = sh -> s' = s -> effect c sh s sh' s'
| Eff_autocommit (ws : list write) (n' : counters) :
    call s = None -> trx s = None ->
    autocommit_writes s sh ws n' ->
    forallb (lock_free_for c (row_locks sh)) (written_products ws) = true ->
    sh' = set_auto_increment n' (set_db (apply_writes (db sh) ws) sh) ->
    call s' = None -> trx s' = None -> from_make_sale s' = from_make_sale s ->
    effect c sh s sh' s'.

(** ** Invariants of the server *)

(** Invariant 1 of the specification: no [Product] row has a negative
    stock. *)
Definition stock_nonneg (d : database) : Prop :=
  forall pid r, Product d !! pid = Some r -> 0 <= Product_stock r.

Definition sessions_ok (w : world) : Prop :=
  forall c s, sessions w !! c = Some s -> session_ok c (shared_state w) s.

(** Nothing is going on: every session is idle, outside any transaction,
    and no row is locked. *)
Definition quiescent (w : world) : Prop :=
  row_locks (shared_state w) = ∅ /\
  forall c s, sessions w !! c = Some s -> call s = None /\ trx s = None.

(** Keys come from the AUTO_INCREMENT counters: every key in a table and
    every key a running transaction has allocated is below its counter, an
    allocated key is not yet in the table, and two transactions never hold
    the same key. *)
Definition keys_below (d : database) (n : counters) : Prop :=
  (forall k, is_Some (Sale d !! k) -> k < next_sale_id n) /\
  (forall k, is_Some (Sale_Item d !! k) -> k < next_sale_item_id n) /\
  (forall k, is_Some (Payment d !! k) -> k < next_payment_id n).

Definition pending_fresh (d : database) (n : counters) (x : write) : Prop :=
  match x with
  | Ins_Sale id _ => id < next_sale_id n /\ Sale d !! id = None
  | Ins_Sale_Item id _ => id < next_sale_item_id n /\ Sale_Item d !! id = None
  | Ins_Payment id _ => id < next_payment_id n /\ Payment d !! id = None
  | _ => True
  end.

Definition clash (x y : write) : Prop :=
  match x, y with
  | Ins_Sale a _, Ins_Sale b _ => a = b
  | Ins_Sale_Item a _, Ins_Sale_Item b _ => a = b
  | Ins_Payment a _, Ins_Payment b _ => a = b
  | _, _ => False
  end.

Definition pending (s : session) : list write := default [] (trx s).

Record fresh (w : world) : Prop := mkFresh {
  fresh_keys :
    keys_below (db (shared_state w)) (auto_increment (shared_state w));
  fresh_pending :
    forall c s x, sessions w !! c = Some s -> x ∈ pending s ->
      pending_fresh (db (shared_state w)) (auto_increment (shared_state w)) x;
  fresh_apart :
    forall c1 c2 s1 s2 x1 x2, c1 <> c2 ->
      sessions w !! c1 = Some s1 -> sessions w !! c2 = Some s2 ->
      x1 ∈ pending s1 -> x2 ∈ pending s2 -> ~ clash x1 x2 }.

(** Invariant 3 of the specification, with the foreign key it rests on. *)
Definition payments_of (d : database) (sale_id : Z) : gmap Z Payment_row :=
  filter (fun kv => Payment_sale_id kv.2 = sale_id) (Payment d).

Definition one_payment_per_sale (d : database) : Prop :=
  forall sale_id, is_Some (Sale d !! sale_id) ->
    size (payments_of d sale_id) = 1%nat.

Definition payments_reference_sales (d : database) : Prop :=
  forall k r, Payment d !! k = Some r -> is_Some (Sale d !! Payment_sale_id r).

Definition payments_ok (d : database) : Prop :=
  payments_reference_sales d /\ one_payment_per_sale d.

(** The state the server keeps in order: sessions and keys. *)
Definition well_formed (w : world) : Prop := sessions_ok w /\ fresh w.

(** The column ranges, row constraints and foreign keys of [Sale_Item]
    alone, without the trigger: what decides whether an insert goes through
    when the trigger stays silent. *)
Definition row_accepted (NEW : Sale_Item_row) (d : database) : bool :=
  fits_INT (Sale_Item_quantity NEW) &&
  fits_DECIMAL_10_2 (Sale_Item_price NEW) &&
  (negb check_constraints || (0 <? Sale_Item_quantity NEW)) &&
  (negb check_constraints || (0 <=? Sale_Item_price NEW)) &&
  bool_decide (is_Some (Sale d !! Sale_Item_sale_id NEW)) &&
  bool_decide (is_Some (Product d !! Sale_Item_product_id NEW)).

(** A schedule: which connection does what, in order. *)
Fixpoint run_actions (l : list (conn * action)) (w : world) : option world :=
  match l with
  | [] => Some w
  | (c, a) :: l' =>
      match world_step c a w with
      | Some (w', _) => run_actions l' w'
      | None => None
      end
  end.

(** ** A small shop

    The state of the scenarios of the specification: two customers, item 1
    at 129.99 with 30 in stock, item 2 at 99.99 with 5 in stock, no sale
    yet, and two idle connections. *)
Definition shop_db : database :=
  mkDb {[1; 2]} ∅ {[1 := mkProduct 12999 30; 2 := mkProduct 9999 5]} ∅ ∅ ∅.

Definition shop : shared := mkShared shop_db (mkCounters 1 1 1) ∅.

Definition idle_session : session := mkSession None 0 None None.

Definition server : world :=
  mkWorld shop {[0%nat := idle_session; 1%nat := idle_session]}.

Definition sale_of (customer item qty : Z) : action :=
  CALL_make_sale (Some customer) (Some item) (Some qty) (Some 0).

Definition statements (c : conn) (n : nat) : list (conn * action) :=
  replicate n (c, Next_statement false).

(** Two sales at once: connection 0 buys the 30 pieces of item 1 while
    connection 1 buys the 5 pieces of item 2, their statements interleaved;
    then connection 1 inserts one more piece of item 1 past the procedure. *)
Definition two_sales_interleaved : list (conn * action) :=
  [(0%nat, sale_of 1 1 30); (1%nat, sale_of 2 2 5)]
  ++ statements 0%nat 3 ++ statements 1%nat 4
  ++ statements 0%nat 13 ++ statements 1%nat 12
  ++ [(1%nat, INSERT_Sale_Item (mkSale_Item 1 1 1 12999) false)].

(** A sale of two pieces of item 1 up to its insert into [Sale_Item]. *)
Definition sale_up_to_line_166 : list (conn * action) :=
  (0%nat, sale_of 1 1 2) :: statements 0%nat 8.

(** Checks that compute, for concrete states. *)
Definition idle (s : session) : bool :=
  match call s, trx s with
  | None, None => true
  | _, _ => false
  end.

Definition quiescent_b (w : world) : bool :=
  bool_decide (row_locks (shared_state w) = ∅) &&
  bool_decide (map_Forall (fun _ s => idle s = true) (sessions w)).

Definition stock_nonneg_b (d : database) : bool :=
  bool_decide (map_Forall (fun _ r => 0 <= Product_stock r) (Product d)).

Definition no_sales_b (d : database) : bool :=
  bool_decide (Sale d = ∅) && bool_decide (Sale_Item d = ∅) &&
  bool_decide (Payment d = ∅).

(** The shop after the sale of scenario 1: two pieces of item 1 sold to
    customer 1 on connection 0. *)
Definition shop_sold : shared :=
  match make_sale 0%nat (Some 1) (Some 1) (Some 2) (Some 0) no_fault shop
                  idle_session with
  | Some (_, sh, _) => sh
  | None => shop
  end.

(** ** The handler of [POST /api/sale]

    Lines 80-119 of routes/sales.js.  After its validation ([post_sale])
    the handler sends two queries through
    the pool, each on a connection of the pool's choice and in autocommit
    mode: the CALL and, when the CALL returned a row with a sale id, the
    update of the payment mode.  An error of either query goes to the
    handler's [catch].  [payment_mode] is the handler's constant of that
    name. *)
Inductive sale_reply :=
| Reply_error (status : Z) (error : string) (details : option sql_error)
| Reply_sale_completed (sale_id : Z) (total_amount : option Z)
    (payment_mode : string).

(** The handler, with [c1] the connection the pool gives the CALL and [c2]
    the one it gives the UPDATE.  An integer outside the range of the INT
    parameters is refused by the server before the procedure starts.  The
    route lets a [salesperson_id] through that is a fraction or an infinity;
    what the driver and the server make of such a value is not modelled
    ([None]), nor is a query that finds its connection busy or a row
    locked. *)
Definition POST_api_sale (c1 c2 : conn) (req : sale_request)
    (payment_mode : string) (faults : label -> bool) (fault_UPDATE : bool)
    (w : world) : option (sale_reply * world) :=
  match post_sale req with
  | Respond status error => Some (Reply_error status error None, w)
  | Query_CALL_make_sale (JsInteger cu) (JsInteger pid) (JsInteger q)
                         (JsInteger sp) =>
      if fits_INT cu && fits_INT pid && fits_INT q && fits_INT sp then
        match sessions w !! c1 with
        | None => None
        | Some s1 =>
            match make_sale c1 (Some cu) (Some pid) (Some q) (Some sp) faults
                            (shared_state w) s1 with
            | None => None
            | Some (Raised e, sh1, s1') =>
                Some (Reply_error 400 "Sale failed" (Some e),
                      mkWorld sh1 (<[c1 := s1']> (sessions w)))
            | Some (Result_row (Some sale_id) total_amount, sh1, s1') =>
                let w1 := mkWorld sh1 (<[c1 := s1']> (sessions w)) in
                if sale_id =? 0 then
                  Some (Reply_error 500
                          "Sale created but no output returned from procedure"
                          None, w1)
                else
                  match world_step c2
                          (UPDATE_Payment_mode payment_mode sale_id fault_UPDATE)
                          w1 with
                  | Some (w2, Some (Raised e)) =>
                      Some (Reply_error 400 "Sale failed" (Some e), w2)
                  | Some (w2, _) =>
                      Some (Reply_sale_completed sale_id total_amount
                                                 payment_mode, w2)
                  | None => None
                  end
            | Some (_, sh1, s1') =>
                Some (Reply_error 500
                        "Sale created but no output returned from procedure"
                        None,
                      mkWorld sh1 (<[c1 := s1']> (sessions w)))
            end
        end
      else Some (Reply_error 400 "Sale failed" (Some ER_WARN_DATA_OUT_OF_RANGE), w)
  | Query_CALL_make_sale _ _ _ _ => None
  end.

(** What [UPDATE Payment SET mode = ? WHERE sale_id = ?] makes of a row. *)
Definition SET_mode_WHERE_sale_id (mode : string) (sale_id : Z)
    (r : Payment_row) : Payment_row :=
  if bool_decide (Payment_sale_id r = sale_id)
  then mkPayment (Payment_sale_id r) mode (Payment_status r)
  else r.

(** Every row lock belongs to a running call, past its locking read and not
    past its COMMIT, and it is the lock of the row of the call's item. *)
Definition locks_owned (w : world) : Prop :=
  forall pid c, row_locks (shared_state w) !! pid = Some c ->
    exists s f, sessions w !! c = Some s /\ call s = Some f /\
                p_product_id f = Some pid /\ (3 <= idx (pc f) <= 14)%nat.

(** Two sales of item 1 at once: connection 0 has read and locked the row
    (it is at line 146), connection 1 has reached its locking read. *)
Definition two_sales_of_one_item : list (conn * action) :=
  [(0%nat, sale_of 1 1 2); (1%nat, sale_of 2 1 3)]
  ++ statements 0%nat 3 ++ statements 1%nat 2.

(** A sale of two pieces of item 1 up to its COMMIT. *)
Definition sale_up_to_COMMIT : list (conn * action) :=
  (0%nat, sale_of 1 1 2) :: statements 0%nat 14.

(** ** The report of the best-selling products

    [GET /api/reports/top-products] (routes/reports.js) groups the line
    items, joined with their product, by product, and sums the quantities
    and [quantity * price] of each group.  [top_products_groups] is the
    result of the GROUP BY, before the ORDER BY and the LIMIT of the query;
    the columns [name] and [category], which the product determines, are
    left out as they are in the rows. *)
Record top_product := mkTop {
  total_quantity_sold : Z;
  total_revenue : Z }.

(** One line item joining its group; the INNER JOIN drops a line whose
    product does not exist. *)
Definition add_line (d : database) (si : Sale_Item_row)
    (groups : gmap Z top_product) : gmap Z top_product :=
  match Product d !! Sale_Item_product_id si with
  | None => groups
  | Some _ =>
      let g := default (mkTop 0 0) (groups !! Sale_Item_product_id si) in
      <[Sale_Item_product_id si :=
          mkTop (total_quantity_sold g + Sale_Item_quantity si)
                (total_revenue g + Sale_Item_quantity si * Sale_Item_price si)]>
        groups
  end.

Definition top_products_groups (d : database) : gmap Z top_product :=
  map_fold (fun _ => add_line d) ∅ (Sale_Item d).

(** * Proofs *)

(** ** Basic facts *)

Lemma set_trx_None_id (s : session) : trx s = None -> set_trx None s = s.
Proof. destruct s; simpl; intros ->; reflexivity. Qed.

Lemma release_lookup (c : conn) (locks : gmap Z conn) (pid : Z) (c' : conn) :
  release c locks !! pid = Some c' <-> locks !! pid = Some c' /\ c' <> c.
Proof. unfold release. rewrite map_lookup_filter_Some. simpl. tauto. Qed.

Lemma release_holds_no_lock (c : conn) (sh : shared) (locks : gmap Z conn) :
  row_locks sh = release c locks -> holds_no_lock c sh.
Proof. intros Heq pid H. rewrite Heq in H. apply release_lookup in H. tauto. Qed.



Lemma lock_free_for_own (c : conn) (locks : gmap Z conn) (pid : Z) :
  locks !! pid = Some c -> lock_free_for c locks pid = true.
Proof. unfold lock_free_for. intros ->. apply bool_decide_eq_true. reflexivity. Qed.

Lemma lock_free_for_other (c c' : conn) (locks : gmap Z conn) (pid : Z) :
  locks !! pid = Some c' -> lock_free_for c locks pid = true -> c' = c.
Proof.
  unfold lock_free_for. intros ->. intros H. apply bool_decide_eq_true in H. exact H.
Qed.

Lemma product_row_eta (r : Product_row) :
  mkProduct (Product_price r) (Product_stock r) = r.
Proof. destruct r; reflexivity. Qed.

(** Resolving the guards of [shape] once the statement is known. *)
Ltac use_shape H :=
  destruct H as [Htrx Hq Hunread Hread Hlocked Hstock Hcust Hlast Hsid Hflag Hflag0 Htotal];
  unfold expected_log, sale_writes, locked_row in Htrx, Hread, Hlocked;
  simpl in Htrx, Hq, Hunread, Hread, Hlocked, Hstock, Hcust, Hlast, Hsid, Hflag, Hflag0, Htotal;
  repeat match goal with
  | H : (_ <= _)%nat -> _ |- _ => first [ specialize (H ltac:(lia)) | clear H ]
  | H : (_ <= _ <= _)%nat -> _ |- _ => first [ specialize (H ltac:(lia)) | clear H ]
  | H : @eq nat _ _ -> _ |- _ => first [ specialize (H eq_refl) | clear H ]
  end.

Ltac prove_shape :=
  constructor; unfold expected_log, sale_writes, locked_row in *; simpl; intros;
  try (exfalso; lia); try done; try lia.

Lemma write_rows_in_trx (c : conn) (ws log : list write) (sh sh1 : shared)
    (s s1 : session) :
  trx s = Some log ->
  write_rows c ws sh s = Some (sh1, s1) ->
  forallb (lock_free_for c (row_locks sh)) (written_products ws) = true /\
  sh1 = set_row_locks (acquire c (written_products ws) (row_locks sh)) sh /\
  s1 = set_trx (Some (log ++ ws)) s.
Proof.
  unfold write_rows. intros ->.
  destruct (forallb _ _); [|done]. intros [= <- <-]. done.
Qed.

Ltac goes_tail :=
  unfold same_params; simpl; repeat split; simpl; try lia; try done.

Ltac in_log Htrx :=
  let x := fresh "x" in let Hx := fresh "Hx" in
  intros x Hx; rewrite Htrx; simpl in Hx |- *;
  repeat (apply elem_of_cons in Hx as [->|Hx]);
  [ first [ by (left; repeat constructor) | (right; simpl; lia) ] ..
  | by apply elem_of_nil in Hx ].

Lemma step_make_sale_goes (c : conn) (fault : bool) (f : frame)
    (sh : shared) (s : session) (v : sale_vars) (sh' : shared) (s' : session) :
  shape c sh s f v ->
  step_make_sale c fault f sh s = Goes sh' s' ->
  exists f' v',
    call s' = Some f' /\ shape c sh' s' f' v' /\
    idx (pc f') = S (idx (pc f)) /\
    locks_step c (row_locks sh) (row_locks sh') /\
    counters_le (auto_increment sh) (auto_increment sh') /\
    (forall x, x ∈ default [] (trx s') ->
               x ∈ default [] (trx s) \/
               allocates (auto_increment sh) (auto_increment sh') x) /\
    db sh' = (if decide (pc f = L186_COMMIT) then view sh s else db sh) /\
    same_params f f'.
Proof.
  intros Hshape Hstep.
  destruct f as [l cu pid q sp vp vs vsid vt].
  unfold step_make_sale in Hstep. simpl in Hstep.
  destruct l; use_shape Hshape.
  - (* L135 *)
    destruct q as [q|]; [|done]. destruct (q <=? 0) eqn:Hq0; [done|].
    unfold continue in Hstep. simplify_eq. 
    eexists _, (mkVars (sv_pid v) q (sv_pr v) (sv_st v) (sv_cu v) (sv_sid v) (sv_iid v) (sv_payid v)).
    split; [reflexivity|]. split; [prove_shape; split; [done|lia] |].
    goes_tail. by left. by left.
  - (* L139 *)
    destruct fault; [done|]. unfold continue in Hstep. simplify_eq.
    eexists _, v.
    split; [reflexivity|]. split; [prove_shape |].
    goes_tail. right; by left. intros x Hx. apply elem_of_nil in Hx. done.
    unfold view. rewrite Htrx. done.
  - (* L141 *)
    destruct fault; [done|]. unfold view in Hstep. rewrite Htrx in Hstep. simpl in Hstep.
    destruct pid as [pid|].
    2:{ unfold continue in Hstep. simplify_eq. eexists _, v.
        split; [reflexivity|]. split; [prove_shape; by left |].
        goes_tail. by left. by left. }
    destruct (Product (db sh) !! pid) as [r|] eqn:Hr.
    2:{ unfold continue in Hstep. simplify_eq. eexists _, v.
        split; [reflexivity|]. split; [prove_shape; by left |].
        goes_tail. by left. by left. }
    destruct (lock_free_for c (row_locks sh) pid) eqn:Hfree; [|done].
    unfold continue in Hstep. simplify_eq.
    eexists _, (mkVars pid (sv_q v) (Product_price r) (Product_stock r) (sv_cu v) (sv_sid v) (sv_iid v) (sv_payid v)).
    split; [reflexivity|]. split.
    { prove_shape. right. rewrite product_row_eta, lookup_insert_eq. done. }
    goes_tail. right; right; eauto. by left.
  - (* L146 *)
    destruct vp as [pr|]; [|done]. unfold continue in Hstep. simplify_eq.
    destruct Hread as [?|Hread]; [done|].
    eexists _, v. split; [reflexivity|]. split; [prove_shape|].
    goes_tail. by left. by left.
  - (* L150 *)
    destruct (sql_lt vs q) eqn:Hlt; [done|]. unfold continue in Hstep. simplify_eq.
    eexists _, v. split; [reflexivity|]. split.
    { prove_shape. destruct Hlocked as (_ & _ & -> & _). destruct Hq as [-> ?].
      simpl in Hlt. lia. }
    goes_tail. by left. by left.
  - (* L154 *)
    unfold storage_statement in Hstep. destruct fault; [done|].
    unfold view in Hstep. rewrite Htrx in Hstep. simpl in Hstep.
    unfold INSERT_INTO_Sale, sql_bind, NOT_NULL in Hstep.
    destruct cu as [cu|]; [|done].
    repeat (case_match; try done; []).
    simplify_eq. 
    match goal with H : write_rows _ _ _ _ = Some _ |- _ =>
      apply (write_rows_in_trx _ _ _ _ _ _ _ Htrx) in H as (_ & -> & ->) end.
    unfold continue in Hstep. simplify_eq.
    eexists _, (mkVars (sv_pid v) (sv_q v) (sv_pr v) (sv_st v) cu (next_sale_id (auto_increment sh)) (sv_iid v) (sv_payid v)).
    split; [reflexivity|]. split; [prove_shape|].
    goes_tail. by left. in_log Htrx.
  - (* L157 *)
    unfold continue in Hstep. simplify_eq.
    eexists _, v. split; [reflexivity|]. split; [prove_shape; congruence|].
    goes_tail. by left. by left.
  - (* L163 *)
    unfold continue in Hstep. simplify_eq.
    eexists _, v. split; [reflexivity|]. split; [prove_shape|].
    goes_tail. by left. by left.
  - (* L166 *)
    unfold storage_statement in Hstep. destruct fault; [done|].
    unfold view in Hstep. rewrite Htrx in Hstep. 
    destruct Hlocked as (-> & -> & -> & Hrow & Hlock). destruct Hq as [-> Hq]. subst vsid.
    rewrite Hflag in Hstep.
    unfold INSERT_INTO_Sale_Item, trg_sale_item_after_insert, sql_bind, NOT_NULL in Hstep.
    simpl in Hstep.
    repeat (case_match; try done; []).
    simplify_eq.
    match goal with H : write_rows _ _ _ _ = Some _ |- _ =>
      apply (write_rows_in_trx _ _ _ _ _ _ _ Htrx) in H as (_ & -> & ->) end.
    unfold continue in Hstep. simplify_eq.
    eexists _, (mkVars (sv_pid v) (sv_q v) (sv_pr v) (sv_st v) (sv_cu v) (sv_sid v) (next_sale_item_id (auto_increment sh)) (sv_payid v)).
    split; [reflexivity|]. split; [prove_shape|].
    goes_tail. by left. in_log Htrx.
  - (* L169 *)
    unfold continue in Hstep. simplify_eq.
    eexists _, v. split; [reflexivity|]. split; [prove_shape|].
    goes_tail. by left. by left.
  - (* L172 *)
    unfold storage_statement in Hstep. destruct fault; [done|].
    unfold view in Hstep. rewrite Htrx in Hstep.
    destruct Hlocked as (-> & -> & -> & Hrow & Hlock). destruct Hq as [-> Hq].
    unfold UPDATE_Product_SET_stock, sql_bind, NOT_NULL in Hstep.
    simpl in Hstep. rewrite Hrow in Hstep. simpl in Hstep.
    repeat (case_match; try done; []).
    simplify_eq.
    match goal with H : write_rows _ _ _ _ = Some _ |- _ =>
      apply (write_rows_in_trx _ _ _ _ _ _ _ Htrx) in H as (_ & -> & ->) end.
    unfold continue in Hstep. simplify_eq.
    eexists _, v. split; [reflexivity|]. split.
    { prove_shape. rewrite lookup_insert_eq. done. }
    goes_tail. right; right. exists (sv_pid v). split; [by apply lock_free_for_own|done].
    in_log Htrx.
  - (* L176 *)
    destruct Hlocked as (-> & -> & -> & Hrow & Hlock). destruct Hq as [-> Hq].
    destruct (fits_DECIMAL_10_2 _); [|done].
    unfold continue in Hstep. simplify_eq.
    eexists _, v. split; [reflexivity|]. split; [prove_shape|].
    goes_tail. by left. by left.
  - (* L178 *)
    unfold storage_statement in Hstep. destruct fault; [done|].
    unfold view in Hstep. rewrite Htrx in Hstep. subst vsid vt.
    unfold UPDATE_Sale_SET_total_amount, sql_bind, NOT_NULL in Hstep.
    simpl in Hstep. rewrite lookup_insert_eq in Hstep. simpl in Hstep.
    repeat (case_match; try done; []).
    simplify_eq.
    match goal with H : write_rows _ _ _ _ = Some _ |- _ =>
      apply (write_rows_in_trx _ _ _ _ _ _ _ Htrx) in H as (_ & -> & ->) end.
    unfold continue in Hstep. simplify_eq.
    eexists _, v. split; [reflexivity|]. split; [prove_shape|].
    goes_tail. by left. in_log Htrx.
  - (* L183 *)
    unfold storage_statement in Hstep. destruct fault; [done|].
    unfold view in Hstep. rewrite Htrx in Hstep. subst vsid.
    unfold INSERT_INTO_Payment, sql_bind, NOT_NULL in Hstep.
    simpl in Hstep.
    repeat (case_match; try done; []).
    simplify_eq.
    match goal with H : write_rows _ _ _ _ = Some _ |- _ =>
      apply (write_rows_in_trx _ _ _ _ _ _ _ Htrx) in H as (_ & -> & ->) end.
    unfold continue in Hstep. simplify_eq.
    eexists _, (mkVars (sv_pid v) (sv_q v) (sv_pr v) (sv_st v) (sv_cu v) (sv_sid v) (sv_iid v) (next_payment_id (auto_increment sh))).
    split; [reflexivity|]. split; [prove_shape|].
    goes_tail. by left. in_log Htrx.
  - (* L186 *)
    destruct fault; [done|]. unfold continue in Hstep. simplify_eq.
    eexists _, v. split; [reflexivity|]. split; [prove_shape|].
    goes_tail. right; by left. intros x Hx. apply elem_of_nil in Hx. done.
  - (* L189 *) done.
Qed.

Lemma step_make_sale_ends (c : conn) (fault : bool) (f : frame)
    (sh : shared) (s : session) (sh' : shared) (s' : session) (o : outcome) :
  step_make_sale c fault f sh s = Ends sh' s' o ->
  (exists e, o = Raised e /\ pc f <> L189_SELECT_result /\
             sh' = set_row_locks (release c (row_locks sh)) sh /\
             s' = set_call None (set_trx None s)) \/
  (pc f = L189_SELECT_result /\ o = Result_row (v_sale_id f) (v_total f) /\
   sh' = sh /\ s' = set_call None s).
Proof.
  unfold step_make_sale, storage_statement, EXIT_HANDLER, continue,
    START_TRANSACTION, COMMIT, ROLLBACK.
  intros H. destruct (pc f) eqn:Hpc;
    repeat case_match; simplify_eq; first [ by right | left; eauto ].
Qed.

(** A statement that waits can only end, for this attempt, by a failure of
    the storage engine. *)
Lemma step_make_sale_waits (c : conn) (fault : bool) (f : frame)
    (sh : shared) (s : session) :
  step_make_sale c fault f sh s = Waits ->
  step_make_sale c true f sh s = EXIT_HANDLER c ER_STORAGE_ENGINE sh s.
Proof.
  unfold step_make_sale, storage_statement, EXIT_HANDLER, continue,
    START_TRANSACTION, COMMIT, ROLLBACK.
  intros H. destruct (pc f) eqn:Hpc;
    repeat case_match; simplify_eq; reflexivity.
Qed.

Lemma idx_last (l : label) : idx l = 15%nat -> l = L189_SELECT_result.
Proof. destruct l; simpl; intros; try lia; reflexivity. Qed.

Lemma idx_commit (l : label) : idx l = 14%nat <-> l = L186_COMMIT.
Proof. destruct l; simpl; split; intros; try lia; try done. Qed.

(** A call that raises leaves the committed tables as they were, and ends
    with no lock and no open transaction. *)
Lemma run_make_sale_raised (fuel : nat) (c : conn) (faults : label -> bool)
    (sh : shared) (s : session) (f : frame) (v : sale_vars)
    (e : sql_error) (sh' : shared) (s' : session) :
  call s = Some f ->
  shape c sh s f v ->
  run_make_sale fuel c faults sh s = Some (Raised e, sh', s') ->
  db sh' = db sh /\ holds_no_lock c sh' /\ trx s' = None /\ call s' = None.
Proof.
  revert sh s f v. induction fuel as [|fuel IH]; intros sh s f v Hcall Hshape Hrun;
    [done|].
  simpl in Hrun. rewrite Hcall in Hrun.
  destruct (step_make_sale c (faults (pc f)) f sh s) as [|sh1 s1|sh1 s1 o] eqn:Hstep;
    simpl in Hrun.
  - unfold EXIT_HANDLER, ROLLBACK in Hrun. simplify_eq. simpl.
    split; [done|]. split; [by eapply release_holds_no_lock|done].
  - destruct (step_make_sale_goes _ _ _ _ _ _ _ _ Hshape Hstep)
      as (f1 & v1 & Hcall1 & Hshape1 & Hidx & _ & _ & _ & Hdb & _).
    destruct (decide (pc f = L186_COMMIT)) as [Hpc|Hpc].
    + rewrite Hpc in Hidx. simpl in Hidx. apply idx_last in Hidx.
      destruct fuel as [|fuel]; [done|]. simpl in Hrun. rewrite Hcall1 in Hrun.
      unfold step_make_sale in Hrun. rewrite Hidx in Hrun. simpl in Hrun. done.
    + destruct (IH _ _ _ _ Hcall1 Hshape1 Hrun) as (Hd & ? & ? & ?).
      rewrite Hd, Hdb. done.
  - simplify_eq. apply step_make_sale_ends in Hstep as [(e' & ? & _ & -> & ->)|(_ & ? & _)];
      [|done].
    simpl. split; [done|]. split; [by eapply release_holds_no_lock|done].
Qed.

Lemma allocates_born_after (n n' : counters) (x : write) :
  allocates n n' x -> born_after n x.
Proof. destruct x; simpl; try done; lia. Qed.

Lemma born_after_mono (n n' : counters) (x : write) :
  counters_le n n' -> born_after n' x -> born_after n x.
Proof. intros (? & ? & ?). destruct x; simpl; try done; lia. Qed.

Lemma run_make_sale_result (fuel : nat) (c : conn) (faults : label -> bool)
    (sh : shared) (s : session) (f : frame) (v : sale_vars)
    (a b : option Z) (sh' : shared) (s' : session) :
  call s = Some f ->
  shape c sh s f v ->
  (idx (pc f) <= 14)%nat ->
  run_make_sale fuel c faults sh s = Some (Result_row a b, sh', s') ->
  exists v', sale_done (db sh) f v' (db sh') (Result_row a b) /\
             (forall x, x ∈ sale_writes (p_salesperson_id f) v' ->
                        x ∈ default [] (trx s) \/
                        born_after (auto_increment sh) x) /\
             holds_no_lock c sh' /\ trx s' = None /\ call s' = None /\
             from_make_sale s' = Some 0.
Proof.
  revert sh s f v. induction fuel as [|fuel IH];
    intros sh s f v Hcall Hshape Hidx14 Hrun; [done|].
  simpl in Hrun. rewrite Hcall in Hrun.
  destruct (decide (pc f = L186_COMMIT)) as [Hpc|Hpc].
  - unfold step_make_sale in Hrun. rewrite Hpc in Hrun.
    destruct f as [l cu pid q sp vp vs vsid vt]. simpl in Hpc. subst l.
    use_shape Hshape.
    destruct (faults L186_COMMIT); simpl in Hrun; [done|].
    destruct fuel as [|fuel]; [done|]. simpl in Hrun.
    simplify_eq. exists v.
    destruct Hlocked as (-> & -> & -> & Hrow & Hlock). destruct Hq as [-> Hq].
    unfold sale_done, view. rewrite Htrx. simpl.
    repeat split; try done; try lia; [by left|by eapply release_holds_no_lock].
  - destruct (step_make_sale c (faults (pc f)) f sh s) as [|sh1 s1|sh1 s1 o] eqn:Hstep;
      simpl in Hrun.
    + unfold EXIT_HANDLER, ROLLBACK in Hrun. simplify_eq.
    + destruct (step_make_sale_goes _ _ _ _ _ _ _ _ Hshape Hstep)
        as (f1 & v1 & Hcall1 & Hshape1 & Hidx & _ & Hn & Hlog & Hdb & Hpar).
      rewrite decide_False in Hdb by done.
      assert (idx (pc f) <> 14%nat) by (by rewrite idx_commit).
      destruct (IH _ _ _ _ Hcall1 Hshape1 ltac:(lia) Hrun)
        as (v' & Hdone & Hborn & Hrest).
      exists v'. destruct Hpar as (Hp1 & Hp2 & Hp3 & Hp4).
      split; [|split; [|exact Hrest]].
      * unfold sale_done in *. rewrite Hdb, Hp1, Hp2, Hp3, Hp4 in Hdone. exact Hdone.
      * intros x Hx. rewrite <- Hp4 in Hx. destruct (Hborn x Hx) as [Hin|Hb].
        -- destruct (Hlog x Hin) as [?|Ha]; [by left|].
           right. by eapply allocates_born_after.
        -- right. by eapply born_after_mono.
    + simplify_eq.
      apply step_make_sale_ends in Hstep as [(e' & ? & _)|(Hl & _)]; [done|].
      rewrite Hl in Hidx14. simpl in Hidx14. lia.
Qed.

(** The procedure always comes to an end: sixteen statements, no loop. *)
Lemma run_make_sale_terminates (fuel : nat) (c : conn) (faults : label -> bool)
    (sh : shared) (s : session) (f : frame) (v : sale_vars) :
  call s = Some f ->
  shape c sh s f v ->
  (16 - idx (pc f) <= fuel)%nat ->
  exists o sh' s', run_make_sale fuel c faults sh s = Some (o, sh', s').
Proof.
  revert sh s f v. induction fuel as [|fuel IH]; intros sh s f v Hcall Hshape Hfuel.
  { destruct (pc f); simpl in Hfuel; lia. }
  simpl. rewrite Hcall.
  destruct (step_make_sale c (faults (pc f)) f sh s) as [|sh1 s1|sh1 s1 o] eqn:Hstep;
    simpl.
  - unfold EXIT_HANDLER, ROLLBACK. eauto.
  - destruct (step_make_sale_goes _ _ _ _ _ _ _ _ Hshape Hstep)
      as (f1 & v1 & Hcall1 & Hshape1 & Hidx & _).
    apply (IH _ _ _ _ Hcall1 Hshape1). lia.
  - eauto.
Qed.

Lemma shape_enter (c : conn) (sh : shared) (s : session)
    (cu pid q sp : option Z) (v : sale_vars) :
  trx s = None ->
  shape c sh (set_call (Some (enter_make_sale cu pid q sp)) s)
        (enter_make_sale cu pid q sp) v.
Proof. intros Htrx. prove_shape. Qed.

Lemma make_sale_returns (c : conn) (cu pid q sp : option Z)
    (faults : label -> bool) (sh : shared) (s : session) :
  call s = None -> trx s = None ->
  exists o sh' s', make_sale c cu pid q sp faults sh s = Some (o, sh', s').
Proof.
  intros Hcall Htrx. unfold make_sale. rewrite Hcall.
  eapply run_make_sale_terminates with (v := mkVars 0 0 0 0 0 0 0 0);
    [reflexivity | by apply shape_enter | simpl; lia].
Qed.

Lemma make_sale_raised (c : conn) (cu pid q sp : option Z)
    (faults : label -> bool) (sh : shared) (s : session)
    (e : sql_error) (sh' : shared) (s' : session) :
  trx s = None ->
  make_sale c cu pid q sp faults sh s = Some (Raised e, sh', s') ->
  db sh' = db sh /\ holds_no_lock c sh' /\ trx s' = None /\ call s' = None.
Proof.
  intros Htrx. unfold make_sale. destruct (call s); [done|]. intros Hrun.
  eapply run_make_sale_raised with (v := mkVars 0 0 0 0 0 0 0 0);
    [| by apply shape_enter | exact Hrun]; reflexivity.
Qed.

Lemma make_sale_result (c : conn) (cu pid q sp : option Z)
    (faults : label -> bool) (sh : shared) (s : session)
    (a b : option Z) (sh' : shared) (s' : session) :
  trx s = None ->
  make_sale c cu pid q sp faults sh s = Some (Result_row a b, sh', s') ->
  exists v, sale_done (db sh) (enter_make_sale cu pid q sp) v (db sh')
                      (Result_row a b) /\
            (forall x, x ∈ sale_writes sp v -> born_after (auto_increment sh) x) /\
            holds_no_lock c sh' /\ trx s' = None /\ call s' = None /\
            from_make_sale s' = Some 0.
Proof.
  intros Htrx. unfold make_sale. destruct (call s); [done|]. intros Hrun.
  destruct (run_make_sale_result 16 c faults sh
              (set_call (Some (enter_make_sale cu pid q sp)) s)
              (enter_make_sale cu pid q sp) (mkVars 0 0 0 0 0 0 0 0)
              a b sh' s' eq_refl (shape_enter c sh s cu pid q sp _ Htrx)
              ltac:(simpl; lia) Hrun) as (v & Hdone & Hborn & Hrest).
  exists v. split; [done|]. split; [|done].
  intros x Hx. destruct (Hborn x Hx) as [Hin|?]; [|done].
  simpl in Hin. rewrite Htrx in Hin. by apply elem_of_nil in Hin.
Qed.

Lemma make_sale_not_Query_OK (c : conn) (cu pid q sp : option Z)
    (faults : label -> bool) (sh : shared) (s : session)
    (sh' : shared) (s' : session) :
  make_sale c cu pid q sp faults sh s <> Some (Query_OK, sh', s').
Proof.
  unfold make_sale. destruct (call s); [done|].
  generalize (set_call (Some (enter_make_sale cu pid q sp)) s) as s1.
  generalize 16%nat as fuel. intros fuel. revert sh.
  induction fuel as [|fuel IH]; intros sh s1; [done|].
  simpl. destruct (call s1) as [f|]; [|done].
  destruct (step_make_sale c (faults (pc f)) f sh s1) eqn:Hstep; simpl.
  - unfold EXIT_HANDLER, ROLLBACK. done.
  - apply IH.
  - intros [= -> -> ->].
    apply step_make_sale_ends in Hstep as [(e' & ? & _)|(_ & ? & _)]; done.
Qed.

(** ** Every step has one of the seven effects *)

Lemma autocommit_statement_effect (c : conn) (fault : bool)
    (stmt : sql_result (list write)) (sh : shared) (s : session)
    (k : shared -> session -> shared * session) (n' : counters)
    (sh' : shared) (s' : session) (o : outcome) :
  call s = None -> trx s = None ->
  (forall ws, stmt = Ok ws -> autocommit_writes s sh ws n') ->
  (forall d, exists s2,
      k (set_db d sh) s = (set_auto_increment n' (set_db d sh), s2) /\
      call s2 = call s /\ trx s2 = trx s /\
      from_make_sale s2 = from_make_sale s) ->
  autocommit_statement c fault stmt sh s k = Ends sh' s' o ->
  effect c sh s sh' s'.
Proof.
  intros Hcall Htrx Hws Hk. unfold autocommit_statement.
  destruct fault; [intros [= <- <- <-]; by apply Eff_failed|].
  destruct stmt as [ws|e]; [|intros [= <- <- <-]; by apply Eff_failed].
  unfold write_rows. rewrite Htrx.
  destruct (forallb _ _) eqn:Hfree; [|done].
  destruct (Hk (apply_writes (db sh) ws)) as (s2 & -> & H1 & H2 & H3).
  intros [= <- <- <-].
  eapply Eff_autocommit; eauto; congruence.
Qed.

Lemma perform_effect (c : conn) (a : action) (sh : shared) (s : session)
    (sh' : shared) (s' : session) :
  session_ok c sh s ->
  (exists o, perform c a sh s = Ends sh' s' o) \/ perform c a sh s = Goes sh' s' ->
  effect c sh s sh' s'.
Proof.
  unfold session_ok, perform. intros Hok Hperf.
  destruct a as [cu pid q sp|fault|NEW fault|mode sid fault|pid price fault];
    destruct (call s) as [f|] eqn:Hcall;
    try (destruct Hperf as [[o Hperf]|Hperf]; done).
  - destruct Hperf as [[o Hperf]|Hperf]; [done|].
    unfold continue in Hperf. simplify_eq. by eapply Eff_call.
  - destruct Hok as [v Hshape].
    destruct Hperf as [[o Hperf]|Hperf].
    + apply step_make_sale_ends in Hperf
        as [(e & _ & _ & -> & ->)|(Hpc & _ & -> & ->)].
      * by apply Eff_raise.
      * eapply Eff_return; eauto. destruct Hshape as [Ht _].
        unfold expected_log in Ht. rewrite Hpc in Ht. exact Ht.
    + destruct (decide (pc f = L186_COMMIT)) as [Hpc|Hpc].
      * unfold step_make_sale in Hperf. rewrite Hpc in Hperf.
        destruct fault; [done|]. unfold COMMIT, continue in Hperf.
        simplify_eq. eapply Eff_commit; eauto.
        destruct Hshape as [Ht _]. unfold expected_log in Ht.
        rewrite Hpc in Ht. unfold view. rewrite Ht. reflexivity.
      * destruct (step_make_sale_goes _ _ _ _ _ _ _ _ Hshape Hperf)
          as (f1 & v1 & Hcall1 & Hshape1 & _ & Hl & Hn & Hlog & Hdb & _).
        rewrite decide_False in Hdb by done.
        eapply Eff_statement; eauto.
  - destruct Hperf as [[o Hperf]|Hperf];
      [|by unfold autocommit_statement in Hperf; repeat case_match].
    eapply autocommit_statement_effect; [done|done| | |exact Hperf].
    + intros ws Hws. unfold view in Hws. rewrite Hok in Hws. simpl in Hws. by eapply AW_insert.
    + intros d. eexists. split; [reflexivity|]. done.
  - destruct Hperf as [[o Hperf]|Hperf];
      [|by unfold autocommit_statement in Hperf; repeat case_match].
    eapply autocommit_statement_effect; [done|done| | |exact Hperf].
    + intros ws Hws. unfold view in Hws. rewrite Hok in Hws. simpl in Hws. by eapply AW_payment.
    + intros d. exists s. split; [|done]. by destruct sh.
  - destruct Hperf as [[o Hperf]|Hperf];
      [|by unfold autocommit_statement in Hperf; repeat case_match].
    eapply autocommit_statement_effect; [done|done| | |exact Hperf].
    + intros ws Hws. unfold view in Hws. rewrite Hok in Hws. simpl in Hws. by eapply AW_price.
    + intros d. exists s. split; [|done]. by destruct sh.
Qed.

(** ** Row changes and the [Product] table *)

Lemma apply_writes_snoc (d : database) (ws : list write) (x : write) :
  apply_writes d (ws ++ [x]) = apply_write (apply_writes d ws) x.
Proof. unfold apply_writes. by rewrite foldl_app. Qed.

Lemma Product_apply_writes (ws : list write) (d : database) (pid : Z) :
  Product (apply_writes d ws) !! pid = Product d !! pid \/
  exists r, Upd_Product pid r ∈ ws /\
            Product (apply_writes d ws) !! pid = Some r.
Proof.
  induction ws as [|x ws IH] using rev_ind; [by left|].
  rewrite apply_writes_snoc.
  assert (Hkeep : Product (apply_write (apply_writes d ws) x) !! pid
                  = Product (apply_writes d ws) !! pid ->
                  Product (apply_write (apply_writes d ws) x) !! pid
                  = Product d !! pid \/
                  exists r, Upd_Product pid r ∈ ws ++ [x] /\
                    Product (apply_write (apply_writes d ws) x) !! pid = Some r).
  { intros ->. destruct IH as [IH|(r' & Hin & IH)]; [by left|].
    right. exists r'. split; [apply elem_of_app; by left|done]. }
  destruct x as [id r|id r|id r|id r|id r|id r]; try (by apply Hkeep).
  destruct (decide (id = pid)) as [->|Hne].
  - right. exists r. simpl. rewrite lookup_insert_eq.
    split; [apply elem_of_app; right; by apply list_elem_of_singleton|done].
  - apply Hkeep. simpl. by rewrite lookup_insert_ne.
Qed.

Lemma written_products_elem (ws : list write) (pid : Z) (r : Product_row) :
  Upd_Product pid r ∈ ws -> pid ∈ written_products ws.
Proof.
  intros H. unfold written_products. apply list_elem_of_omap.
  exists (Upd_Product pid r). done.
Qed.

Lemma forallb_lock_free (c : conn) (locks : gmap Z conn) (ws : list write)
    (pid : Z) (r : Product_row) :
  forallb (lock_free_for c locks) (written_products ws) = true ->
  Upd_Product pid r ∈ ws -> lock_free_for c locks pid = true.
Proof.
  intros Hall Hin. rewrite forallb_forall in Hall. apply Hall.
  apply list_elem_of_In. by eapply written_products_elem.
Qed.

(** ** What the statements write to [Product] *)

Lemma UPDATE_Product_SET_stock_writes (pid qty : Z) (d : database)
    (ws : list write) :
  UPDATE_Product_SET_stock pid qty d = Ok ws ->
  ws = [] /\ Product d !! pid = None \/
  exists r, Product d !! pid = Some r /\
            ws = [Upd_Product pid (mkProduct (Product_price r)
                                             (Product_stock r - qty))].
Proof.
  unfold UPDATE_Product_SET_stock, sql_bind. intros H.
  destruct (Product d !! pid) as [r|]; [|left; by simplify_eq].
  right. exists r. repeat case_match; by simplify_eq.
Qed.

Lemma trg_sale_item_after_insert_writes (flag : option Z) (NEW : Sale_Item_row)
    (d : database) (ws : list write) :
  trg_sale_item_after_insert flag NEW d = Ok ws ->
  ws = [] \/
  exists r, IFNULL flag 0 = 0 /\
            Product d !! Sale_Item_product_id NEW = Some r /\
            0 <= Product_stock r - Sale_Item_quantity NEW /\
            ws = [Upd_Product (Sale_Item_product_id NEW)
                    (mkProduct (Product_price r)
                               (Product_stock r - Sale_Item_quantity NEW))].
Proof.
  unfold trg_sale_item_after_insert, sql_bind. intros H.
  destruct (IFNULL flag 0 =? 0) eqn:Hflag; [|left; by simplify_eq].
  destruct (UPDATE_Product_SET_stock _ _ d) as [ws0|e] eqn:Hupd; [|done].
  apply UPDATE_Product_SET_stock_writes in Hupd as [[-> Hnone]|(r & Hr & ->)].
  - simpl in H. rewrite Hnone in H. left. by simplify_eq.
  - simpl in H. rewrite lookup_insert_eq in H. simpl in H.
    destruct (_ <? 0) eqn:Hneg; [done|]. right. exists r. simplify_eq.
    repeat split; try done; lia.
Qed.

Lemma INSERT_INTO_Sale_Item_writes (flag : option Z) (id : Z)
    (NEW : Sale_Item_row) (d : database) (ws : list write) :
  INSERT_INTO_Sale_Item flag id NEW d = Ok ws ->
  exists fired,
    ws = Ins_Sale_Item id NEW :: fired /\
    trg_sale_item_after_insert flag NEW (apply_writes d [Ins_Sale_Item id NEW])
      = Ok fired.
Proof.
  unfold INSERT_INTO_Sale_Item, sql_bind. intros H.
  repeat (case_match; try done; []). simplify_eq. eauto.
Qed.

Lemma UPDATE_Product_SET_price_writes (pid price : Z) (d : database)
    (ws : list write) :
  UPDATE_Product_SET_price pid price d = Ok ws ->
  ws = [] \/
  exists r, Product d !! pid = Some r /\
            ws = [Upd_Product pid (mkProduct price (Product_stock r))].
Proof.
  unfold UPDATE_Product_SET_price, sql_bind. intros H.
  destruct (Product d !! pid) as [r|]; [|left; by simplify_eq].
  right. exists r. repeat case_match; by simplify_eq.
Qed.

Lemma UPDATE_Payment_SET_mode_writes (mode : string) (sale_id : Z) (d : database)
    (ws : list write) (x : write) :
  UPDATE_Payment_SET_mode mode sale_id d = Ok ws -> x ∈ ws ->
  exists k r, Payment d !! k = Some r /\ Payment_sale_id r = sale_id /\
              x = Upd_Payment k (mkPayment (Payment_sale_id r) mode (Payment_status r)).
Proof.
  unfold UPDATE_Payment_SET_mode. cbv zeta.
  set (rows := map_to_list _). intros H Hx.
  assert (Hws : ws = (fun kv : Z * Payment_row =>
                        Upd_Payment kv.1 (mkPayment (Payment_sale_id kv.2) mode
                                                    (Payment_status kv.2)))
                     <$> rows).
  { destruct rows; [by injection H as <-|].
    destruct (_ <=? _)%nat; [|done]. by injection H as <-. }
  subst ws. apply list_elem_of_fmap in Hx as ([k r] & -> & Hkr).
  apply elem_of_map_to_list in Hkr.
  apply map_lookup_filter_Some in Hkr as [Hkr Hsid]. simpl in *. eauto.
Qed.

(** Every [Product] row an autocommit statement writes has a stock that is
    not negative. *)
Lemma autocommit_writes_stock (s : session) (sh : shared) (ws : list write)
    (n' : counters) (pid : Z) (r : Product_row) :
  autocommit_writes s sh ws n' ->
  stock_nonneg (db sh) ->
  Upd_Product pid r ∈ ws -> 0 <= Product_stock r.
Proof.
  intros Haw Hnn Hin. destruct Haw as [NEW ws Hins|mode sid ws Hpay|p price ws Hpr].
  - apply INSERT_INTO_Sale_Item_writes in Hins as (fired & -> & Htrg).
    apply elem_of_cons in Hin as [?|Hin]; [done|].
    apply trg_sale_item_after_insert_writes in Htrg as [->|(r0 & _ & _ & Hge & ->)].
    + by apply elem_of_nil in Hin.
    + apply list_elem_of_singleton in Hin. simplify_eq. done.
  - destruct (UPDATE_Payment_SET_mode_writes _ _ _ _ _ Hpay Hin) as (? & ? & _ & _ & ?).
    done.
  - apply UPDATE_Product_SET_price_writes in Hpr as [->|(r0 & Hr0 & ->)].
    + by apply elem_of_nil in Hin.
    + apply list_elem_of_singleton in Hin. simplify_eq. simpl. by eapply Hnn.
Qed.

(** ** Steps of one session seen from another

    A step of [c] leaves alone every row another session has locked. *)
Lemma locks_step_other (c c2 : conn) (l l' : gmap Z conn) (pid : Z) :
  locks_step c l l' -> c2 <> c -> l !! pid = Some c2 -> l' !! pid = Some c2.
Proof.
  intros [->|[->|(p & Hfree & ->)]] Hne Hl; [done| |].
  - by apply release_lookup.
  - destruct (decide (p = pid)) as [->|Hp].
    + apply (lock_free_for_other _ _ _ _ Hl) in Hfree. done.
    + by rewrite lookup_insert_ne.
Qed.

Lemma effect_rely (c c2 : conn) (sh : shared) (s : session) (sh' : shared)
    (s' : session) (pid : Z) :
  effect c sh s sh' s' -> c2 <> c ->
  row_locks sh !! pid = Some c2 ->
  row_locks sh' !! pid = Some c2 /\
  Product (db sh') !! pid = Product (db sh) !! pid.
Proof.
  intros Heff Hne Hl.
  destruct Heff as [f f' v v' _ _ _ _ _ Hdb Hlocks _ _
                   |f v _ Hpc Hshape -> ->
                   | -> ->
                   |f _ _ _ -> ->
                   |cu p q sp _ _ -> ->
                   | -> ->
                   |ws n' _ _ Haw Hfree -> _ _ _].
  - split; [by eapply locks_step_other|by rewrite Hdb].
  - simpl. split; [by apply release_lookup|].
    destruct f as [l ? ? ? ? ? ? ? ?]. simpl in Hpc. subst l. use_shape Hshape.
    destruct Hlocked as (_ & _ & _ & _ & Hlock).
    rewrite lookup_insert_ne; [done|]. intros Heq. rewrite Heq in Hlock. congruence.
  - simpl. split; [by apply release_lookup|done].
  - done.
  - done.
  - done.
  - simpl. split; [done|].
    destruct (Product_apply_writes ws (db sh) pid) as [H|(r & Hin & _)]; [done|].
    apply (forallb_lock_free _ _ _ _ _ Hfree) in Hin.
    apply (lock_free_for_other _ _ _ _ Hl) in Hin. done.
Qed.

Lemma shape_rely (c : conn) (sh sh' : shared) (s : session) (f : frame)
    (v : sale_vars) :
  (forall pid, row_locks sh !! pid = Some c ->
     row_locks sh' !! pid = Some c /\
     Product (db sh') !! pid = Product (db sh) !! pid) ->
  shape c sh s f v -> shape c sh' s f v.
Proof.
  intros Hrely Hshape.
  assert (Hrow : locked_row c sh f v -> locked_row c sh' f v).
  { intros (H1 & H2 & H3 & H4 & H5). destruct (Hrely _ H5) as [H6 H7].
    unfold locked_row. rewrite H7. done. }
  destruct Hshape. constructor; try done.
  - intros H. destruct (shape_read0 H); auto.
  - auto.
Qed.

(** ** Invariant: every session is in order *)

Lemma effect_session_ok (c : conn) (sh : shared) (s : session) (sh' : shared)
    (s' : session) :
  effect c sh s sh' s' -> session_ok c sh s -> session_ok c sh' s'.
Proof.
  unfold session_ok.
  intros [f f' v v' _ _ _ Hcall' Hshape' _ _ _ _
         |f v Hcall Hpc Hshape -> ->
         | -> ->
         |f Hcall Hpc Htrx -> ->
         |cu p q sp _ Htrx -> ->
         | -> ->
         |ws n' _ _ _ _ -> Hcall' Htrx' _] Hok.
  - rewrite Hcall'. eauto.
  - simpl. exists v. destruct f as [l ? ? ? ? ? ? ? ?]. simpl in Hpc. subst l.
    use_shape Hshape. prove_shape.
  - done.
  - done.
  - simpl. exists (mkVars 0 0 0 0 0 0 0 0). by apply shape_enter.
  - done.
  - by rewrite Hcall'.
Qed.

Lemma world_step_effect (c : conn) (a : action) (w w' : world) (o : option outcome) :
  sessions_ok w ->
  world_step c a w = Some (w', o) ->
  exists s s',
    sessions w !! c = Some s /\
    sessions w' = <[c := s']> (sessions w) /\
    effect c (shared_state w) s (shared_state w') s'.
Proof.
  unfold world_step. intros Hok Hstep.
  destruct (sessions w !! c) as [s|] eqn:Hs; [|done].
  destruct (perform c a (shared_state w) s) as [|sh' s'|sh' s' o'] eqn:Hperf;
    [done| |]; simplify_eq; exists s, s'; simpl;
    (split; [done|]; split; [done|]);
    (eapply perform_effect; [by apply Hok|]); eauto.
Qed.

Lemma step_sessions_ok (w w' : world) :
  step w w' -> sessions_ok w -> sessions_ok w'.
Proof.
  intros (c & a & o & Hstep) Hok.
  destruct (world_step_effect _ _ _ _ _ Hok Hstep) as (s & s' & Hs & Hw' & Heff).
  intros c2 s2. rewrite Hw'. destruct (decide (c2 = c)) as [->|Hne].
  - rewrite lookup_insert_eq. intros [= <-].
    eapply effect_session_ok; [exact Heff|by apply Hok].
  - rewrite lookup_insert_ne by done. intros Hs2.
    specialize (Hok _ _ Hs2). unfold session_ok in *.
    destruct (call s2) as [f2|]; [|done].
    destruct Hok as [v2 Hshape]. exists v2.
    eapply shape_rely; [|exact Hshape].
    intros pid Hl. by eapply effect_rely.
Qed.

Lemma reachable_sessions_ok (w w' : world) :
  reachable w w' -> sessions_ok w -> sessions_ok w'.
Proof. induction 1; eauto using step_sessions_ok. Qed.

Lemma quiescent_sessions_ok (w : world) : quiescent w -> sessions_ok w.
Proof.
  intros [_ Hq] c s Hs. unfold session_ok. destruct (Hq _ _ Hs) as [-> ->]. done.
Qed.

(** ** Invariant: no stock is negative *)

Lemma effect_stock_nonneg (c : conn) (sh : shared) (s : session) (sh' : shared)
    (s' : session) :
  effect c sh s sh' s' -> stock_nonneg (db sh) -> stock_nonneg (db sh').
Proof.
  intros [f f' v v' _ _ _ _ _ Hdb _ _ _
         |f v _ Hpc Hshape -> ->
         | -> ->
         |f _ _ _ -> ->
         |cu p q sp _ _ -> ->
         | -> ->
         |ws n' _ _ Haw _ -> _ _ _] Hnn; try done.
  - by rewrite Hdb.
  - destruct f as [l ? ? ? ? ? ? ? ?]. simpl in Hpc. subst l. use_shape Hshape.
    intros pid r. simpl.
    destruct (decide (sv_pid v = pid)) as [->|Hne].
    + rewrite lookup_insert_eq. intros [= <-]. simpl. lia.
    + rewrite lookup_insert_ne by done. apply Hnn.
  - intros pid r. simpl.
    destruct (Product_apply_writes ws (db sh) pid) as [->|(r' & Hin & ->)].
    + apply Hnn.
    + intros [= <-]. by eapply autocommit_writes_stock.
Qed.

Lemma step_stock_nonneg (w w' : world) :
  step w w' -> sessions_ok w ->
  stock_nonneg (db (shared_state w)) -> stock_nonneg (db (shared_state w')).
Proof.
  intros (c & a & o & Hstep) Hok.
  destruct (world_step_effect _ _ _ _ _ Hok Hstep) as (s & s' & _ & _ & Heff).
  by eapply effect_stock_nonneg.
Qed.

(** C1.  Whatever the sessions do and however their statements interleave,
    no committed [Product] row ever has a negative stock: from a state
    whose sessions are in order and whose stocks are not negative, every
    state the server can reach has only stocks that are not negative.  The
    steps are the statements of concurrent [make_sale] calls (with storage
    faults anywhere), [Sale_Item] rows inserted past the procedure, on which
    the trigger acts, and the other writes of the application. *)
Theorem stock_never_negative (w w' : world) :
  sessions_ok w ->
  stock_nonneg (db (shared_state w)) ->
  reachable w w' ->
  stock_nonneg (db (shared_state w')).
Proof.
  intros Hok Hnn Hreach. induction Hreach as [|w1 w2 w3 Hstep _ IH]; [done|].
  apply IH; [by eapply step_sessions_ok | by eapply step_stock_nonneg].
Qed.

(** ** Row changes and the other tables *)

Lemma Sale_apply_writes (ws : list write) (d : database) (k : Z) :
  Sale (apply_writes d ws) !! k = Sale d !! k \/
  exists r, (Ins_Sale k r ∈ ws \/ Upd_Sale k r ∈ ws) /\
            Sale (apply_writes d ws) !! k = Some r.
Proof.
  induction ws as [|x ws IH] using rev_ind; [by left|].
  rewrite apply_writes_snoc.
  assert (Hkeep : Sale (apply_write (apply_writes d ws) x) !! k
                  = Sale (apply_writes d ws) !! k ->
                  Sale (apply_write (apply_writes d ws) x) !! k = Sale d !! k \/
                  exists r, (Ins_Sale k r ∈ ws ++ [x] \/ Upd_Sale k r ∈ ws ++ [x]) /\
                    Sale (apply_write (apply_writes d ws) x) !! k = Some r).
  { intros ->. destruct IH as [IH|(r' & Hin & IH)]; [by left|].
    right. exists r'. split; [|done].
    destruct Hin; [left|right]; apply elem_of_app; by left. }
  destruct x as [id r|id r|id r|id r|id r|id r]; try (by apply Hkeep).
  - destruct (decide (id = k)) as [->|Hne].
    + right. exists r. simpl. rewrite lookup_insert_eq.
      split; [left; apply elem_of_app; right; by apply list_elem_of_singleton|done].
    + apply Hkeep. simpl. by rewrite lookup_insert_ne.
  - destruct (decide (id = k)) as [->|Hne].
    + right. exists r. simpl. rewrite lookup_insert_eq.
      split; [right; apply elem_of_app; right; by apply list_elem_of_singleton|done].
    + apply Hkeep. simpl. by rewrite lookup_insert_ne.
Qed.

Lemma Sale_Item_apply_writes (ws : list write) (d : database) (k : Z) :
  Sale_Item (apply_writes d ws) !! k = Sale_Item d !! k \/
  exists r, Ins_Sale_Item k r ∈ ws /\
            Sale_Item (apply_writes d ws) !! k = Some r.
Proof.
  induction ws as [|x ws IH] using rev_ind; [by left|].
  rewrite apply_writes_snoc.
  assert (Hkeep : Sale_Item (apply_write (apply_writes d ws) x) !! k
                  = Sale_Item (apply_writes d ws) !! k ->
                  Sale_Item (apply_write (apply_writes d ws) x) !! k
                  = Sale_Item d !! k \/
                  exists r, Ins_Sale_Item k r ∈ ws ++ [x] /\
                    Sale_Item (apply_write (apply_writes d ws) x) !! k = Some r).
  { intros ->. destruct IH as [IH|(r' & Hin & IH)]; [by left|].
    right. exists r'. split; [apply elem_of_app; by left|done]. }
  destruct x as [id r|id r|id r|id r|id r|id r]; try (by apply Hkeep).
  destruct (decide (id = k)) as [->|Hne].
  - right. exists r. simpl. rewrite lookup_insert_eq.
    split; [apply elem_of_app; right; by apply list_elem_of_singleton|done].
  - apply Hkeep. simpl. by rewrite lookup_insert_ne.
Qed.

Lemma Payment_apply_writes (ws : list write) (d : database) (k : Z) :
  Payment (apply_writes d ws) !! k = Payment d !! k \/
  exists r, (Ins_Payment k r ∈ ws \/ Upd_Payment k r ∈ ws) /\
            Payment (apply_writes d ws) !! k = Some r.
Proof.
  induction ws as [|x ws IH] using rev_ind; [by left|].
  rewrite apply_writes_snoc.
  assert (Hkeep : Payment (apply_write (apply_writes d ws) x) !! k
                  = Payment (apply_writes d ws) !! k ->
                  Payment (apply_write (apply_writes d ws) x) !! k
                  = Payment d !! k \/
                  exists r, (Ins_Payment k r ∈ ws ++ [x] \/
                             Upd_Payment k r ∈ ws ++ [x]) /\
                    Payment (apply_write (apply_writes d ws) x) !! k = Some r).
  { intros ->. destruct IH as [IH|(r' & Hin & IH)]; [by left|].
    right. exists r'. split; [|done].
    destruct Hin; [left|right]; apply elem_of_app; by left. }
  destruct x as [id r|id r|id r|id r|id r|id r]; try (by apply Hkeep).
  - destruct (decide (id = k)) as [->|Hne].
    + right. exists r. simpl. rewrite lookup_insert_eq.
      split; [left; apply elem_of_app; right; by apply list_elem_of_singleton|done].
    + apply Hkeep. simpl. by rewrite lookup_insert_ne.
  - destruct (decide (id = k)) as [->|Hne].
    + right. exists r. simpl. rewrite lookup_insert_eq.
      split; [right; apply elem_of_app; right; by apply list_elem_of_singleton|done].
    + apply Hkeep. simpl. by rewrite lookup_insert_ne.
Qed.

(** What an autocommit statement can write. *)
Lemma autocommit_writes_kinds (s : session) (sh : shared) (ws : list write)
    (n' : counters) (x : write) :
  autocommit_writes s sh ws n' -> x ∈ ws ->
  match x with
  | Ins_Sale_Item id _ =>
      id = next_sale_item_id (auto_increment sh) /\
      n' = auto_increment (bump_sale_item sh)
  | Upd_Payment k r' =>
      n' = auto_increment sh /\
      exists r, Payment (db sh) !! k = Some r /\
                Payment_sale_id r' = Payment_sale_id r /\
                Payment_status r' = Payment_status r
  | Upd_Product _ _ => True
  | _ => False
  end.
Proof.
  intros Haw Hin. destruct Haw as [NEW ws Hins|mode sid ws Hpay|p price ws Hpr].
  - apply INSERT_INTO_Sale_Item_writes in Hins as (fired & -> & Htrg).
    apply elem_of_cons in Hin as [->|Hin]; [done|].
    apply trg_sale_item_after_insert_writes in Htrg as [->|(r0 & _ & _ & Hge & ->)].
    + by apply elem_of_nil in Hin.
    + apply list_elem_of_singleton in Hin. by subst x.
  - destruct (UPDATE_Payment_SET_mode_writes _ _ _ _ _ Hpay Hin)
      as (k & r & Hk & _ & ->). split; [done|]. exists r. done.
  - apply UPDATE_Product_SET_price_writes in Hpr as [->|(r0 & Hr0 & ->)].
    + by apply elem_of_nil in Hin.
    + apply list_elem_of_singleton in Hin. by subst x.
Qed.

Lemma autocommit_writes_counters (s : session) (sh : shared) (ws : list write)
    (n' : counters) :
  autocommit_writes s sh ws n' -> counters_le (auto_increment sh) n'.
Proof. intros [| |]; unfold counters_le; simpl; lia. Qed.

(** ** Invariant: keys are fresh *)

Lemma keys_below_mono (d : database) (n n' : counters) :
  counters_le n n' -> keys_below d n -> keys_below d n'.
Proof.
  intros (H1 & H2 & H3) (K1 & K2 & K3).
  repeat split; intros k Hk;
    [specialize (K1 k Hk)|specialize (K2 k Hk)|specialize (K3 k Hk)]; lia.
Qed.

Lemma pending_fresh_mono (d : database) (n n' : counters) (x : write) :
  counters_le n n' -> pending_fresh d n x -> pending_fresh d n' x.
Proof.
  intros (H1 & H2 & H3). destruct x; simpl; try done; intros [? ?]; split;
    try done; lia.
Qed.

Lemma allocates_fresh (d : database) (n n' : counters) (x : write) :
  keys_below d n -> allocates n n' x -> pending_fresh d n' x.
Proof.
  intros (K1 & K2 & K3). destruct x as [id r|id r|id r| | |]; simpl; try done;
    intros [-> Hn']; (split; [lia|]).
  - destruct (Sale d !! _) eqn:E; [|done].
    specialize (K1 _ (mk_is_Some _ _ E)). lia.
  - destruct (Sale_Item d !! _) eqn:E; [|done].
    specialize (K2 _ (mk_is_Some _ _ E)). lia.
  - destruct (Payment d !! _) eqn:E; [|done].
    specialize (K3 _ (mk_is_Some _ _ E)). lia.
Qed.

Lemma allocates_apart (d : database) (n n' : counters) (x y : write) :
  allocates n n' x -> pending_fresh d n y -> ~ clash x y.
Proof.
  destruct x, y; simpl; try tauto; intros [-> _] [Hlt _] Heq; lia.
Qed.

(** What a step of one session does to the freshness of keys: the tables
    stay below the counters, its own pending keys are fresh, and a key
    that was fresh and apart from its pending keys remains so. *)
Lemma effect_fresh (c : conn) (sh : shared) (s : session) (sh' : shared)
    (s' : session) :
  effect c sh s sh' s' ->
  keys_below (db sh) (auto_increment sh) ->
  (forall x, x ∈ pending s -> pending_fresh (db sh) (auto_increment sh) x) ->
  keys_below (db sh') (auto_increment sh') /\
  (forall x, x ∈ pending s' -> pending_fresh (db sh') (auto_increment sh') x) /\
  (forall y, pending_fresh (db sh) (auto_increment sh) y ->
             (forall x, x ∈ pending s -> ~ clash x y) ->
             pending_fresh (db sh') (auto_increment sh') y /\
             forall x, x ∈ pending s' -> ~ clash x y).
Proof.
  intros [f f' v v' _ _ _ _ _ Hdb _ Hn Hlog
         |f v _ Hpc Hshape -> ->
         | -> ->
         |f _ _ _ -> ->
         |cu p q sp _ _ -> ->
         | -> ->
         |ws n' _ Htrx Haw _ -> _ Htrx' _] Hkeys Hpend.
  - rewrite Hdb. split; [by eapply keys_below_mono|]. split.
    + intros x Hx. destruct (Hlog x Hx) as [Hold|Hnew].
      * eapply pending_fresh_mono; [done|]. by apply Hpend.
      * by eapply allocates_fresh.
    + intros y Hy Hapart. split; [by eapply pending_fresh_mono|].
      intros x Hx. destruct (Hlog x Hx) as [Hold|Hnew]; [by apply Hapart|].
      by eapply allocates_apart.
  - destruct f as [l ? ? ? sp ? ? ? ?]. simpl in Hpc. subst l. use_shape Hshape.
    unfold pending in *. rewrite Htrx in Hpend. simpl in *.
    assert (Hs : pending_fresh (db sh) (auto_increment sh)
                   (Ins_Sale (sv_sid v) (mkSale (sv_cu v) (NULLIF sp 0) 0)))
      by (apply Hpend; repeat constructor).
    assert (Hi : pending_fresh (db sh) (auto_increment sh)
                   (Ins_Sale_Item (sv_iid v)
                      (mkSale_Item (sv_sid v) (sv_pid v) (sv_q v) (sv_pr v))))
      by (apply Hpend; repeat constructor).
    assert (Hp : pending_fresh (db sh) (auto_increment sh)
                   (Ins_Payment (sv_payid v) (mkPayment (sv_sid v) "CASH" "SUCCESS")))
      by (apply Hpend; repeat constructor).
    simpl in Hs, Hi, Hp. destruct Hkeys as (K1 & K2 & K3).
    split; [|split].
    + repeat split; intros k; simpl.
      * destruct (decide (sv_sid v = k)) as [<-|Hne]; [intros _; tauto|].
        rewrite !lookup_insert_ne by done. apply K1.
      * destruct (decide (sv_iid v = k)) as [<-|Hne]; [intros _; tauto|].
        rewrite !lookup_insert_ne by done. apply K2.
      * destruct (decide (sv_payid v = k)) as [<-|Hne]; [intros _; tauto|].
        rewrite !lookup_insert_ne by done. apply K3.
    + intros x Hx. by apply elem_of_nil in Hx.
    + intros y Hy Hapart. rewrite Htrx in Hapart. simpl in Hapart.
      split; [|intros x Hx; by apply elem_of_nil in Hx].
      destruct y as [id r|id r|id r| | |]; simpl in *; try done;
        (split; [tauto|]).
      * assert (sv_sid v <> id)
          by (intros <-; eapply (Hapart (Ins_Sale _ _)); [repeat constructor|done]).
        rewrite !lookup_insert_ne by done. tauto.
      * assert (sv_iid v <> id)
          by (intros <-; eapply (Hapart (Ins_Sale_Item _ _));
              [repeat constructor|done]).
        rewrite !lookup_insert_ne by done. tauto.
      * assert (sv_payid v <> id)
          by (intros <-; eapply (Hapart (Ins_Payment _ _));
              [repeat constructor|done]).
        rewrite !lookup_insert_ne by done. tauto.
  - simpl. split; [done|]. split; [intros x Hx; by apply elem_of_nil in Hx|].
    intros y Hy _. split; [done|]. intros x Hx; by apply elem_of_nil in Hx.
  - unfold pending in *. simpl. split; [done|]. split; [done|].
    intros y Hy Hapart. split; done.
  - unfold pending in *. simpl. split; [done|]. split; [done|].
    intros y Hy Hapart. split; done.
  - unfold pending in *. simpl. split; [done|]. split; [done|].
    intros y Hy Hapart. split; done.
  - unfold pending in *. rewrite Htrx'. simpl.
    pose proof (autocommit_writes_counters _ _ _ _ Haw) as Hn.
    destruct Hkeys as (K1 & K2 & K3). split; [|split].
    + repeat split; intros k.
      * destruct (Sale_apply_writes ws (db sh) k) as [->|(r & [Hin|Hin] & _)].
        -- intros Hk. specialize (K1 k Hk). destruct Hn as (Hn & _). lia.
        -- by destruct (autocommit_writes_kinds _ _ _ _ _ Haw Hin).
        -- by destruct (autocommit_writes_kinds _ _ _ _ _ Haw Hin).
      * destruct (Sale_Item_apply_writes ws (db sh) k) as [->|(r & Hin & _)].
        -- intros Hk. specialize (K2 k Hk). destruct Hn as (_ & Hn & _). lia.
        -- destruct (autocommit_writes_kinds _ _ _ _ _ Haw Hin) as [-> ->].
           simpl. lia.
      * destruct (Payment_apply_writes ws (db sh) k) as [->|(r & [Hin|Hin] & _)].
        -- intros Hk. specialize (K3 k Hk). destruct Hn as (_ & _ & Hn). lia.
        -- by destruct (autocommit_writes_kinds _ _ _ _ _ Haw Hin).
        -- destruct (autocommit_writes_kinds _ _ _ _ _ Haw Hin)
             as (-> & r0 & Hr0 & _).
           intros _. apply K3. by rewrite Hr0.
    + intros x Hx. by apply elem_of_nil in Hx.
    + intros y Hy _. split; [|intros x Hx; by apply elem_of_nil in Hx].
      destruct y as [id r|id r|id r| | |]; simpl in *; try done;
        destruct Hy as [Hlt Hnone]; destruct Hn as (Hn1 & Hn2 & Hn3);
        (split; [lia|]).
      * destruct (Sale_apply_writes ws (db sh) id) as [->|(r0 & [Hin|Hin] & _)];
          [done| |]; by destruct (autocommit_writes_kinds _ _ _ _ _ Haw Hin).
      * destruct (Sale_Item_apply_writes ws (db sh) id) as [->|(r0 & Hin & _)];
          [done|].
        destruct (autocommit_writes_kinds _ _ _ _ _ Haw Hin) as [-> _]. lia.
      * destruct (Payment_apply_writes ws (db sh) id) as [->|(r0 & [Hin|Hin] & _)];
          [done| |].
        -- by destruct (autocommit_writes_kinds _ _ _ _ _ Haw Hin).
        -- destruct (autocommit_writes_kinds _ _ _ _ _ Haw Hin)
             as (_ & r1 & Hr1 & _). congruence.
Qed.

Lemma clash_sym (x y : write) : clash x y -> clash y x.
Proof. destruct x, y; simpl; try done; by intros ->. Qed.

Lemma step_fresh (w w' : world) :
  step w w' -> sessions_ok w -> fresh w -> fresh w'.
Proof.
  intros (c & a & o & Hstep) Hok [Hkeys Hpend Hapart].
  destruct (world_step_effect _ _ _ _ _ Hok Hstep) as (s & s' & Hs & Hw' & Heff).
  destruct (effect_fresh _ _ _ _ _ Heff Hkeys (fun x => Hpend c s x Hs))
    as (Hkeys' & Hpend' & Hothers).
  assert (Hother : forall c2 s2 y, c2 <> c -> sessions w !! c2 = Some s2 ->
            y ∈ pending s2 ->
            pending_fresh (db (shared_state w')) (auto_increment (shared_state w')) y /\
            forall x, x ∈ pending s' -> ~ clash x y).
  { intros c2 s2 y Hne Hs2 Hy. apply Hothers; [by eapply Hpend|].
    intros x Hx. by eapply (Hapart c c2). }
  constructor; [done| |].
  - intros c2 s2 x. rewrite Hw'. destruct (decide (c2 = c)) as [->|Hne].
    + rewrite lookup_insert_eq. intros [= <-]. apply Hpend'.
    + rewrite lookup_insert_ne by done. intros Hs2 Hx.
      by destruct (Hother _ _ _ Hne Hs2 Hx).
  - intros c1 c2 s1 s2 x1 x2 Hne. rewrite Hw'.
    destruct (decide (c1 = c)) as [->|Hne1]; destruct (decide (c2 = c)) as [->|Hne2];
      rewrite ?lookup_insert_eq, ?lookup_insert_ne by done; try done.
    + intros [= <-] Hs2 Hx1 Hx2. destruct (Hother _ _ _ Hne2 Hs2 Hx2) as [_ H].
      by apply H.
    + intros Hs1 [= <-] Hx1 Hx2. destruct (Hother _ _ _ Hne1 Hs1 Hx1) as [_ H].
      intros Hc. apply clash_sym in Hc. by eapply H.
    + by apply Hapart.
Qed.

Lemma step_well_formed (w w' : world) :
  step w w' -> well_formed w -> well_formed w'.
Proof.
  intros Hstep [Hok Hfresh].
  split; [by eapply step_sessions_ok | by eapply step_fresh].
Qed.

Lemma reachable_well_formed (w w' : world) :
  reachable w w' -> well_formed w -> well_formed w'.
Proof. induction 1; eauto using step_well_formed. Qed.

(** ** A committed line item is never changed *)

Lemma effect_Sale_Item_kept (c : conn) (sh : shared) (s : session) (sh' : shared)
    (s' : session) (k : Z) (r : Sale_Item_row) :
  effect c sh s sh' s' ->
  keys_below (db sh) (auto_increment sh) ->
  (forall x, x ∈ pending s -> pending_fresh (db sh) (auto_increment sh) x) ->
  Sale_Item (db sh) !! k = Some r -> Sale_Item (db sh') !! k = Some r.
Proof.
  intros [f f' v v' _ _ _ _ _ Hdb _ _ _
         |f v _ Hpc Hshape -> ->
         | -> ->
         |f _ _ _ -> ->
         |cu p q sp _ _ -> ->
         | -> ->
         |ws n' _ _ Haw _ -> _ _ _] Hkeys Hpend Hk; try done.
  - by rewrite Hdb.
  - destruct f as [l ? ? ? sp ? ? ? ?]. simpl in Hpc. subst l. use_shape Hshape.
    unfold pending in Hpend. rewrite Htrx in Hpend. simpl.
    assert (Hi : pending_fresh (db sh) (auto_increment sh)
                   (Ins_Sale_Item (sv_iid v)
                      (mkSale_Item (sv_sid v) (sv_pid v) (sv_q v) (sv_pr v))))
      by (apply Hpend; repeat constructor).
    simpl in Hi. rewrite lookup_insert_ne; [done|]. intros Heq.
    rewrite Heq in Hi. destruct Hi as [_ Hi]. congruence.
  - simpl. destruct (Sale_Item_apply_writes ws (db sh) k) as [->|(r0 & Hin & _)];
      [done|].
    destruct (autocommit_writes_kinds _ _ _ _ _ Haw Hin) as [Heq _].
    destruct Hkeys as (_ & K2 & _). specialize (K2 k ltac:(by rewrite Hk)). lia.
Qed.

Lemma reachable_Sale_Item_kept (w w' : world) (k : Z) (r : Sale_Item_row) :
  reachable w w' -> well_formed w ->
  Sale_Item (db (shared_state w)) !! k = Some r ->
  Sale_Item (db (shared_state w')) !! k = Some r.
Proof.
  induction 1 as [|w1 w2 w3 Hstep _ IH]; [done|]. intros Hwf Hk.
  apply IH; [by eapply step_well_formed|].
  destruct Hwf as [Hok [Hkeys Hpend _]].
  destruct Hstep as (c & a & o & Hstep).
  destruct (world_step_effect _ _ _ _ _ Hok Hstep) as (s & s' & Hs & _ & Heff).
  eapply effect_Sale_Item_kept; eauto.
Qed.

(** ** A call run on its own is a run of the server *)

Lemma run_make_sale_reachable (fuel : nat) (c : conn) (faults : label -> bool)
    (w : world) (s : session) (o : outcome) (sh' : shared) (s' : session) :
  sessions w !! c = Some s ->
  run_make_sale fuel c faults (shared_state w) s = Some (o, sh', s') ->
  reachable w (mkWorld sh' (<[c := s']> (sessions w))).
Proof.
  revert w s. induction fuel as [|fuel IH]; intros w s Hs Hrun; [done|].
  simpl in Hrun. destruct (call s) as [f|] eqn:Hcall; [|done].
  destruct (step_make_sale c (faults (pc f)) f (shared_state w) s)
    as [|sh1 s1|sh1 s1 o1] eqn:Hstep; simpl in Hrun.
  - apply step_make_sale_waits in Hstep.
    unfold EXIT_HANDLER, ROLLBACK in Hrun, Hstep. simplify_eq.
    apply rtc_once. exists c, (Next_statement true), (Some (Raised ER_STORAGE_ENGINE)).
    unfold world_step, perform. rewrite Hs, Hcall, Hstep. done.
  - eapply rtc_l.
    + exists c, (Next_statement (faults (pc f))), None.
      unfold world_step, perform. rewrite Hs, Hcall, Hstep. done.
    + specialize (IH (mkWorld sh1 (<[c := s1]> (sessions w))) s1).
      simpl in IH. rewrite insert_insert_eq in IH. apply IH; [|done].
      by rewrite lookup_insert_eq.
  - simplify_eq. apply rtc_once. exists c, (Next_statement (faults (pc f))), (Some o).
    unfold world_step, perform. rewrite Hs, Hcall, Hstep. done.
Qed.

Lemma make_sale_reachable (c : conn) (cu pid q sp : option Z)
    (faults : label -> bool) (w : world) (s : session)
    (o : outcome) (sh' : shared) (s' : session) :
  sessions w !! c = Some s ->
  make_sale c cu pid q sp faults (shared_state w) s = Some (o, sh', s') ->
  reachable w (mkWorld sh' (<[c := s']> (sessions w))).
Proof.
  intros Hs. unfold make_sale. destruct (call s) eqn:Hcall; [done|]. intros Hrun.
  eapply rtc_l.
  - exists c, (CALL_make_sale cu pid q sp), None.
    unfold world_step, perform. rewrite Hs, Hcall. unfold continue. done.
  - pose proof (run_make_sale_reachable 16 c faults
      (mkWorld (shared_state w)
         (<[c := set_call (Some (enter_make_sale cu pid q sp)) s]> (sessions w)))
      _ o sh' s' (lookup_insert_eq _ _ _) Hrun) as H.
    simpl in H. by rewrite insert_insert_eq in H.
Qed.

(** ** Invariant: one payment for every sale *)

(** Changing the mode of payments, or other tables, keeps the invariant. *)
Lemma payments_ok_same_refs (d d' : database) :
  Sale d' = Sale d ->
  (forall k, Payment_sale_id <$> (Payment d' !! k)
             = Payment_sale_id <$> (Payment d !! k)) ->
  payments_ok d -> payments_ok d'.
Proof.
  intros HS HP [Hfk Hone]. split.
  - intros k r' Hk. rewrite HS. specialize (HP k). rewrite Hk in HP. simpl in HP.
    destruct (Payment d !! k) as [r|] eqn:Hr; [|done]. simpl in HP.
    injection HP as ->. by eapply Hfk.
  - intros sid. rewrite HS. intros Hsid. rewrite <- (Hone sid Hsid).
    rewrite <- !(size_dom (D := gset Z)). f_equal. apply set_eq. intros k.
    rewrite !elem_of_dom. unfold payments_of, is_Some.
    setoid_rewrite map_lookup_filter_Some. simpl. specialize (HP k).
    destruct (Payment d' !! k) as [r'|], (Payment d !! k) as [r|];
      simpl in HP; simplify_eq; split; intros (x & Hx & Hp); simplify_eq.
    + exists r. split; [done|]. congruence.
    + exists r'. split; [done|]. congruence.
Qed.

(** A sale with a new key and its one payment with a new key keep it too. *)
Lemma payments_ok_sale (d : database) (sp : option Z) (v : sale_vars) :
  Sale d !! sv_sid v = None ->
  Payment d !! sv_payid v = None ->
  payments_ok d -> payments_ok (apply_writes d (sale_writes sp v)).
Proof.
  intros Hsid Hpay [Hfk Hone]. simpl.
  set (p := mkPayment (sv_sid v) "CASH" "SUCCESS").
  assert (Hnone : forall k r, Payment d !! k = Some r ->
                              Payment_sale_id r <> sv_sid v).
  { intros k r Hk Heq. specialize (Hfk k r Hk). rewrite Heq, Hsid in Hfk.
    by destruct Hfk. }
  split.
  - intros k r. simpl. destruct (decide (sv_payid v = k)) as [<-|Hne].
    + rewrite lookup_insert_eq. intros [= <-]. simpl. rewrite lookup_insert_eq. eauto.
    + rewrite lookup_insert_ne by done. intros Hk. specialize (Hfk k r Hk).
      rewrite !lookup_insert_is_Some'. tauto.
  - intros sid. unfold payments_of. simpl.
    destruct (decide (sv_sid v = sid)) as [<-|Hne].
    + intros _. rewrite map_filter_insert_True by done.
      assert (Hempty : filter (fun kv : Z * Payment_row =>
                                 Payment_sale_id kv.2 = sv_sid v) (Payment d) = ∅).
      { apply map_empty. intros k. apply map_lookup_filter_None. right.
        intros r Hk. simpl. by eapply Hnone. }
      rewrite Hempty, insert_empty. apply map_size_singleton.
    + rewrite !lookup_insert_ne by done. intros Hs.
      rewrite map_filter_insert_not' ; [by apply Hone| simpl; congruence |].
      intros y Hy. congruence.
Qed.

Lemma effect_payments_ok (c : conn) (sh : shared) (s : session) (sh' : shared)
    (s' : session) :
  effect c sh s sh' s' ->
  (forall x, x ∈ pending s -> pending_fresh (db sh) (auto_increment sh) x) ->
  payments_ok (db sh) -> payments_ok (db sh').
Proof.
  intros [f f' v v' _ _ _ _ _ Hdb _ _ _
         |f v _ Hpc Hshape -> ->
         | -> ->
         |f _ _ _ -> ->
         |cu p q sp _ _ -> ->
         | -> ->
         |ws n' _ _ Haw _ -> _ _ _] Hpend Hpay; try done.
  - by rewrite Hdb.
  - destruct f as [l ? ? ? sp ? ? ? ?]. simpl in Hpc. subst l.
    destruct Hshape as [Htrx _]. unfold expected_log in Htrx. simpl in Htrx.
    unfold pending in Hpend. rewrite Htrx in Hpend.
    assert (Hs : pending_fresh (db sh) (auto_increment sh)
                   (Ins_Sale (sv_sid v) (mkSale (sv_cu v) (NULLIF sp 0) 0)))
      by (apply Hpend; repeat constructor).
    assert (Hp : pending_fresh (db sh) (auto_increment sh)
                   (Ins_Payment (sv_payid v) (mkPayment (sv_sid v) "CASH" "SUCCESS")))
      by (apply Hpend; repeat constructor).
    simpl in Hs, Hp. apply payments_ok_sale; tauto.
  - eapply payments_ok_same_refs; [| |exact Hpay].
    + apply map_eq. intros k. simpl.
      destruct (Sale_apply_writes ws (db sh) k) as [->|(r & [Hin|Hin] & _)];
        [done| |]; by destruct (autocommit_writes_kinds _ _ _ _ _ Haw Hin).
    + intros k. simpl.
      destruct (Payment_apply_writes ws (db sh) k) as [->|(r & [Hin|Hin] & Hk)];
        [done| |].
      * by destruct (autocommit_writes_kinds _ _ _ _ _ Haw Hin).
      * destruct (autocommit_writes_kinds _ _ _ _ _ Haw Hin)
          as (_ & r0 & Hr0 & Hsid & _).
        rewrite Hk, Hr0. simpl. by rewrite Hsid.
Qed.

Lemma reachable_payments_ok (w w' : world) :
  reachable w w' -> well_formed w ->
  payments_ok (db (shared_state w)) -> payments_ok (db (shared_state w')).
Proof.
  induction 1 as [|w1 w2 w3 Hstep _ IH]; [done|]. intros Hwf Hpay.
  apply IH; [by eapply step_well_formed|].
  destruct Hwf as [Hok [Hkeys Hpend _]].
  destruct Hstep as (c & a & o & Hstep).
  destruct (world_step_effect _ _ _ _ _ Hok Hstep) as (s & s' & Hs & _ & Heff).
  eapply effect_payments_ok; eauto.
Qed.

(** * Properties of the specification *)

(** C2.  Atomicity of a failed sale.  Whatever makes a [make_sale] call
    raise (a rejected quantity, an unknown item, too little stock, a
    constraint, or a failure of the storage engine at any statement, as
    [faults] chooses), the committed tables after the call are the tables
    before it: no [Sale], [Sale_Item] or [Payment] row is added and no
    stock is changed.  The session is left with no lock and no open
    transaction. *)
Theorem failed_sale_changes_nothing (c : conn) (cu pid q sp : option Z)
    (faults : label -> bool) (sh : shared) (s : session)
    (e : sql_error) (sh' : shared) (s' : session) :
  trx s = None ->
  make_sale c cu pid q sp faults sh s = Some (Raised e, sh', s') ->
  db sh' = db sh /\ holds_no_lock c sh' /\ trx s' = None.
Proof.
  intros Htrx Hrun.
  destruct (make_sale_raised _ _ _ _ _ _ _ _ _ _ _ Htrx Hrun) as (? & ? & ? & _).
  done.
Qed.

(** C3.  Conservation.  After a [make_sale] call that returns its result
    row, the stock of the sold item is its stock before the call minus the
    quantity, once, and every other [Product] row is as before. *)
Theorem successful_sale_decrements_stock_once (c : conn) (cu pid q sp : option Z)
    (faults : label -> bool) (sh : shared) (s : session)
    (a b : option Z) (sh' : shared) (s' : session) :
  trx s = None ->
  make_sale c cu pid q sp faults sh s = Some (Result_row a b, sh', s') ->
  exists item qty r,
    pid = Some item /\ q = Some qty /\
    Product (db sh) !! item = Some r /\
    Product (db sh') !! item
      = Some (mkProduct (Product_price r) (Product_stock r - qty)) /\
    forall other, other <> item ->
      Product (db sh') !! other = Product (db sh) !! other.
Proof.
  intros Htrx Hrun.
  destruct (make_sale_result _ _ _ _ _ _ _ _ _ _ _ _ Htrx Hrun)
    as (v & (_ & Hpid & Hq & _ & Hrow & -> & _) & _).
  simpl in Hpid, Hq. exists (sv_pid v), (sv_q v), (mkProduct (sv_pr v) (sv_st v)).
  repeat split; try done; simpl.
  - by rewrite lookup_insert_eq.
  - intros other Hne. by rewrite lookup_insert_ne.
Qed.

(** C5.  The total of a sale.  After a [make_sale] call that returns its
    result row, the new [Sale] row has [total_amount = price * quantity],
    the price being the item's price in the tables at the call, and the
    result row carries the key of that row and the same total. *)
Theorem sale_total_is_price_times_quantity (c : conn) (cu pid q sp : option Z)
    (faults : label -> bool) (sh : shared) (s : session)
    (a b : option Z) (sh' : shared) (s' : session) :
  trx s = None ->
  make_sale c cu pid q sp faults sh s = Some (Result_row a b, sh', s') ->
  exists sale_id item qty r row,
    pid = Some item /\ q = Some qty /\
    Product (db sh) !! item = Some r /\
    a = Some sale_id /\ b = Some (Product_price r * qty) /\
    Sale (db sh') !! sale_id = Some row /\
    Sale_total_amount row = Product_price r * qty.
Proof.
  intros Htrx Hrun.
  destruct (make_sale_result _ _ _ _ _ _ _ _ _ _ _ _ Htrx Hrun)
    as (v & (_ & Hpid & Hq & _ & Hrow & -> & Ho) & _).
  simpl in Hpid, Hq. injection Ho as -> ->.
  exists (sv_sid v), (sv_pid v), (sv_q v), (mkProduct (sv_pr v) (sv_st v)).
  eexists. repeat split; try done; simpl.
  - by rewrite lookup_insert_eq.
  - done.
Qed.

(** C7.  The price of a line item is a snapshot.  A [make_sale] call that
    returns its result row has added a [Sale_Item] row whose price is the
    item's price in the tables at the call; and in every state the server
    reaches afterwards, whatever the sessions do (further sales, price
    changes of the item, other writes), that row is the same row. *)
Theorem unit_price_is_a_snapshot (c : conn) (cu pid q sp : option Z)
    (faults : label -> bool) (w : world) (s : session)
    (a b : option Z) (sh' : shared) (s' : session) :
  well_formed w ->
  sessions w !! c = Some s ->
  make_sale c cu pid q sp faults (shared_state w) s
    = Some (Result_row a b, sh', s') ->
  exists line sale_id item qty r,
    pid = Some item /\ q = Some qty /\ a = Some sale_id /\
    Product (db (shared_state w)) !! item = Some r /\
    let row := mkSale_Item sale_id item qty (Product_price r) in
    Sale_Item (db sh') !! line = Some row /\
    forall w', reachable (mkWorld sh' (<[c := s']> (sessions w))) w' ->
               Sale_Item (db (shared_state w')) !! line = Some row.
Proof.
  intros Hwf Hs Hrun.
  assert (Htrx : trx s = None).
  { destruct Hwf as [Hok _]. specialize (Hok _ _ Hs). unfold session_ok in Hok.
    unfold make_sale in Hrun. by destruct (call s). }
  destruct (make_sale_result _ _ _ _ _ _ _ _ _ _ _ _ Htrx Hrun)
    as (v & (_ & Hpid & Hq & _ & Hrow & Hdb & Ho) & _).
  simpl in Hpid, Hq. injection Ho as -> ->.
  exists (sv_iid v), (sv_sid v), (sv_pid v), (sv_q v), (mkProduct (sv_pr v) (sv_st v)).
  do 4 (split; [done|]).
  assert (Hline : Sale_Item (db sh') !! sv_iid v
                  = Some (mkSale_Item (sv_sid v) (sv_pid v) (sv_q v) (sv_pr v))).
  { rewrite Hdb. simpl. by rewrite lookup_insert_eq. }
  simpl. split; [done|]. intros w' Hreach.
  eapply reachable_Sale_Item_kept; [exact Hreach| |exact Hline].
  eapply reachable_well_formed; [|exact Hwf]. by eapply make_sale_reachable.
Qed.


Lemma lock_free_for_release (c : conn) (locks : gmap Z conn) (pid : Z) :
  lock_free_for c locks pid = true ->
  lock_free_for c (release c locks) pid = true.
Proof.
  unfold lock_free_for. intros H.
  destruct (release c locks !! pid) as [c'|] eqn:E; [|done].
  apply release_lookup in E as [E Hne]. by rewrite E in H.
Qed.

Lemma run_make_sale_S (fuel : nat) (c : conn) (faults : label -> bool)
    (sh : shared) (s : session) (f : frame) :
  call s = Some f ->
  run_make_sale (S fuel) c faults sh s
  = match or_timeout c sh s (step_make_sale c (faults (pc f)) f sh s) with
    | Waits => None
    | Goes sh' s' => run_make_sale fuel c faults sh' s'
    | Ends sh' s' o => Some (o, sh', s')
    end.
Proof. intros H. simpl. by rewrite H. Qed.

Local Arguments run_make_sale : simpl never.



Lemma run_actions_reachable (l : list (conn * action)) (w w' : world) :
  run_actions l w = Some w' -> reachable w w'.
Proof.
  revert w. induction l as [|[c a] l IH]; intros w; simpl.
  - intros [= ->]. apply rtc_refl.
  - destruct (world_step c a w) as [[w1 o]|] eqn:Hstep; [|done].
    intros H. eapply rtc_l; [|by apply IH]. by exists c, a, o.
Qed.

Lemma write_rows_from_make_sale (c : conn) (ws : list write) (sh sh1 : shared)
    (s s1 : session) :
  write_rows c ws sh s = Some (sh1, s1) ->
  from_make_sale s1 = from_make_sale s /\ call s1 = call s.
Proof.
  unfold write_rows. repeat case_match; try done; by intros [= <- <-].
Qed.

Lemma INSERT_INTO_Sale_Item_flag_set (id : Z) (NEW : Sale_Item_row) (d : database) :
  row_accepted NEW d = true ->
  INSERT_INTO_Sale_Item (Some 1) id NEW d = Ok [Ins_Sale_Item id NEW].
Proof.
  unfold row_accepted. intros Hacc.
  apply andb_true_iff in Hacc as [Hacc H6]. apply andb_true_iff in Hacc as [Hacc H5].
  apply andb_true_iff in Hacc as [Hacc H4]. apply andb_true_iff in Hacc as [Hacc H3].
  apply andb_true_iff in Hacc as [H1 H2].
  unfold INSERT_INTO_Sale_Item, CHECK, sql_bind, trg_sale_item_after_insert.
  rewrite H1, H2, H3, H4, H5, H6. reflexivity.
Qed.

(** C10.  The flag outlives an aborted call.
    (a) If the statement between line 163 and line 169, the insert into
    [Sale_Item], raises for any reason, the handler rolls the transaction
    back (the committed tables are as before, the session has no open
    transaction) and the call ends with [@from_make_sale] still 1 on that
    connection.
    (b) With [@from_make_sale = 1], an insert into [Sale_Item] sent on that
    connection past the procedure goes through whenever the row's own
    constraints and foreign keys hold, whatever the stock: the row is added,
    no [Product] row changes, nothing is checked against the stock, and the
    flag is still 1 afterwards.
    (c) The flag of an idle connection is changed by no step of another
    connection and by no statement on its own connection other than a new
    [CALL make_sale]. *)
Theorem flag_outlives_aborted_call :
  (forall w c s f fault w' e,
     sessions_ok w -> sessions w !! c = Some s -> call s = Some f ->
     pc f = L166_INSERT_Sale_Item ->
     world_step c (Next_statement fault) w = Some (w', Some (Raised e)) ->
     db (shared_state w') = db (shared_state w) /\
     exists s', sessions w' !! c = Some s' /\
                from_make_sale s' = Some 1 /\ call s' = None /\ trx s' = None) /\
  (forall c NEW sh s,
     call s = None -> trx s = None -> from_make_sale s = Some 1 ->
     row_accepted NEW (db sh) = true ->
     exists sh' s',
       perform c (INSERT_Sale_Item NEW false) sh s = Ends sh' s' Query_OK /\
       Product (db sh') = Product (db sh) /\
       Sale_Item (db sh')
         = <[next_sale_item_id (auto_increment sh) := NEW]> (Sale_Item (db sh)) /\
       from_make_sale s' = Some 1) /\
  (forall w c' a w' o c s,
     world_step c' a w = Some (w', o) ->
     sessions w !! c = Some s -> call s = None ->
     (c' = c -> forall cu p q sp, a <> CALL_make_sale cu p q sp) ->
     exists s', sessions w' !! c = Some s' /\
                from_make_sale s' = from_make_sale s).
Proof.
  split; [|split].
  - intros w c s f fault w' e Hok Hs Hcall Hpc Hstep.
    unfold world_step in Hstep. rewrite Hs in Hstep. unfold perform in Hstep.
    rewrite Hcall in Hstep.
    destruct (step_make_sale c fault f (shared_state w) s)
      as [|sh1 s1|sh1 s1 o1] eqn:Hst; simplify_eq.
    apply step_make_sale_ends in Hst as [(e' & _ & _ & -> & ->)|(Hl & _)];
      [|congruence].
    simpl. split; [done|]. eexists. rewrite lookup_insert_eq. split; [done|].
    simpl. split; [|done].
    specialize (Hok _ _ Hs). unfold session_ok in Hok. rewrite Hcall in Hok.
    destruct Hok as [v Hshape]. destruct f as [l ? ? ? ? ? ? ? ?].
    simpl in Hpc. subst l. use_shape Hshape. done.
  - intros c NEW sh s Hcall Htrx Hflag Hacc.
    unfold perform, autocommit_statement, view, write_rows.
    rewrite Hcall, Htrx, Hflag. simpl.
    rewrite (INSERT_INTO_Sale_Item_flag_set _ _ _ Hacc). simpl.
    eexists _, _. split; [reflexivity|]. simpl. done.
  - intros w c' a w' o c s Hstep Hs Hcall Hnot.
    unfold world_step in Hstep.
    destruct (decide (c' = c)) as [->|Hne].
    + rewrite Hs in Hstep. specialize (Hnot eq_refl).
      assert (Hkeep : forall sh' s',
                (exists o', perform c a (shared_state w) s = Ends sh' s' o') \/
                perform c a (shared_state w) s = Goes sh' s' ->
                from_make_sale s' = from_make_sale s).
      { intros sh' s' Hperf. unfold perform in Hperf. rewrite Hcall in Hperf.
        destruct a as [cu p q sp|fault|NEW fault|mode sid fault|p price fault];
          try (by destruct Hperf as [[? ?]|?]);
          try (by (exfalso; eapply Hnot));
          unfold autocommit_statement in Hperf;
          (destruct Hperf as [[o' Hperf]|Hperf]; [|by repeat case_match]);
          repeat case_match; simplify_eq; try done;
          match goal with H : write_rows _ _ _ _ = Some _ |- _ =>
            apply write_rows_from_make_sale in H as [H _] end; done. }
      destruct (perform c a (shared_state w) s) as [|sh1 s1|sh1 s1 o1] eqn:Hperf;
        simplify_eq; simpl; rewrite lookup_insert_eq; eexists; (split; [done|]);
        apply (Hkeep sh1); eauto.
    + exists s. split; [|done].
      destruct (sessions w !! c') as [s0|]; [|done].
      destruct (perform c' a (shared_state w) s0); simplify_eq; simpl;
        by rewrite lookup_insert_ne.
Qed.

(** ** When the trigger acts *)

Lemma trg_sale_item_after_insert_silent (flag : option Z) (NEW : Sale_Item_row)
    (d : database) :
  IFNULL flag 0 <> 0 -> trg_sale_item_after_insert flag NEW d = Ok [].
Proof.
  intros H. unfold trg_sale_item_after_insert.
  apply Z.eqb_neq in H. by rewrite H.
Qed.

Lemma trg_sale_item_after_insert_decrements (flag : option Z)
    (NEW : Sale_Item_row) (d : database) (r : Product_row) :
  IFNULL flag 0 = 0 ->
  Product d !! Sale_Item_product_id NEW = Some r ->
  0 <= Product_price r ->
  0 <= Product_stock r - Sale_Item_quantity NEW <= INT_MAX ->
  trg_sale_item_after_insert flag NEW d
  = Ok [Upd_Product (Sale_Item_product_id NEW)
          (mkProduct (Product_price r)
                     (Product_stock r - Sale_Item_quantity NEW))].
Proof.
  intros Hflag Hr Hprice Hstock.
  unfold trg_sale_item_after_insert, UPDATE_Product_SET_stock, CHECK_Product,
    CHECK, sql_bind, fits_INT, INT_MIN. rewrite Hflag, Hr. simpl.
  replace (_ <=? _) with true by (symmetry; apply Z.leb_le; lia).
  replace (_ <=? INT_MAX) with true by (symmetry; apply Z.leb_le; lia).
  replace (0 <=? Product_price r) with true by (symmetry; apply Z.leb_le; lia).
  replace (0 <=? _) with true by (symmetry; apply Z.leb_le; lia).
  rewrite !orb_true_r. simpl. rewrite lookup_insert_eq. simpl.
  replace (_ <? 0) with false by (symmetry; apply Z.ltb_ge; lia). done.
Qed.

Lemma trg_sale_item_after_insert_aborts (flag : option Z)
    (NEW : Sale_Item_row) (d : database) (r : Product_row) :
  IFNULL flag 0 = 0 ->
  Product d !! Sale_Item_product_id NEW = Some r ->
  Product_stock r - Sale_Item_quantity NEW < 0 ->
  exists e, trg_sale_item_after_insert flag NEW d = Err e.
Proof.
  intros Hflag Hr Hneg.
  unfold trg_sale_item_after_insert, UPDATE_Product_SET_stock, sql_bind.
  rewrite Hflag, Hr. simpl.
  destruct (fits_INT _); [|eauto].
  destruct (CHECK_Product _); [|eauto]. simpl. rewrite lookup_insert_eq. simpl.
  replace (_ <? 0) with true by (symmetry; apply Z.ltb_lt; lia). eauto.
Qed.

(** ** Checks that compute *)

Lemma quiescent_b_ok (w : world) : quiescent_b w = true -> quiescent w.
Proof.
  unfold quiescent_b, quiescent. intros H. apply andb_true_iff in H as [H1 H2].
  apply bool_decide_eq_true in H1, H2. split; [done|].
  intros c s Hs. specialize (H2 c s Hs). unfold idle in H2.
  by destruct (call s), (trx s).
Qed.

Lemma stock_nonneg_b_ok (d : database) : stock_nonneg_b d = true -> stock_nonneg d.
Proof. unfold stock_nonneg_b. intros H. by apply bool_decide_eq_true in H. Qed.

Lemma quiescent_well_formed (w : world) :
  quiescent_b w = true -> no_sales_b (db (shared_state w)) = true ->
  well_formed w.
Proof.
  intros Hq Hn. apply quiescent_b_ok in Hq.
  split; [by apply quiescent_sessions_ok|].
  unfold no_sales_b in Hn. apply andb_true_iff in Hn as [Hn H3].
  apply andb_true_iff in Hn as [H1 H2].
  apply bool_decide_eq_true in H1, H2, H3. destruct Hq as [_ Hq].
  constructor.
  - unfold keys_below. rewrite H1, H2, H3.
    repeat split; intros k [x Hk]; by rewrite lookup_empty in Hk.
  - intros c s x Hs Hx. destruct (Hq _ _ Hs) as [_ Ht]. unfold pending in Hx.
    rewrite Ht in Hx. by apply elem_of_nil in Hx.
  - intros c1 c2 s1 s2 x1 x2 _ Hs1 _ Hx1. destruct (Hq _ _ Hs1) as [_ Ht].
    unfold pending in Hx1. rewrite Ht in Hx1. by apply elem_of_nil in Hx1.
Qed.

Lemma no_sales_payments_ok (d : database) : no_sales_b d = true -> payments_ok d.
Proof.
  unfold no_sales_b. intros Hn. apply andb_true_iff in Hn as [Hn H3].
  apply andb_true_iff in Hn as [H1 H2].
  apply bool_decide_eq_true in H1, H2, H3. split.
  - intros k r Hk. by rewrite H3, lookup_empty in Hk.
  - intros sid [x Hs]. by rewrite H1, lookup_empty in Hs.
Qed.

(** * Further properties of the code *)

(** ** Line items inserted past the procedure *)

Lemma row_accepted_inv (NEW : Sale_Item_row) (d : database) :
  row_accepted NEW d = true ->
  fits_INT (Sale_Item_quantity NEW) = true /\
  fits_DECIMAL_10_2 (Sale_Item_price NEW) = true /\
  CHECK "quantity > 0" (0 <? Sale_Item_quantity NEW) = Ok tt /\
  CHECK "price >= 0" (0 <=? Sale_Item_price NEW) = Ok tt /\
  bool_decide (is_Some (Sale d !! Sale_Item_sale_id NEW)) = true /\
  bool_decide (is_Some (Product d !! Sale_Item_product_id NEW)) = true.
Proof.
  unfold row_accepted, CHECK. intros H.
  apply andb_true_iff in H as [H H4]. apply andb_true_iff in H as [H H3].
  apply andb_true_iff in H as [H H2]. apply andb_true_iff in H as [H H1].
  apply andb_true_iff in H as [R1 R2]. rewrite H1, H2. done.
Qed.

(** X1.  The trigger at work.  On an idle connection whose [@from_make_sale]
    is NULL or 0, an [INSERT INTO Sale_Item] whose quantity and price are
    within the ranges of their columns, that passes the row constraints and
    foreign keys and leaves a stock that is not negative goes through: the
    row is added
    under the next key, the stock of its item goes down by its quantity, and
    no other row of any table changes. *)
Theorem direct_insert_decrements_stock (c : conn) (NEW : Sale_Item_row)
    (sh : shared) (s : session) (r : Product_row) :
  call s = None -> trx s = None ->
  IFNULL (from_make_sale s) 0 = 0 ->
  row_accepted NEW (db sh) = true ->
  Product (db sh) !! Sale_Item_product_id NEW = Some r ->
  lock_free_for c (row_locks sh) (Sale_Item_product_id NEW) = true ->
  0 <= Product_price r ->
  0 <= Product_stock r - Sale_Item_quantity NEW <= INT_MAX ->
  exists sh' s',
    perform c (INSERT_Sale_Item NEW false) sh s = Ends sh' s' Query_OK /\
    Sale_Item (db sh')
      = <[next_sale_item_id (auto_increment sh) := NEW]> (Sale_Item (db sh)) /\
    Product (db sh')
      = <[Sale_Item_product_id NEW :=
            mkProduct (Product_price r)
                      (Product_stock r - Sale_Item_quantity NEW)]>
          (Product (db sh)) /\
    Sale (db sh') = Sale (db sh) /\ Payment (db sh') = Payment (db sh) /\
    Customer (db sh') = Customer (db sh) /\
    Salesperson (db sh') = Salesperson (db sh).
Proof.
  intros Hcall Htrx Hflag Hacc Hr Hfree Hprice Hstock.
  apply row_accepted_inv in Hacc as (R1 & R2 & H1 & H2 & H3 & H4).
  unfold perform, autocommit_statement, view, write_rows.
  rewrite Hcall, Htrx. simpl.
  unfold INSERT_INTO_Sale_Item, sql_bind. rewrite R1, R2, H1, H2, H3, H4.
  rewrite (trg_sale_item_after_insert_decrements _ _ _ r Hflag); [|done..].
  simpl. rewrite Hfree. simpl. eexists _, _. split; [reflexivity|]. done.
Qed.

(** X2.  The trigger refusing.  The same insert, of a row within the ranges
    of its columns, when it would leave a negative stock, is refused and no
    row of any table changes.  Which error
    the client sees depends on the server: where CHECK constraints are
    enforced the trigger's UPDATE already violates [CHECK (stock >= 0)];
    where they are not, the trigger's own SIGNAL 'Stock cannot be negative'
    is raised. *)
Theorem direct_insert_refused_when_stock_short (c : conn) (NEW : Sale_Item_row)
    (sh : shared) (s : session) (r : Product_row) :
  call s = None -> trx s = None ->
  IFNULL (from_make_sale s) 0 = 0 ->
  row_accepted NEW (db sh) = true ->
  Product (db sh) !! Sale_Item_product_id NEW = Some r ->
  lock_free_for c (row_locks sh) (Sale_Item_product_id NEW) = true ->
  0 <= Product_price r ->
  INT_MIN <= Product_stock r - Sale_Item_quantity NEW < 0 ->
  exists sh' s',
    perform c (INSERT_Sale_Item NEW false) sh s
    = Ends sh' s'
        (Raised (if check_constraints
                 then ER_CHECK_CONSTRAINT_VIOLATED "stock >= 0"
                 else SIGNAL_45000 "Stock cannot be negative")) /\
    db sh' = db sh.
Proof.
  intros Hcall Htrx Hflag Hacc Hr Hfree Hprice Hstock.
  apply row_accepted_inv in Hacc as (R1 & R2 & H1 & H2 & H3 & H4).
  unfold perform, autocommit_statement, view, write_rows.
  rewrite Hcall, Htrx. simpl.
  unfold INSERT_INTO_Sale_Item, sql_bind. rewrite R1, R2, H1, H2, H3, H4.
  unfold trg_sale_item_after_insert, UPDATE_Product_SET_stock, CHECK_Product,
    CHECK, sql_bind, fits_INT. rewrite Hflag. simpl. rewrite Hr. simpl.
  replace (INT_MIN <=? _) with true by (symmetry; apply Z.leb_le; lia).
  replace (_ <=? INT_MAX) with true
    by (symmetry; apply Z.leb_le; unfold INT_MAX; lia).
  replace (0 <=? Product_price r) with true by (symmetry; apply Z.leb_le; lia).
  replace (0 <=? _) with false by (symmetry; apply Z.leb_gt; lia).
  rewrite !orb_true_r, !orb_false_r. simpl.
  destruct check_constraints; simpl.
  - eexists _, _. split; [reflexivity|done].
  - rewrite lookup_insert_eq. simpl.
    replace (_ <? 0) with true by (symmetry; apply Z.ltb_lt; lia).
    eexists _, _. split; [reflexivity|done].
Qed.

(** X3.  Where CHECK constraints are enforced, the trigger never raises its
    own 'Stock cannot be negative': a stock that would go negative is
    stopped by [CHECK (stock >= 0)] in the trigger's UPDATE, before the
    trigger's test. *)
Theorem stock_signal_unreachable_under_CHECK (flag : option Z)
    (NEW : Sale_Item_row) (d : database) :
  check_constraints = true ->
  trg_sale_item_after_insert flag NEW d
  <> Err (SIGNAL_45000 "Stock cannot be negative").
Proof.
  intros Hcheck. unfold trg_sale_item_after_insert, sql_bind.
  destruct (IFNULL flag 0 =? 0); [|done].
  destruct (UPDATE_Product_SET_stock _ _ d) as [ws|e] eqn:Hupd.
  - unfold UPDATE_Product_SET_stock, CHECK_Product, CHECK, sql_bind in Hupd.
    rewrite Hcheck in Hupd. simpl in Hupd.
    destruct (Product d !! Sale_Item_product_id NEW) as [r|] eqn:Hr.
    + destruct (fits_INT _); [|done].
      destruct (0 <=? Product_price r); [|done].
      destruct (0 <=? Product_stock r - Sale_Item_quantity NEW) eqn:Hge; [|done].
      simplify_eq. simpl. rewrite lookup_insert_eq. simpl.
      apply Z.leb_le in Hge.
      replace (_ <? 0) with false by (symmetry; apply Z.ltb_ge; lia). done.
    + simplify_eq. simpl. by rewrite Hr.
  - unfold UPDATE_Product_SET_stock, CHECK_Product, CHECK, sql_bind in Hupd.
    repeat case_match; simplify_eq; done.
Qed.

(** ** Sales that go through *)

(** Computing the record updates of a step on a known state. *)
Ltac norm :=
  cbv beta iota delta
    [set_call set_trx set_from_make_sale set_last_insert_id set_db
     set_auto_increment set_row_locks goto enter_make_sale set_v_price_v_stock
     set_v_sale_id set_v_total continue bump_sale bump_sale_item bump_payment
     call trx from_make_sale last_insert_id db auto_increment row_locks
     pc p_customer_id p_product_id p_quantity p_salesperson_id v_price v_stock
     v_sale_id v_total next_sale_id next_sale_item_id next_payment_id
     START_TRANSACTION COMMIT ROLLBACK EXIT_HANDLER or_timeout view
     storage_statement write_rows no_fault].

Ltac forward_norm :=
  erewrite run_make_sale_S; [|reflexivity];
  unfold step_make_sale at 1; norm.

Lemma INSERT_INTO_Sale_ok (id cu : Z) (sp : option Z) (total : Z) (d : database) :
  cu ∈ Customer d ->
  (forall z, sp = Some z -> z ∈ Salesperson d) ->
  INSERT_INTO_Sale id (Some cu) sp total d = Ok [Ins_Sale id (mkSale cu sp total)].
Proof.
  intros Hcu Hsp. unfold INSERT_INTO_Sale. simpl.
  rewrite (bool_decide_eq_true_2 _ Hcu).
  destruct sp as [z|]; [|done]. by rewrite (bool_decide_eq_true_2 _ (Hsp z eq_refl)).
Qed.

Lemma UPDATE_Product_SET_stock_ok (pid qty : Z) (d : database) (r : Product_row) :
  Product d !! pid = Some r ->
  0 <= Product_price r ->
  0 <= Product_stock r - qty <= INT_MAX ->
  UPDATE_Product_SET_stock pid qty d
  = Ok [Upd_Product pid (mkProduct (Product_price r) (Product_stock r - qty))].
Proof.
  intros Hr Hprice Hstock.
  unfold UPDATE_Product_SET_stock, CHECK_Product, CHECK, sql_bind, fits_INT, INT_MIN.
  rewrite Hr. simpl.
  replace (_ <=? _) with true by (symmetry; apply Z.leb_le; lia).
  replace (_ <=? INT_MAX) with true by (symmetry; apply Z.leb_le; lia).
  replace (0 <=? Product_price r) with true by (symmetry; apply Z.leb_le; lia).
  replace (0 <=? _) with true by (symmetry; apply Z.leb_le; lia).
  by rewrite !orb_true_r.
Qed.

(** The line of a sale whose quantity and price are in range. *)
Lemma row_accepted_line (sid pid q pr : Z) (d : database) (r : Product_row) :
  is_Some (Sale d !! sid) -> Product d !! pid = Some r ->
  0 < q <= INT_MAX -> 0 <= pr <= DECIMAL_10_2_MAX ->
  row_accepted (mkSale_Item sid pid q pr) d = true.
Proof.
  intros Hsid Hpid Hq Hpr. unfold row_accepted, fits_INT, fits_DECIMAL_10_2.
  simpl. rewrite Hpid, (bool_decide_eq_true_2 _ Hsid).
  rewrite (bool_decide_eq_true_2 (is_Some (Some r))) by eauto.
  replace (INT_MIN <=? q) with true
    by (symmetry; apply Z.leb_le; unfold INT_MIN; lia).
  replace (q <=? INT_MAX) with true by (symmetry; apply Z.leb_le; lia).
  replace (- DECIMAL_10_2_MAX <=? pr) with true
    by (symmetry; apply Z.leb_le; unfold DECIMAL_10_2_MAX; lia).
  replace (pr <=? DECIMAL_10_2_MAX) with true by (symmetry; apply Z.leb_le; lia).
  replace (0 <? q) with true by (symmetry; apply Z.ltb_lt; lia).
  replace (0 <=? pr) with true by (symmetry; apply Z.leb_le; lia).
  by rewrite !orb_true_r.
Qed.

Lemma INSERT_INTO_Sale_Item_price_out_of_range (flag : option Z) (id : Z)
    (NEW : Sale_Item_row) (d : database) :
  DECIMAL_10_2_MAX < Sale_Item_price NEW ->
  INSERT_INTO_Sale_Item flag id NEW d = Err ER_WARN_DATA_OUT_OF_RANGE.
Proof.
  intros Hpr. unfold INSERT_INTO_Sale_Item, fits_DECIMAL_10_2.
  replace (Sale_Item_price NEW <=? DECIMAL_10_2_MAX) with false
    by (symmetry; apply Z.leb_gt; lia).
  rewrite andb_false_r. by destruct (fits_INT _).
Qed.

(** The run of a sale that meets every condition of the procedure and of
    the tables. *)
Lemma valid_sale_run (c : conn) (cu item qty : Z) (sp : option Z)
    (r : Product_row) (sh : shared) (s : session) :
  call s = None -> trx s = None ->
  cu ∈ Customer (db sh) ->
  (forall z, NULLIF sp 0 = Some z -> z ∈ Salesperson (db sh)) ->
  Product (db sh) !! item = Some r ->
  lock_free_for c (row_locks sh) item = true ->
  0 < qty <= Product_stock r ->
  Product_stock r <= INT_MAX ->
  0 <= Product_price r ->
  Product_price r * qty <= DECIMAL_10_2_MAX ->
  exists sh' s',
    make_sale c (Some cu) (Some item) (Some qty) sp no_fault sh s
    = Some (Result_row (Some (next_sale_id (auto_increment sh)))
                       (Some (Product_price r * qty)), sh', s').
Proof.
  destruct s as [flag lid t cl], sh as [d [ns ni np] locks]. simpl.
  intros Hcall Htrx Hcu Hsp Hrow Hfree Hqty Hmax Hprice Htotal. subst cl t.
  assert (Hq0 : (qty <=? 0) = false) by (apply Z.leb_gt; lia).
  pose proof (lock_free_for_release _ _ _ Hfree) as Hfree'.
  unfold make_sale. norm.
  forward_norm. rewrite Hq0.
  forward_norm.
  forward_norm. simpl. rewrite Hrow, Hfree'.
  forward_norm. forward_norm.
  assert (Hlt' : (Product_stock r <? qty) = false) by (apply Z.ltb_ge; lia).
  unfold sql_lt. rewrite Hlt'.
  forward_norm. simpl apply_writes.
  rewrite (INSERT_INTO_Sale_ok _ _ _ _ _ Hcu Hsp). simpl.
  forward_norm. forward_norm. forward_norm.
  cbn [NOT_NULL sql_bind apply_writes foldl apply_write default].
  rewrite INSERT_INTO_Sale_Item_flag_set.
  2:{ apply (row_accepted_line _ _ _ _ _ r); simpl;
        [rewrite lookup_insert_eq; eauto|done|lia|].
      split; [done|]. unfold DECIMAL_10_2_MAX in *. nia. }
  simpl.
  forward_norm. forward_norm.
  cbn [NOT_NULL sql_bind apply_writes foldl apply_write default].
  rewrite (UPDATE_Product_SET_stock_ok _ _ _ r); [|done|done|lia].
  assert (Hown : lock_free_for c (<[item:=c]> (release c locks)) item = true).
  { apply lock_free_for_own, lookup_insert_eq. }
  simpl. rewrite Hown. simpl.
  forward_norm.
  assert (Hfit : fits_DECIMAL_10_2 (Product_price r * qty) = true).
  { unfold fits_DECIMAL_10_2. apply andb_true_iff.
    split; apply Z.leb_le; [unfold DECIMAL_10_2_MAX; nia|done]. }
  rewrite Hfit.
  forward_norm.
  unfold UPDATE_Sale_SET_total_amount.
  cbn [NOT_NULL sql_bind apply_writes foldl apply_write default from_option id app Sale].
  rewrite lookup_insert_eq. cbn [NOT_NULL sql_bind]. rewrite Hfit. simpl.
  forward_norm.
  unfold INSERT_INTO_Payment.
  cbn [NOT_NULL sql_bind apply_writes foldl apply_write default from_option id app Sale].
  rewrite lookup_insert_eq. simpl.
  forward_norm. forward_norm. eauto.
Qed.

(** X4.  A valid sale goes through.  The customer exists, the salesperson
    is 0, NULL or exists, the item exists and no other session holds its
    row, the quantity is positive and at most the stock (a sale of the whole
    stock included), and the total fits [DECIMAL(10,2)]: then the call, with
    no failure of the storage engine, returns its result row, with the next
    key of [Sale] and [price * quantity]. *)
Theorem valid_sale_succeeds (c : conn) (cu item qty : Z) (sp : option Z)
    (r : Product_row) (sh : shared) (s : session) :
  call s = None -> trx s = None ->
  cu ∈ Customer (db sh) ->
  (forall z, NULLIF sp 0 = Some z -> z ∈ Salesperson (db sh)) ->
  Product (db sh) !! item = Some r ->
  lock_free_for c (row_locks sh) item = true ->
  0 < qty <= Product_stock r ->
  Product_stock r <= INT_MAX ->
  0 <= Product_price r ->
  Product_price r * qty <= DECIMAL_10_2_MAX ->
  exists sh' s',
    make_sale c (Some cu) (Some item) (Some qty) sp no_fault sh s
    = Some (Result_row (Some (next_sale_id (auto_increment sh)))
                       (Some (Product_price r * qty)), sh', s').
Proof. apply valid_sale_run. Qed.

(** X5.  The rows of a sale.  A call that returns its result row has added
    exactly one [Sale] row and one [Sale_Item] row, each under a key that was
    not in its table: the sale of the customer, with the salesperson NULL
    when the argument was 0 or NULL, and the line of the sale with the item,
    the quantity and the item's price.  [Customer] and [Salesperson] are as
    before. *)
Theorem successful_sale_adds_one_sale_and_one_line (c : conn)
    (cu pid q sp : option Z) (faults : label -> bool) (sh : shared) (s : session)
    (a b : option Z) (sh' : shared) (s' : session) :
  trx s = None ->
  keys_below (db sh) (auto_increment sh) ->
  make_sale c cu pid q sp faults sh s = Some (Result_row a b, sh', s') ->
  exists sale_id line customer item qty r,
    a = Some sale_id /\ cu = Some customer /\ pid = Some item /\ q = Some qty /\
    Product (db sh) !! item = Some r /\
    Sale (db sh) !! sale_id = None /\ Sale_Item (db sh) !! line = None /\
    Sale (db sh')
      = <[sale_id := mkSale customer (NULLIF sp 0) (Product_price r * qty)]>
          (Sale (db sh)) /\
    Sale_Item (db sh')
      = <[line := mkSale_Item sale_id item qty (Product_price r)]>
          (Sale_Item (db sh)) /\
    Customer (db sh') = Customer (db sh) /\
    Salesperson (db sh') = Salesperson (db sh).
Proof.
  intros Htrx (K1 & K2 & _) Hrun.
  destruct (make_sale_result _ _ _ _ _ _ _ _ _ _ _ _ Htrx Hrun)
    as (v & (Hcu & Hpid & Hq & _ & Hrow & Hdb & Ho) & Hborn & _).
  simpl in Hcu, Hpid, Hq, Hdb. injection Ho as -> ->.
  exists (sv_sid v), (sv_iid v), (sv_cu v), (sv_pid v), (sv_q v),
    (mkProduct (sv_pr v) (sv_st v)).
  do 5 (split; [done|]).
  assert (Hsid : Sale (db sh) !! sv_sid v = None).
  { destruct (Sale _ !! sv_sid v) eqn:E; [|done].
    specialize (K1 _ (mk_is_Some _ _ E)).
    specialize (Hborn (Ins_Sale (sv_sid v) (mkSale (sv_cu v) (NULLIF sp 0) 0))
                      ltac:(repeat constructor)). simpl in Hborn. lia. }
  assert (Hiid : Sale_Item (db sh) !! sv_iid v = None).
  { destruct (Sale_Item _ !! sv_iid v) eqn:E; [|done].
    specialize (K2 _ (mk_is_Some _ _ E)).
    specialize (Hborn (Ins_Sale_Item (sv_iid v)
                         (mkSale_Item (sv_sid v) (sv_pid v) (sv_q v) (sv_pr v)))
                      ltac:(repeat constructor)). simpl in Hborn. lia. }
  do 2 (split; [done|]). rewrite Hdb. simpl.
  split; [apply insert_insert_eq|done].
Qed.

(** ** Sales that are refused *)



(** X8.  A total that does not fit.  A sale that passes every check but
    whose [price * quantity] exceeds the 99999999.99 of [DECIMAL(10,2)] is
    refused when the total is assigned (line 176), after its [Sale] and
    [Sale_Item] rows were written; they are rolled back with the rest.  (A
    price that is itself out of range, which the column of [Product]
    excludes, meets the same error at the insert of line 166 already.) *)
Theorem sale_with_total_out_of_range_is_refused (c : conn)
    (cu item qty : Z) (sp : option Z) (r : Product_row)
    (sh : shared) (s : session) :
  call s = None -> trx s = None ->
  cu ∈ Customer (db sh) ->
  (forall z, NULLIF sp 0 = Some z -> z ∈ Salesperson (db sh)) ->
  Product (db sh) !! item = Some r ->
  lock_free_for c (row_locks sh) item = true ->
  0 < qty <= Product_stock r ->
  Product_stock r <= INT_MAX ->
  0 <= Product_price r ->
  DECIMAL_10_2_MAX < Product_price r * qty ->
  exists sh' s',
    make_sale c (Some cu) (Some item) (Some qty) sp no_fault sh s
    = Some (Raised ER_WARN_DATA_OUT_OF_RANGE, sh', s') /\
    db sh' = db sh.
Proof.
  destruct s as [flag lid t cl], sh as [d [ns ni np] locks]. simpl.
  intros Hcall Htrx Hcu Hsp Hrow Hfree Hqty Hmax Hprice Htotal. subst cl t.
  assert (Hq0 : (qty <=? 0) = false) by (apply Z.leb_gt; lia).
  pose proof (lock_free_for_release _ _ _ Hfree) as Hfree'.
  unfold make_sale. norm.
  forward_norm. rewrite Hq0.
  forward_norm.
  forward_norm. simpl. rewrite Hrow, Hfree'.
  forward_norm. forward_norm.
  assert (Hlt' : (Product_stock r <? qty) = false) by (apply Z.ltb_ge; lia).
  unfold sql_lt. rewrite Hlt'.
  forward_norm. simpl apply_writes.
  rewrite (INSERT_INTO_Sale_ok _ _ _ _ _ Hcu Hsp). simpl.
  forward_norm. forward_norm. forward_norm.
  cbn [NOT_NULL sql_bind apply_writes foldl apply_write default].
  destruct (Z_le_gt_dec (Product_price r) DECIMAL_10_2_MAX) as [Hfits|Hbig].
  2:{ rewrite INSERT_INTO_Sale_Item_price_out_of_range by (simpl; lia).
      eexists _, _. split; [reflexivity|done]. }
  rewrite INSERT_INTO_Sale_Item_flag_set.
  2:{ apply (row_accepted_line _ _ _ _ _ r); simpl;
        [rewrite lookup_insert_eq; eauto|done|lia|lia]. }
  simpl.
  forward_norm. forward_norm.
  cbn [NOT_NULL sql_bind apply_writes foldl apply_write default].
  rewrite (UPDATE_Product_SET_stock_ok _ _ _ r); [|done|done|lia].
  assert (Hown : lock_free_for c (<[item:=c]> (release c locks)) item = true).
  { apply lock_free_for_own, lookup_insert_eq. }
  simpl. rewrite Hown. simpl.
  forward_norm.
  assert (Hfit : fits_DECIMAL_10_2 (Product_price r * qty) = false).
  { unfold fits_DECIMAL_10_2. apply andb_false_iff. right. apply Z.leb_gt. lia. }
  rewrite Hfit. eexists _, _. split; [reflexivity|done].
Qed.

(** X9.  Every call returns.  On an idle connection outside a transaction,
    [make_sale] ends within its sixteen statements whatever the arguments,
    the tables and the failures of the storage engine: with its result row
    or with an error, never with a bare OK.  Either way the connection is
    idle again, with no transaction open and no row lock held. *)
Theorem make_sale_always_returns (c : conn) (cu pid q sp : option Z)
    (faults : label -> bool) (sh : shared) (s : session) :
  call s = None -> trx s = None ->
  exists o sh' s',
    make_sale c cu pid q sp faults sh s = Some (o, sh', s') /\
    ((exists sale_id total, o = Result_row sale_id total) \/
     (exists e, o = Raised e)) /\
    call s' = None /\ trx s' = None /\ holds_no_lock c sh'.
Proof.
  intros Hcall Htrx.
  destruct (make_sale_returns c cu pid q sp faults sh s Hcall Htrx)
    as (o & sh' & s' & Hrun).
  exists o, sh', s'. split; [done|]. destruct o as [a b| |e].
  - destruct (make_sale_result _ _ _ _ _ _ _ _ _ _ _ _ Htrx Hrun)
      as (v & _ & _ & ? & ? & ? & _). eauto 10.
  - by apply make_sale_not_Query_OK in Hrun.
  - destruct (make_sale_raised _ _ _ _ _ _ _ _ _ _ _ Htrx Hrun)
      as (_ & ? & ? & ?). eauto 10.
Qed.

(** ** The errors of the procedure *)

Lemma INSERT_INTO_Sale_error (id : Z) (cu sp : option Z) (t : Z) (d : database)
    (e : sql_error) :
  INSERT_INTO_Sale id cu sp t d = Err e -> forall m, e <> SIGNAL_45000 m.
Proof.
  unfold INSERT_INTO_Sale, NOT_NULL, sql_bind. intros H m.
  repeat case_match; simplify_eq; done.
Qed.

Lemma INSERT_INTO_Sale_Item_error (flag : option Z) (id : Z) (NEW : Sale_Item_row)
    (d : database) (e : sql_error) :
  IFNULL flag 0 <> 0 ->
  INSERT_INTO_Sale_Item flag id NEW d = Err e -> forall m, e <> SIGNAL_45000 m.
Proof.
  intros Hflag. unfold INSERT_INTO_Sale_Item, CHECK, sql_bind.
  rewrite trg_sale_item_after_insert_silent by done. intros H m.
  repeat case_match; simplify_eq; done.
Qed.

Lemma UPDATE_Product_SET_stock_error (pid qty : Z) (d : database) (e : sql_error) :
  UPDATE_Product_SET_stock pid qty d = Err e -> forall m, e <> SIGNAL_45000 m.
Proof.
  unfold UPDATE_Product_SET_stock, CHECK_Product, CHECK, sql_bind. intros H m.
  repeat case_match; simplify_eq; done.
Qed.

Lemma UPDATE_Sale_SET_total_amount_error (sid : Z) (t : option Z) (d : database)
    (e : sql_error) :
  UPDATE_Sale_SET_total_amount sid t d = Err e -> forall m, e <> SIGNAL_45000 m.
Proof.
  unfold UPDATE_Sale_SET_total_amount, NOT_NULL, sql_bind. intros H m.
  repeat case_match; simplify_eq; done.
Qed.

Lemma INSERT_INTO_Payment_error (id : Z) (sid : option Z) (mode status : string)
    (d : database) (e : sql_error) :
  INSERT_INTO_Payment id sid mode status d = Err e -> forall m, e <> SIGNAL_45000 m.
Proof.
  unfold INSERT_INTO_Payment, NOT_NULL, sql_bind. intros H m.
  repeat case_match; simplify_eq; done.
Qed.

Lemma storage_statement_error (c : conn) (fault : bool)
    (stmt : sql_result (list write)) (sh : shared) (s : session)
    (k : shared -> session -> step_result) (sh' : shared) (s' : session)
    (e : sql_error) :
  (forall e', stmt = Err e' -> forall m, e' <> SIGNAL_45000 m) ->
  (forall sh1 s1, k sh1 s1 <> Ends sh' s' (Raised e)) ->
  storage_statement c fault stmt sh s k = Ends sh' s' (Raised e) ->
  forall m, e <> SIGNAL_45000 m.
Proof.
  unfold storage_statement, EXIT_HANDLER, ROLLBACK. intros Hstmt Hk H m.
  destruct fault; [by simplify_eq|].
  destruct stmt as [ws|e']; [|simplify_eq; by eapply Hstmt].
  destruct (write_rows c ws sh s) as [[sh1 s1]|]; [|done].
  by apply Hk in H.
Qed.

(** From the insert into [Sale] on, no statement of the call raises a
    SIGNAL: the trigger, the only one that could, is silenced by the flag. *)
Lemma step_make_sale_late_error (c : conn) (fault : bool) (f : frame)
    (sh : shared) (s : session) (v : sale_vars) (sh' : shared) (s' : session)
    (e : sql_error) :
  shape c sh s f v -> (5 <= idx (pc f))%nat ->
  step_make_sale c fault f sh s = Ends sh' s' (Raised e) ->
  forall m, e <> SIGNAL_45000 m.
Proof.
  intros Hshape Hidx Hstep.
  destruct f as [l pcu ppid pq psp vpr vst vsid vtot].
  destruct l; simpl in Hidx; try lia; use_shape Hshape;
    unfold step_make_sale in Hstep; simpl in Hstep;
    try (eapply storage_statement_error; [| |exact Hstep];
         [|by unfold continue]).
  - intros e'. apply INSERT_INTO_Sale_error.
  - done.
  - done.
  - intros e'. rewrite Hflag. unfold NOT_NULL, sql_bind.
    repeat case_match; try (intros; simplify_eq; done).
    by apply INSERT_INTO_Sale_Item_error.
  - done.
  - intros e'. unfold NOT_NULL, sql_bind.
    repeat case_match; try (intros; simplify_eq; done).
    apply UPDATE_Product_SET_stock_error.
  - unfold continue, EXIT_HANDLER, ROLLBACK in Hstep.
    repeat case_match; simplify_eq; done.
  - intros e'. repeat case_match; try (intros; simplify_eq; done).
    apply UPDATE_Sale_SET_total_amount_error.
  - intros e'. apply INSERT_INTO_Payment_error.
  - unfold continue, EXIT_HANDLER, COMMIT, ROLLBACK in Hstep.
    repeat case_match; simplify_eq; done.
  - done.
Qed.

Lemma run_make_sale_late_error (fuel : nat) (c : conn) (faults : label -> bool)
    (sh : shared) (s : session) (f : frame) (v : sale_vars)
    (e : sql_error) (sh' : shared) (s' : session) :
  call s = Some f -> shape c sh s f v -> (5 <= idx (pc f))%nat ->
  run_make_sale fuel c faults sh s = Some (Raised e, sh', s') ->
  forall m, e <> SIGNAL_45000 m.
Proof.
  revert sh s f v. induction fuel as [|fuel IH];
    intros sh s f v Hcall Hshape Hidx Hrun; [done|].
  rewrite (run_make_sale_S _ _ _ _ _ _ Hcall) in Hrun.
  destruct (step_make_sale c (faults (pc f)) f sh s) as [|sh1 s1|sh1 s1 o] eqn:Hstep;
    simpl in Hrun.
  - unfold EXIT_HANDLER, ROLLBACK in Hrun. by simplify_eq.
  - destruct (step_make_sale_goes _ _ _ _ _ _ _ _ Hshape Hstep)
      as (f1 & v1 & Hcall1 & Hshape1 & Hidx1 & _).
    eapply (IH _ _ _ _ Hcall1 Hshape1); [lia|exact Hrun].
  - simplify_eq. by eapply step_make_sale_late_error.
Qed.

(** When the call raises a SIGNAL, which one and why. *)
Lemma make_sale_signal_cases (c : conn) (cu pid q sp : option Z)
    (faults : label -> bool) (sh : shared) (s : session)
    (m : string) (sh' : shared) (s' : session) :
  trx s = None ->
  make_sale c cu pid q sp faults sh s = Some (Raised (SIGNAL_45000 m), sh', s') ->
  (m = "Quantity must be greater than 0" /\
   (q = None \/ exists z, q = Some z /\ z <= 0)) \/
  (m = "Invalid product_id" /\
   (pid = None \/ exists item, pid = Some item /\ Product (db sh) !! item = None)) \/
  (m = "Insufficient stock" /\
   exists item r qty, pid = Some item /\ q = Some qty /\
     Product (db sh) !! item = Some r /\ Product_stock r < qty).
Proof.
  destruct s as [flag lid t cl], sh as [d [ns ni np] locks]. simpl.
  intros Htrx. subst t. unfold make_sale. simpl.
  destruct cl; [done|]. norm.
  forward_norm.
  destruct q as [z|]; [|intros [= <-]; left; eauto].
  destruct (z <=? 0) eqn:Hz.
  { intros [= <-]. left. split; [done|]. right. exists z. split; [done|].
    by apply Z.leb_le. }
  apply Z.leb_gt in Hz.
  forward_norm. destruct (faults L139_START_TRANSACTION); [done|].
  forward_norm. destruct (faults L141_SELECT_FOR_UPDATE); [done|].
  destruct pid as [item|].
  2:{ forward_norm. intros [= <-]. right. left. eauto. }
  simpl. destruct (Product d !! item) as [r|] eqn:Hrow.
  2:{ forward_norm. intros [= <-]. right. left. eauto. }
  destruct (lock_free_for c (release c locks) item) eqn:Hfree; [|done].
  forward_norm. forward_norm.
  unfold sql_lt. destruct (Product_stock r <? z) eqn:Hlt.
  { intros [= <-]. right. right. split; [done|].
    exists item, r, z. apply Z.ltb_lt in Hlt. done. }
  apply Z.ltb_ge in Hlt. intros Hrun. exfalso.
  eapply run_make_sale_late_error
    with (v := mkVars item z (Product_price r) (Product_stock r) 0 0 0 0)
         (m := m) in Hrun; [done|reflexivity| |simpl; lia].
  prove_shape. rewrite product_row_eta. split; [done|].
  split; [done|]. split; [done|]. split; [done|]. apply lookup_insert_eq.
Qed.

(** X10.  The three messages of the procedure.  A call raises 'Quantity must
    be greater than 0' only for a NULL or non-positive quantity, 'Invalid
    product_id' only when [Product] has no row with that id, 'Insufficient
    stock' only when the stock of the row is below the quantity; and it
    raises no other SIGNAL: the trigger's 'Stock cannot be negative' never
    comes out of [make_sale]. *)
Theorem make_sale_signals (c : conn) (cu pid q sp : option Z)
    (faults : label -> bool) (sh : shared) (s : session)
    (m : string) (sh' : shared) (s' : session) :
  trx s = None ->
  make_sale c cu pid q sp faults sh s = Some (Raised (SIGNAL_45000 m), sh', s') ->
  (m = "Quantity must be greater than 0" /\
   (q = None \/ exists z, q = Some z /\ z <= 0)) \/
  (m = "Invalid product_id" /\
   (pid = None \/ exists item, pid = Some item /\ Product (db sh) !! item = None)) \/
  (m = "Insufficient stock" /\
   exists item r qty, pid = Some item /\ q = Some qty /\
     Product (db sh) !! item = Some r /\ Product_stock r < qty).
Proof. apply make_sale_signal_cases. Qed.

(** ** The route and the payment mode *)

Lemma post_sale_calls_route (req : sale_request) (cu pid q sp : js_number) :
  post_sale req = Query_CALL_make_sale cu pid q sp ->
  exists zc zp zq,
    0 < zc /\ 0 < zp /\ 0 < zq /\
    body_customer_id req = JsInteger zc /\ cu = JsInteger zc /\
    body_product_id req = JsInteger zp /\ pid = JsInteger zp /\
    body_quantity req = JsInteger zq /\ q = JsInteger zq /\
    sp = js_or_0 (body_salesperson_id req).
Proof.
  destruct req as [bc bp bq bs]. unfold post_sale. simpl. intros H.
  destruct bc as [zc| | |]; simpl in H; try done.
  destruct (zc <=? 0) eqn:Hc; simpl in H; [done|].
  destruct bp as [zp| | |]; simpl in H; try done.
  destruct (zp <=? 0) eqn:Hp; simpl in H; [done|].
  destruct bq as [zq| | |]; simpl in H; try done.
  destruct (zq <=? 0) eqn:Hq; simpl in H; [done|].
  injection H as <- <- <- <-. apply Z.leb_gt in Hc, Hp, Hq.
  exists zc, zp, zq. done.
Qed.


Lemma apply_writes_Upd_Payment (g : Payment_row -> Payment_row)
    (kvs : list (Z * Payment_row)) (d d' : database) :
  d' = apply_writes d
         ((fun kv : Z * Payment_row => Upd_Payment kv.1 (g kv.2)) <$> kvs) ->
  Customer d' = Customer d /\ Salesperson d' = Salesperson d /\
  Product d' = Product d /\ Sale d' = Sale d /\ Sale_Item d' = Sale_Item d /\
  (NoDup kvs.*1 ->
   forall k, Payment d' !! k
             = match (list_to_map kvs : gmap Z Payment_row) !! k with
               | Some r => Some (g r)
               | None => Payment d !! k
               end).
Proof.
  revert d d'. induction kvs as [|[k0 r0] kvs IH]; intros d d' ->.
  - repeat split; try done; intros _ k; by rewrite lookup_empty.
  - destruct (IH (apply_write d (Upd_Payment k0 (g r0))) _ eq_refl)
      as (H1 & H2 & H3 & H4 & H5 & H6).
    change (apply_writes d
              ((fun kv : Z * Payment_row => Upd_Payment kv.1 (g kv.2))
               <$> (k0, r0) :: kvs))
      with (apply_writes (apply_write d (Upd_Payment k0 (g r0)))
              ((fun kv : Z * Payment_row => Upd_Payment kv.1 (g kv.2)) <$> kvs)).
    rewrite H1, H2, H3, H4, H5.
    repeat split; try done.
    intros Hnd k. apply NoDup_cons in Hnd as [Hk0 Hnd].
    rewrite (H6 Hnd k). simpl. destruct (decide (k = k0)) as [->|Hne].
    + by rewrite !lookup_insert_eq, (not_elem_of_list_to_map_1 kvs k0 Hk0).
    + by rewrite !lookup_insert_ne by (intros Heq; by apply Hne).
Qed.

Lemma written_products_Upd_Payment (g : Payment_row -> Payment_row)
    (kvs : list (Z * Payment_row)) :
  written_products
    ((fun kv : Z * Payment_row => Upd_Payment kv.1 (g kv.2)) <$> kvs) = [].
Proof. induction kvs as [|kv kvs IH]; [done|]. simpl. exact IH. Qed.

(** The update of the payment mode on an idle connection: it goes through,
    unless the mode is longer than the 20 characters of the column and the
    sale has a payment to assign it to. *)
Lemma UPDATE_Payment_mode_cases (c : conn) (mode : string) (sale_id : Z)
    (sh : shared) (s : session) :
  call s = None -> trx s = None ->
  (((String.length mode <= 20)%nat \/
    forall k r, Payment (db sh) !! k = Some r -> Payment_sale_id r <> sale_id) /\
   exists d',
     perform c (UPDATE_Payment_mode mode sale_id false) sh s
     = Ends (set_db d' sh) s Query_OK /\
     Payment d' = SET_mode_WHERE_sale_id mode sale_id <$> Payment (db sh) /\
     Sale d' = Sale (db sh) /\ Sale_Item d' = Sale_Item (db sh) /\
     Product d' = Product (db sh) /\ Customer d' = Customer (db sh) /\
     Salesperson d' = Salesperson (db sh)) \/
  (perform c (UPDATE_Payment_mode mode sale_id false) sh s
   = Ends sh s (Raised ER_DATA_TOO_LONG) /\
   (20 < String.length mode)%nat /\
   exists k r, Payment (db sh) !! k = Some r /\ Payment_sale_id r = sale_id).
Proof.
  intros Hcall Htrx.
  unfold perform, autocommit_statement, UPDATE_Payment_SET_mode, view.
  rewrite Hcall, Htrx. cbv zeta.
  change (apply_writes (db sh) (default [] None)) with (db sh).
  set (g := fun r : Payment_row =>
              mkPayment (Payment_sale_id r) mode (Payment_status r)).
  set (kvs := map_to_list (filter (fun kv : Z * Payment_row =>
                                     Payment_sale_id kv.2 = sale_id)
                                  (Payment (db sh)))).
  change (fun kv : Z * Payment_row =>
            Upd_Payment kv.1 (mkPayment (Payment_sale_id kv.2) mode
                                        (Payment_status kv.2)))
    with (fun kv : Z * Payment_row => Upd_Payment kv.1 (g kv.2)).
  destruct (decide (kvs = [] \/ (String.length mode <= 20)%nat)) as [Hok|Hno].
  - left. split.
    { destruct Hok as [Hnil|Hlen]; [right|by left].
      intros k r Hr Heq.
      assert (Hin : (k, r) ∈ kvs).
      { unfold kvs. apply elem_of_map_to_list, map_lookup_filter_Some. done. }
      rewrite Hnil in Hin. by apply elem_of_nil in Hin. }
    replace (match kvs with
             | [] => Ok []
             | _ :: _ =>
                 ASSERT (String.length mode <=? 20)%nat ELSE ER_DATA_TOO_LONG;;
                 Ok ((fun kv : Z * Payment_row => Upd_Payment kv.1 (g kv.2))
                     <$> kvs)
             end)
      with (Ok ((fun kv : Z * Payment_row => Upd_Payment kv.1 (g kv.2)) <$> kvs)).
    2:{ destruct kvs as [|kv kvs']; [done|]. destruct Hok as [|Hlen]; [done|].
        apply Nat.leb_le in Hlen. by rewrite Hlen. }
    unfold write_rows. rewrite written_products_Upd_Payment, ?Htrx. simpl.
    eexists. split; [reflexivity|].
    destruct (apply_writes_Upd_Payment g kvs (db sh) _ eq_refl)
      as (H1 & H2 & H3 & H4 & H5 & H6).
    repeat split; try done.
    apply map_eq. intros k. rewrite (H6 (NoDup_fst_map_to_list _) k).
    unfold kvs. rewrite list_to_map_to_list, lookup_fmap.
    unfold SET_mode_WHERE_sale_id.
    destruct (Payment (db sh) !! k) as [r|] eqn:Hr; simpl.
    + destruct (decide (Payment_sale_id r = sale_id)) as [Heq|Hne].
      * rewrite (bool_decide_eq_true_2 _ Heq).
        erewrite (proj2 (map_lookup_filter_Some _ _ _ _)); [done|]. done.
      * rewrite (bool_decide_eq_false_2 _ Hne).
        replace (filter _ _ !! k) with (@None Payment_row); [done|].
        symmetry. apply map_lookup_filter_None. right. intros r' Hr'.
        simpl. congruence.
    + replace (filter _ _ !! k) with (@None Payment_row); [done|].
      symmetry. apply map_lookup_filter_None. by left.
  - right.
    assert (Hin : forall k r, (k, r) ∈ kvs ->
                  Payment (db sh) !! k = Some r /\ Payment_sale_id r = sale_id).
    { intros k r Hin. unfold kvs in Hin. apply elem_of_map_to_list in Hin.
      by apply map_lookup_filter_Some in Hin as [? ?]. }
    clearbody kvs. destruct kvs as [|[k r] kvs']; [by destruct Hno; left|].
    assert (Hlen : (20 < String.length mode)%nat) by lia.
    replace (String.length mode <=? 20)%nat with false
      by (symmetry; apply Nat.leb_gt; lia).
    split; [reflexivity|]. split; [done|]. exists k, r.
    apply Hin. left.
Qed.

(** A mode within the 20 characters of the column is always written. *)
Lemma UPDATE_Payment_mode_run (c : conn) (mode : string) (sale_id : Z)
    (sh : shared) (s : session) :
  (String.length mode <= 20)%nat ->
  call s = None -> trx s = None ->
  exists d',
    perform c (UPDATE_Payment_mode mode sale_id false) sh s
    = Ends (set_db d' sh) s Query_OK /\
    Payment d' = SET_mode_WHERE_sale_id mode sale_id <$> Payment (db sh) /\
    Sale d' = Sale (db sh) /\ Sale_Item d' = Sale_Item (db sh) /\
    Product d' = Product (db sh) /\ Customer d' = Customer (db sh) /\
    Salesperson d' = Salesperson (db sh).
Proof.
  intros Hlen Hcall Htrx.
  destruct (UPDATE_Payment_mode_cases c mode sale_id sh s Hcall Htrx)
    as [[_ H]|(_ & Hlong & _)]; [exact H|lia].
Qed.

(** A longer mode is refused when the sale has a payment. *)
Lemma UPDATE_Payment_mode_too_long (c : conn) (mode : string) (sale_id : Z)
    (sh : shared) (s : session) (k : Z) (r : Payment_row) :
  (20 < String.length mode)%nat ->
  Payment (db sh) !! k = Some r -> Payment_sale_id r = sale_id ->
  call s = None -> trx s = None ->
  perform c (UPDATE_Payment_mode mode sale_id false) sh s
  = Ends sh s (Raised ER_DATA_TOO_LONG).
Proof.
  intros Hlen Hr Hsid Hcall Htrx.
  destruct (UPDATE_Payment_mode_cases c mode sale_id sh s Hcall Htrx)
    as [[[Hle|Hnone] _]|(H & _)]; [lia| |exact H].
  by destruct (Hnone k r Hr).
Qed.

(** X12.  The update of the payment mode.  On an idle connection a mode of
    at most 20 characters, which is what the handler sends (line 86 cuts the
    mode to 20 characters), always goes through, also when the sale has no
    payment or does not exist; it sets the mode of the payments of that sale
    and changes nothing else: not their sale or status, not a payment of
    another sale, not a row of another table.  A longer mode, with more than
    spaces after its 20th character, does not fit the column
    [mode VARCHAR(20)] (line 105): when the sale has a payment, the update is
    refused with 'Data too long' and nothing is changed. *)
Theorem payment_mode_update_changes_one_sale (c : conn) (mode : string)
    (sale_id : Z) (sh : shared) (s : session) :
  call s = None -> trx s = None ->
  ((String.length mode <= 20)%nat ->
   exists sh' s',
     perform c (UPDATE_Payment_mode mode sale_id false) sh s
     = Ends sh' s' Query_OK /\
     Payment (db sh') = SET_mode_WHERE_sale_id mode sale_id <$> Payment (db sh) /\
     Sale (db sh') = Sale (db sh) /\ Sale_Item (db sh') = Sale_Item (db sh) /\
     Product (db sh') = Product (db sh) /\ Customer (db sh') = Customer (db sh) /\
     Salesperson (db sh') = Salesperson (db sh)) /\
  ((20 < String.length mode)%nat ->
   only_spaces (String.substring 20 (String.length mode - 20) mode) = false ->
   forall k r, Payment (db sh) !! k = Some r -> Payment_sale_id r = sale_id ->
   perform c (UPDATE_Payment_mode mode sale_id false) sh s
   = Ends sh s (Raised ER_DATA_TOO_LONG)).
Proof.
  intros Hcall Htrx. split.
  - intros Hlen.
    destruct (UPDATE_Payment_mode_run c mode sale_id sh s Hlen Hcall Htrx)
      as (d' & Hperf & Hrest).
    exists (set_db d' sh), s. split; [exact Hperf|exact Hrest].
  - intros Hlen _ k r Hr Hsid.
    by apply (UPDATE_Payment_mode_too_long c mode sale_id sh s k r).
Qed.

(** ** The handler of [POST /api/sale] *)

Lemma idle_session_no_trx (w : world) (c : conn) (s : session) :
  sessions_ok w -> sessions w !! c = Some s -> call s = None -> trx s = None.
Proof.
  intros Hok Hs Hcall. specialize (Hok _ _ Hs). unfold session_ok in Hok.
  by rewrite Hcall in Hok.
Qed.

Lemma make_sale_idle (c : conn) (cu pid q sp : option Z) (faults : label -> bool)
    (sh : shared) (s : session) (r : outcome * shared * session) :
  make_sale c cu pid q sp faults sh s = Some r -> call s = None.
Proof. unfold make_sale. by destruct (call s). Qed.

(** The payments of a sale that was just made: its one CASH payment. *)
Lemma payments_of_new_sale (d : database) (sp : option Z) (v : sale_vars) :
  Sale d !! sv_sid v = None ->
  payments_reference_sales d ->
  payments_of (apply_writes d (sale_writes sp v)) (sv_sid v)
  = {[sv_payid v := mkPayment (sv_sid v) "CASH" "SUCCESS"]}.
Proof.
  intros Hsid Hfk. unfold payments_of. simpl.
  rewrite map_filter_insert_True by done.
  assert (Hempty : filter (fun kv : Z * Payment_row =>
                             Payment_sale_id kv.2 = sv_sid v) (Payment d) = ∅).
  { apply map_empty. intros k. apply map_lookup_filter_None. right.
    intros r Hk. simpl. intros Heq.
    specialize (Hfk k r Hk). rewrite Heq, Hsid in Hfk. by destruct Hfk. }
  rewrite Hempty. apply insert_empty.
Qed.

Lemma fresh_sale_id (d : database) (n : counters) (sp : option Z) (v : sale_vars) :
  keys_below d n ->
  (forall x, x ∈ sale_writes sp v -> born_after n x) ->
  Sale d !! sv_sid v = None /\ next_sale_id n <= sv_sid v.
Proof.
  intros (K1 & _) Hborn.
  specialize (Hborn (Ins_Sale (sv_sid v) (mkSale (sv_cu v) (NULLIF sp 0) 0))
                    ltac:(repeat constructor)). simpl in Hborn.
  split; [|done]. destruct (Sale d !! sv_sid v) eqn:E; [|done].
  specialize (K1 _ (mk_is_Some _ _ E)). lia.
Qed.

(** The handler, once the validation and the range of the parameters are
    behind it. *)
Lemma POST_api_sale_inv (c1 c2 : conn) (req : sale_request) (mode : string)
    (faults : label -> bool) (fault_UPDATE : bool) (w : world)
    (reply : sale_reply) (w' : world) :
  POST_api_sale c1 c2 req mode faults fault_UPDATE w = Some (reply, w') ->
  (exists error, reply = Reply_error 400 error None /\ w' = w) \/
  (reply = Reply_error 400 "Sale failed" (Some ER_WARN_DATA_OUT_OF_RANGE) /\
   w' = w) \/
  exists cu pid q sp s1 o sh1 s1',
    0 < cu /\ 0 < pid /\ 0 < q /\
    body_customer_id req = JsInteger cu /\ body_product_id req = JsInteger pid /\
    body_quantity req = JsInteger q /\
    js_or_0 (body_salesperson_id req) = JsInteger sp /\
    sessions w !! c1 = Some s1 /\
    make_sale c1 (Some cu) (Some pid) (Some q) (Some sp) faults
              (shared_state w) s1 = Some (o, sh1, s1') /\
    let w1 := mkWorld sh1 (<[c1 := s1']> (sessions w)) in
    match o with
    | Raised e => reply = Reply_error 400 "Sale failed" (Some e) /\ w' = w1
    | Result_row (Some sale_id) total_amount =>
        if sale_id =? 0 then
          reply = Reply_error 500
                    "Sale created but no output returned from procedure" None /\
          w' = w1
        else
          exists o2,
            world_step c2 (UPDATE_Payment_mode mode sale_id fault_UPDATE) w1
            = Some (w', o2) /\
            match o2 with
            | Some (Raised e) => reply = Reply_error 400 "Sale failed" (Some e)
            | _ => reply = Reply_sale_completed sale_id total_amount mode
            end
    | _ => reply = Reply_error 500
                     "Sale created but no output returned from procedure" None /\
           w' = w1
    end.
Proof.
  unfold POST_api_sale. intros H.
  destruct (post_sale req) as [st err|jc jp jq js] eqn:Hroute.
  { left. injection H as <- <-. exists err.
    unfold post_sale in Hroute. repeat case_match; by simplify_eq. }
  apply post_sale_calls_route in Hroute
    as (cu & pid & q & Hc & Hp & Hq & Hbc & -> & Hbp & -> & Hbq & -> & ->).
  destruct (js_or_0 (body_salesperson_id req)) as [sp| | |] eqn:Hsp; try done.
  destruct (fits_INT cu && fits_INT pid && fits_INT q && fits_INT sp);
    [|right; left; by simplify_eq].
  destruct (sessions w !! c1) as [s1|] eqn:Hs1; [|done].
  destruct (make_sale c1 _ _ _ _ faults (shared_state w) s1)
    as [[[o sh1] s1']|] eqn:Hrun; [|done].
  right. right. exists cu, pid, q, sp, s1, o, sh1, s1'.
  do 8 (split; [done|]). split; [exact Hrun|]. simpl.
  destruct o as [[sid|] tot| |e]; try (by simplify_eq).
  destruct (sid =? 0); [by simplify_eq|].
  destruct (world_step c2 _ _) as [[w2 o2]|]; [|done].
  exists o2. destruct o2 as [[| |e]|]; by simplify_eq.
Qed.

(** The second query of the handler, as a step of the server. *)
Lemma UPDATE_Payment_mode_step (c : conn) (mode : string) (sale_id : Z)
    (fault : bool) (w w' : world) (o : option outcome) :
  (forall s, sessions w !! c = Some s -> call s = None -> trx s = None) ->
  world_step c (UPDATE_Payment_mode mode sale_id fault) w = Some (w', o) ->
  (fault = true /\ o = Some (Raised ER_STORAGE_ENGINE) /\
   shared_state w' = shared_state w) \/
  (fault = false /\ o = Some (Raised ER_DATA_TOO_LONG) /\
   shared_state w' = shared_state w) \/
  (fault = false /\ o = Some Query_OK /\
   exists d',
     shared_state w' = set_db d' (shared_state w) /\
     Payment d'
       = SET_mode_WHERE_sale_id mode sale_id <$> Payment (db (shared_state w)) /\
     Sale d' = Sale (db (shared_state w)) /\
     Sale_Item d' = Sale_Item (db (shared_state w)) /\
     Product d' = Product (db (shared_state w)) /\
     Customer d' = Customer (db (shared_state w)) /\
     Salesperson d' = Salesperson (db (shared_state w))).
Proof.
  intros Hidle. unfold world_step.
  destruct (sessions w !! c) as [s|] eqn:Hs; [|done].
  destruct (call s) as [f|] eqn:Hcall.
  { unfold perform. by rewrite Hcall. }
  specialize (Hidle s eq_refl Hcall). destruct fault.
  - unfold perform, autocommit_statement. rewrite Hcall.
    intros [= <- <-]. by left.
  - destruct (UPDATE_Payment_mode_cases c mode sale_id (shared_state w) s
                Hcall Hidle) as [(_ & d' & -> & Hrest)|(-> & _)].
    + intros [= <- <-]. right. right. split; [done|]. split; [done|].
      by exists d'.
    + intros [= <- <-]. right. left. done.
Qed.

(** X13.  The answer 500 is never given.  With the AUTO_INCREMENT counter of
    [Sale] positive, as it always is, a CALL that returns has a row with a
    sale id that is not 0, so the handler's 'Sale created but no output
    returned from procedure' is not reachable. *)
Theorem no_output_reply_is_unreachable (c1 c2 : conn) (req : sale_request)
    (mode : string) (faults : label -> bool) (fault_UPDATE : bool) (w : world)
    (error : string) (details : option sql_error) (w' : world) :
  sessions_ok w ->
  0 < next_sale_id (auto_increment (shared_state w)) ->
  POST_api_sale c1 c2 req mode faults fault_UPDATE w
  <> Some (Reply_error 500 error details, w').
Proof.
  intros Hok Hpos H.
  apply POST_api_sale_inv in H
    as [(err & [= ] & _)|[[[= ] _]|
        (cu & pid & q & sp & s1 & o & sh1 & s1' & _ & _ & _ & _ & _ & _ & _
         & Hs1 & Hrun & H)]].
  pose proof (idle_session_no_trx _ _ _ Hok Hs1 (make_sale_idle _ _ _ _ _ _ _ _ _ Hrun))
    as Htrx.
  simpl in H. destruct o as [a tot| |e].
  - destruct (make_sale_result _ _ _ _ _ _ _ _ _ _ _ _ Htrx Hrun)
      as (v & (_ & _ & _ & _ & _ & _ & Ho) & Hborn & _).
    injection Ho as -> ->.
    specialize (Hborn (Ins_Sale (sv_sid v) (mkSale (sv_cu v) (NULLIF (Some sp) 0) 0))
                      ltac:(repeat constructor)). simpl in Hborn.
    replace (sv_sid v =? 0) with false in H by (symmetry; apply Z.eqb_neq; lia).
    destruct H as (o2 & _ & H). destruct o2 as [[| |e]|]; done.
  - by apply make_sale_not_Query_OK in Hrun.
  - by destruct H.
Qed.

(** X14.  What the procedure can tell the handler.  The route has checked the
    quantity, so of the procedure's messages only 'Invalid product_id' and
    'Insufficient stock' reach the client: 'Quantity must be greater than 0'
    is never raised for a request of the route. *)
Theorem handler_sees_two_signals (c1 c2 : conn) (req : sale_request)
    (mode : string) (faults : label -> bool) (fault_UPDATE : bool) (w : world)
    (status : Z) (error m : string) (w' : world) :
  sessions_ok w ->
  POST_api_sale c1 c2 req mode faults fault_UPDATE w
  = Some (Reply_error status error (Some (SIGNAL_45000 m)), w') ->
  m = "Invalid product_id" \/ m = "Insufficient stock".
Proof.
  intros Hok H.
  apply POST_api_sale_inv in H
    as [(err & [= ] & _)|[[[= ] _]|
        (cu & pid & q & sp & s1 & o & sh1 & s1' & _ & _ & Hq & _ & _ & _ & _
         & Hs1 & Hrun & H)]].
  pose proof (idle_session_no_trx _ _ _ Hok Hs1 (make_sale_idle _ _ _ _ _ _ _ _ _ Hrun))
    as Htrx.
  simpl in H. destruct o as [a tot| |e].
  - destruct a as [sid|]; [|by destruct H].
    destruct (sid =? 0); [by destruct H|].
    destruct H as (o2 & Hstep & H).
    assert (Hidle : forall s, sessions (mkWorld sh1 (<[c1:=s1']> (sessions w))) !! c2
                              = Some s -> call s = None -> trx s = None).
    { intros s. simpl. destruct (decide (c2 = c1)) as [->|Hne].
      - rewrite lookup_insert_eq. intros [= <-] _.
        by destruct (make_sale_result _ _ _ _ _ _ _ _ _ _ _ _ Htrx Hrun)
          as (_ & _ & _ & _ & ? & _).
      - rewrite lookup_insert_ne by done. by apply idle_session_no_trx. }
    apply UPDATE_Payment_mode_step
      in Hstep as [(_ & -> & _)|[(_ & -> & _)|(_ & -> & _)]]; [| |done..];
      done.
  - by destruct H.
  - destruct H as [[= _ _ <-] _].
    destruct (make_sale_signal_cases _ _ _ _ _ _ _ _ _ _ _ Htrx Hrun)
      as [(_ & [?|(z & [= <-] & ?)])|[[-> _]|[-> _]]]; [done|lia|by left|by right].
Qed.

Lemma SET_mode_WHERE_sale_id_keeps_sale (mode : string) (sale_id : Z)
    (r : Payment_row) :
  Payment_sale_id (SET_mode_WHERE_sale_id mode sale_id r) = Payment_sale_id r.
Proof. unfold SET_mode_WHERE_sale_id. by destruct (bool_decide _). Qed.

Lemma payments_of_SET_mode (d d' : database) (mode : string) (sale_id sid : Z) :
  Payment d' = SET_mode_WHERE_sale_id mode sale_id <$> Payment d ->
  payments_of d' sid = SET_mode_WHERE_sale_id mode sale_id <$> payments_of d sid.
Proof.
  intros HP. unfold payments_of. rewrite HP. apply map_eq. intros k.
  apply option_eq. intros x.
  rewrite lookup_fmap, fmap_Some.
  setoid_rewrite map_lookup_filter_Some. rewrite lookup_fmap, fmap_Some. simpl.
  split.
  - intros [(r & Hr & ->) Hsid]. exists r.
    rewrite SET_mode_WHERE_sale_id_keeps_sale in Hsid. done.
  - intros (r & [Hr Hsid] & ->). split; [by exists r|].
    by rewrite SET_mode_WHERE_sale_id_keeps_sale.
Qed.

(** X15.  What 'Sale completed successfully' means.  When the handler answers
    with a sale id, the sale is in the tables under that id, new, for the
    customer of the request and with [price * quantity] as its total, which
    is the total of the answer; the stock of the item is down by the
    quantity; and the sale has exactly one payment, with the mode of the
    answer and status SUCCESS. *)
Theorem completed_reply_means_sale_with_mode (c1 c2 : conn)
    (req : sale_request) (mode : string) (faults : label -> bool)
    (fault_UPDATE : bool) (w : world)
    (sale_id : Z) (total_amount : option Z) (payment_mode : string) (w' : world) :
  well_formed w ->
  payments_ok (db (shared_state w)) ->
  POST_api_sale c1 c2 req mode faults fault_UPDATE w
  = Some (Reply_sale_completed sale_id total_amount payment_mode, w') ->
  payment_mode = mode /\
  exists cu item qty r sp pay_id,
    body_customer_id req = JsInteger cu /\
    body_product_id req = JsInteger item /\
    body_quantity req = JsInteger qty /\
    Product (db (shared_state w)) !! item = Some r /\
    total_amount = Some (Product_price r * qty) /\
    Sale (db (shared_state w)) !! sale_id = None /\
    Sale (db (shared_state w')) !! sale_id
      = Some (mkSale cu sp (Product_price r * qty)) /\
    Product (db (shared_state w')) !! item
      = Some (mkProduct (Product_price r) (Product_stock r - qty)) /\
    payments_of (db (shared_state w')) sale_id
      = {[pay_id := mkPayment sale_id mode "SUCCESS"]}.
Proof.
  intros [Hok Hfresh] [Hfk _] H.
  apply POST_api_sale_inv in H
    as [(err & [= ] & _)|[[[= ] _]|
        (cu & pid & q & sp & s1 & o & sh1 & s1' & _ & _ & _ & Hbc & Hbp & Hbq & _
         & Hs1 & Hrun & H)]].
  pose proof (idle_session_no_trx _ _ _ Hok Hs1 (make_sale_idle _ _ _ _ _ _ _ _ _ Hrun))
    as Htrx.
  simpl in H. destruct o as [a tot| |e]; [|by destruct H..].
  destruct (make_sale_result _ _ _ _ _ _ _ _ _ _ _ _ Htrx Hrun)
    as (v & (Hcu & Hpid & Hq & _ & Hrow & Hdb & Ho) & Hborn & _ & Htrx' & _).
  simpl in Hcu, Hpid, Hq. injection Hcu as ->. injection Hpid as ->.
  injection Hq as ->. injection Ho as -> ->.
  destruct (fresh_sale_id _ _ _ _ (fresh_keys _ Hfresh) Hborn) as [Hsid _].
  destruct (sv_sid v =? 0); [by destruct H|].
  destruct H as (o2 & Hstep & H).
  apply UPDATE_Payment_mode_step in Hstep
    as [(_ & -> & _)|[(_ & -> & _)|
        (_ & -> & d' & Hw' & HP & HS & _ & HPr & _)]]; [done|done| |].
  2:{ intros s. simpl. destruct (decide (c2 = c1)) as [->|Hne].
      - rewrite lookup_insert_eq. by intros [= <-] _.
      - rewrite lookup_insert_ne by done. by apply idle_session_no_trx. }
  injection H as -> -> ->. split; [done|].
  exists (sv_cu v), (sv_pid v), (sv_q v), (mkProduct (sv_pr v) (sv_st v)),
    (NULLIF (Some sp) 0), (sv_payid v).
  simpl in HP, HS, HPr. cbn [p_salesperson_id enter_make_sale] in Hdb.
  rewrite Hw'.
  unfold set_db. cbn [db]. rewrite HS, HPr.
  do 6 (split; [done|]).
  split; [rewrite Hdb; simpl; by rewrite lookup_insert_eq|].
  split; [rewrite Hdb; simpl; by rewrite lookup_insert_eq|].
  rewrite (payments_of_SET_mode _ _ _ _ _ HP), Hdb.
  rewrite (payments_of_new_sale _ (Some sp) v Hsid Hfk), map_fmap_singleton.
  unfold SET_mode_WHERE_sale_id. simpl. by rewrite bool_decide_eq_true_2.
Qed.

(** X16.  'Sale failed' after the sale.  The CALL commits before the handler
    updates the payment mode, and an error of that update goes to the same
    [catch] as an error of the CALL.  So when the update fails in the
    storage engine the client is told 400 'Sale failed' although the sale is
    in the tables, with its stock taken and its payment in mode CASH. *)
Theorem sale_failed_reply_after_commit (c1 c2 : conn) (cu item qty sp : Z)
    (body_sp : js_number) (mode : string) (r : Product_row) (w : world)
    (s1 s2 : session) :
  sessions_ok w ->
  sessions w !! c1 = Some s1 -> call s1 = None ->
  sessions w !! c2 = Some s2 -> call s2 = None ->
  0 < cu -> 0 < item ->
  fits_INT cu = true -> fits_INT item = true -> fits_INT sp = true ->
  js_or_0 body_sp = JsInteger sp ->
  cu ∈ Customer (db (shared_state w)) ->
  (forall z, NULLIF (Some sp) 0 = Some z -> z ∈ Salesperson (db (shared_state w))) ->
  Product (db (shared_state w)) !! item = Some r ->
  lock_free_for c1 (row_locks (shared_state w)) item = true ->
  0 < qty <= Product_stock r ->
  Product_stock r <= INT_MAX ->
  0 <= Product_price r ->
  Product_price r * qty <= DECIMAL_10_2_MAX ->
  0 < next_sale_id (auto_increment (shared_state w)) ->
  exists w' pay_id,
    POST_api_sale c1 c2
      (mkRequest (JsInteger cu) (JsInteger item) (JsInteger qty) body_sp)
      mode no_fault true w
    = Some (Reply_error 400 "Sale failed" (Some ER_STORAGE_ENGINE), w') /\
    Sale (db (shared_state w')) !! next_sale_id (auto_increment (shared_state w))
      = Some (mkSale cu (NULLIF (Some sp) 0) (Product_price r * qty)) /\
    Product (db (shared_state w')) !! item
      = Some (mkProduct (Product_price r) (Product_stock r - qty)) /\
    Payment (db (shared_state w')) !! pay_id
      = Some (mkPayment (next_sale_id (auto_increment (shared_state w)))
                        "CASH" "SUCCESS").
Proof.
  intros Hok Hs1 Hcall1 Hs2 Hcall2 Hcu Hitem Fcu Fitem Fsp Hsp Hcust Hsales Hrow
    Hfree Hqty Hmax Hprice Htotal Hpos.
  pose proof (idle_session_no_trx _ _ _ Hok Hs1 Hcall1) as Htrx1.
  pose proof (idle_session_no_trx _ _ _ Hok Hs2 Hcall2) as Htrx2.
  destruct (valid_sale_run c1 cu item qty (Some sp) r (shared_state w) s1
              Hcall1 Htrx1 Hcust Hsales Hrow Hfree Hqty Hmax Hprice Htotal)
    as (sh1 & s1' & Hrun).
  destruct (make_sale_result _ _ _ _ _ _ _ _ _ _ _ _ Htrx1 Hrun)
    as (v & (Hvcu & Hvpid & Hvq & _ & Hvrow & Hdb & Ho) & _ & _ & _ & Hcall1' & _).
  simpl in Hvcu, Hvpid, Hvq. cbn [p_salesperson_id enter_make_sale] in Hdb.
  injection Hvcu as Hvcu. injection Hvpid as Hvpid. injection Hvq as Hvq.
  injection Ho as Hvsid Hvtot.
  assert (Fqty : fits_INT qty = true).
  { unfold fits_INT, INT_MIN in *. apply andb_true_iff.
    split; apply Z.leb_le; lia. }
  unfold POST_api_sale, post_sale. simpl.
  replace (cu <=? 0) with false by (symmetry; apply Z.leb_gt; lia).
  replace (item <=? 0) with false by (symmetry; apply Z.leb_gt; lia).
  replace (qty <=? 0) with false by (symmetry; apply Z.leb_gt; lia).
  simpl. rewrite Hsp, Fcu, Fitem, Fqty, Fsp. simpl. rewrite Hs1, Hrun.
  replace (_ =? 0) with false by (symmetry; apply Z.eqb_neq; lia).
  assert (Hstep : exists s,
            world_step c2
              (UPDATE_Payment_mode mode
                 (next_sale_id (auto_increment (shared_state w))) true)
              (mkWorld sh1 (<[c1:=s1']> (sessions w)))
            = Some (mkWorld sh1 (<[c2:=s]> (<[c1:=s1']> (sessions w))),
                    Some (Raised ER_STORAGE_ENGINE))).
  { unfold world_step. simpl. destruct (decide (c2 = c1)) as [->|Hne].
    - rewrite lookup_insert_eq. unfold perform, autocommit_statement.
      rewrite Hcall1'. eauto.
    - rewrite lookup_insert_ne by done. rewrite Hs2.
      unfold perform, autocommit_statement. rewrite Hcall2. eauto. }
  destruct Hstep as (s & ->).
  eexists _, (sv_payid v). split; [reflexivity|]. simpl. rewrite Hdb. simpl.
  rewrite Hvpid in Hrow. rewrite Hrow in Hvrow.
  rewrite Hvsid, Hvpid, Hvcu, Hvq, !lookup_insert_eq.
  destruct r as [pr st]. injection Hvrow as -> ->. done.
Qed.

(** ** Row locks in a run of the server *)

Lemma acquire_lookup (c c' : conn) (pids : list Z) (locks : gmap Z conn) (pid : Z) :
  acquire c pids locks !! pid = Some c' ->
  locks !! pid = Some c' \/ (c' = c /\ pid ∈ pids).
Proof.
  induction pids as [|p pids IH]; simpl; [by left|].
  destruct (decide (p = pid)) as [->|Hne].
  - rewrite lookup_insert_eq. intros [= <-]. right. split; [done|]. by left.
  - rewrite lookup_insert_ne by done. intros H.
    destruct (IH H) as [?|[? ?]]; [by left|]. right. split; [done|]. by right.
Qed.

Lemma write_rows_locks (c : conn) (ws : list write) (sh sh1 : shared)
    (s s1 : session) (pid : Z) (c' : conn) :
  write_rows c ws sh s = Some (sh1, s1) ->
  row_locks sh1 !! pid = Some c' ->
  row_locks sh !! pid = Some c' \/ (c' = c /\ pid ∈ written_products ws).
Proof.
  unfold write_rows. destruct (forallb _ _); [|done].
  destruct (trx s); intros [= <- <-]; simpl; [|by left].
  apply acquire_lookup.
Qed.

Lemma storage_statement_goes (c : conn) (fault : bool)
    (stmt : sql_result (list write)) (sh : shared) (s : session)
    (k : shared -> session -> step_result) (sh' : shared) (s' : session) :
  storage_statement c fault stmt sh s k = Goes sh' s' ->
  exists ws sh1 s1, stmt = Ok ws /\ write_rows c ws sh s = Some (sh1, s1) /\
                    k sh1 s1 = Goes sh' s'.
Proof.
  unfold storage_statement, EXIT_HANDLER, ROLLBACK. intros H.
  destruct fault; [done|]. destruct stmt as [ws|e]; [|done].
  destruct (write_rows c ws sh s) as [[sh1 s1]|] eqn:Hw; [|done].
  by exists ws, sh1, s1.
Qed.

(** The [Product] rows a statement of the call writes: none, or the row of
    the call's item. *)
Lemma make_sale_statement_products (f : frame) (sh : shared) (s : session)
    (ws : list write) (pid : Z) :
  match pc f with
  | L154_INSERT_Sale =>
      INSERT_INTO_Sale (next_sale_id (auto_increment sh)) (p_customer_id f)
        (NULLIF (p_salesperson_id f) 0) 0 (view sh s) = Ok ws
  | L166_INSERT_Sale_Item =>
      (sid <-- NOT_NULL (v_sale_id f);;
       pid <-- NOT_NULL (p_product_id f);;
       q <-- NOT_NULL (p_quantity f);;
       pr <-- NOT_NULL (v_price f);;
       INSERT_INTO_Sale_Item (from_make_sale s)
         (next_sale_item_id (auto_increment sh)) (mkSale_Item sid pid q pr)
         (view sh s)) = Ok ws
  | L172_UPDATE_Product =>
      match p_product_id f with
      | None => Ok []
      | Some pid =>
          q <-- NOT_NULL (p_quantity f);;
          UPDATE_Product_SET_stock pid q (view sh s)
      end = Ok ws
  | L178_UPDATE_Sale =>
      match v_sale_id f with
      | None => Ok []
      | Some sid => UPDATE_Sale_SET_total_amount sid (v_total f) (view sh s)
      end = Ok ws
  | L183_INSERT_Payment =>
      INSERT_INTO_Payment (next_payment_id (auto_increment sh)) (v_sale_id f)
        "CASH" "SUCCESS" (view sh s) = Ok ws
  | _ => False
  end ->
  pid ∈ written_products ws -> p_product_id f = Some pid.
Proof.
  destruct (pc f); try done.
  - unfold INSERT_INTO_Sale, NOT_NULL, sql_bind. intros H Hin.
    repeat case_match; simplify_eq; by apply elem_of_nil in Hin.
  - unfold NOT_NULL, sql_bind. intros H Hin.
    destruct (v_sale_id f) as [sid|]; [|done].
    destruct (p_product_id f) as [p|]; [|done].
    destruct (p_quantity f) as [q|]; [|done].
    destruct (v_price f) as [pr|]; [|done].
    apply INSERT_INTO_Sale_Item_writes in H as (fired & -> & Htrg).
    apply trg_sale_item_after_insert_writes in Htrg
      as [->|(r0 & _ & _ & _ & ->)]; simpl in Hin.
    + by apply elem_of_nil in Hin.
    + apply list_elem_of_singleton in Hin. by subst.
  - unfold NOT_NULL, sql_bind. intros H Hin.
    destruct (p_product_id f) as [p|]; [|simplify_eq; by apply elem_of_nil in Hin].
    destruct (p_quantity f) as [q|]; [|done].
    apply UPDATE_Product_SET_stock_writes in H as [[-> _]|(r0 & _ & ->)];
      simpl in Hin.
    + by apply elem_of_nil in Hin.
    + apply list_elem_of_singleton in Hin. by subst.
  - unfold UPDATE_Sale_SET_total_amount, NOT_NULL, sql_bind. intros H Hin.
    repeat case_match; simplify_eq; by apply elem_of_nil in Hin.
  - unfold INSERT_INTO_Payment, NOT_NULL, sql_bind. intros H Hin.
    repeat case_match; simplify_eq; by apply elem_of_nil in Hin.
Qed.

(** The row locks after a statement of a call that goes on. *)
Lemma step_make_sale_lock_owner (c : conn) (fault : bool) (f : frame)
    (sh : shared) (s : session) (sh' : shared) (s' : session) :
  step_make_sale c fault f sh s = Goes sh' s' ->
  (exists f', call s' = Some f' /\ idx (pc f') = S (idx (pc f)) /\
              p_product_id f' = p_product_id f) /\
  (forall pid c', row_locks sh' !! pid = Some c' ->
     (row_locks sh !! pid = Some c' /\ (c' = c -> idx (pc f) <> 14%nat)) \/
     (c' = c /\ p_product_id f = Some pid /\ (2 <= idx (pc f) <= 13)%nat)).
Proof.
  intros Hstep. unfold step_make_sale in Hstep.
  pose proof (make_sale_statement_products f sh s) as Hprod.
  destruct f as [l pcu ppid pq psp vpr vst vsid vtot]. simpl in *.
  destruct l; simpl in *;
    try (apply storage_statement_goes in Hstep
           as (ws & sh1 & s1 & Hstmt & Hw & Hk);
         unfold continue in Hk; injection Hk as <- <-; simpl;
         split; [eexists; simpl; done|];
         intros pid c' Hl;
         destruct (write_rows_locks _ _ _ _ _ _ pid c' Hw Hl) as [?|[-> Hin]];
         [left; split; [done|lia]
         |right; split; [done|]; split; [by eapply Hprod|lia]]).
  - destruct (match pq with Some q => q <=? 0 | None => true end); [done|].
    unfold continue in Hstep. injection Hstep as <- <-. simpl.
    split; [eexists; simpl; done|]. intros pid c' Hl. left. split; [done|lia].
  - destruct fault; [done|]. unfold START_TRANSACTION, COMMIT, continue in Hstep.
    injection Hstep as <- <-. simpl.
    split; [eexists; simpl; done|]. intros pid c' Hl.
    apply release_lookup in Hl as [Hl Hne]. left. split; [done|lia].
  - destruct fault; [done|]. unfold continue in Hstep.
    destruct ppid as [pid0|].
    2:{ injection Hstep as <- <-. simpl. split; [eexists; simpl; done|].
        intros pid c' Hl. left. split; [done|lia]. }
    destruct (Product (view sh s) !! pid0) as [r|].
    2:{ injection Hstep as <- <-. simpl. split; [eexists; simpl; done|].
        intros pid c' Hl. left. split; [done|lia]. }
    destruct (lock_free_for c (row_locks sh) pid0); [|done].
    injection Hstep as <- <-. simpl. split; [eexists; simpl; done|].
    intros pid c' Hl. destruct (decide (pid0 = pid)) as [->|Hne].
    + rewrite lookup_insert_eq in Hl. injection Hl as <-.
      right. split; [done|]. split; [done|lia].
    + rewrite lookup_insert_ne in Hl by done. left. split; [done|lia].
  - destruct vpr; [|done]. unfold continue in Hstep. injection Hstep as <- <-.
    simpl. split; [eexists; simpl; done|]. intros pid c' Hl. left. split; [done|lia].
  - destruct (sql_lt vst pq); [done|]. unfold continue in Hstep.
    injection Hstep as <- <-. simpl.
    split; [eexists; simpl; done|]. intros pid c' Hl. left. split; [done|lia].
  - unfold continue in Hstep. injection Hstep as <- <-. simpl.
    split; [eexists; simpl; done|]. intros pid c' Hl. left. split; [done|lia].
  - unfold continue in Hstep. injection Hstep as <- <-. simpl.
    split; [eexists; simpl; done|]. intros pid c' Hl. left. split; [done|lia].
  - unfold continue in Hstep. injection Hstep as <- <-. simpl.
    split; [eexists; simpl; done|]. intros pid c' Hl. left. split; [done|lia].
  - unfold continue, EXIT_HANDLER, ROLLBACK in Hstep.
    repeat case_match; simplify_eq; simpl;
      (split; [eexists; simpl; done|]); intros pid c' Hl; left; (split; [done|lia]).
  - destruct fault; [done|]. unfold COMMIT, continue in Hstep.
    injection Hstep as <- <-. simpl.
    split; [eexists; simpl; done|]. intros pid c' Hl.
    apply release_lookup in Hl as [Hl Hne]. left. split; [done|]. done.
  - done.
Qed.

Lemma locks_owned_after (w : world) (c : conn) (sh' : shared) (s' : session) :
  locks_owned w ->
  (forall pid c', c' <> c -> row_locks sh' !! pid = Some c' ->
                  row_locks (shared_state w) !! pid = Some c') ->
  (forall pid, row_locks sh' !! pid = Some c ->
     exists f', call s' = Some f' /\ p_product_id f' = Some pid /\
                (3 <= idx (pc f') <= 14)%nat) ->
  locks_owned (mkWorld sh' (<[c := s']> (sessions w))).
Proof.
  intros Hown Hother Hself pid c' Hl. simpl in *.
  destruct (decide (c' = c)) as [->|Hne].
  - destruct (Hself pid Hl) as (f' & ? & ? & ?).
    exists s', f'. by rewrite lookup_insert_eq.
  - destruct (Hown pid c' (Hother pid c' Hne Hl)) as (s0 & f0 & ? & ?).
    exists s0, f0. by rewrite lookup_insert_ne.
Qed.

Lemma autocommit_statement_locks (c : conn) (fault : bool)
    (stmt : sql_result (list write)) (sh : shared) (s : session)
    (k : shared -> session -> shared * session) (r : step_result) :
  trx s = None ->
  (forall sh1 s1, row_locks (k sh1 s1).1 = row_locks sh1 /\
                  call (k sh1 s1).2 = call s1) ->
  autocommit_statement c fault stmt sh s k = r ->
  match r with
  | Waits => True
  | Goes sh' s' | Ends sh' s' _ =>
      row_locks sh' = row_locks sh /\ call s' = call s
  end.
Proof.
  intros Htrx Hk <-. unfold autocommit_statement, write_rows.
  destruct fault; [done|]. destruct stmt as [ws|e]; [|done].
  destruct (forallb _ _); [|done]. rewrite Htrx.
  specialize (Hk (set_db (apply_writes (db sh) ws) sh) s).
  destruct (k _ _) as [sh2 s2]. simpl in Hk. done.
Qed.

Lemma step_locks_owned (w w' : world) :
  sessions_ok w -> locks_owned w -> step w w' -> locks_owned w'.
Proof.
  intros Hok Hown (c & a & o & Hstep). unfold world_step in Hstep.
  destruct (sessions w !! c) as [s|] eqn:Hs; [|done].
  assert (Hidle : call s = None ->
            forall pid, row_locks (shared_state w) !! pid <> Some c).
  { intros Hcall pid Hl. destruct (Hown pid c Hl) as (s0 & f0 & Hs0 & Hc0 & _).
    congruence. }
  assert (Hsame : forall sh' s',
            row_locks sh' = row_locks (shared_state w) ->
            call s = None \/
              (exists f f', call s = Some f /\ call s' = Some f' /\
                 p_product_id f' = p_product_id f /\ pc f' = pc f) ->
            locks_owned (mkWorld sh' (<[c := s']> (sessions w)))).
  { intros sh' s' Hl Hcase. apply locks_owned_after; [done|..].
    - intros pid c' _. by rewrite Hl.
    - intros pid. rewrite Hl. intros Hpid.
      destruct Hcase as [Hcall|(f & f' & Hcall & Hcall' & Hp & Hpc)].
      + by destruct (Hidle Hcall pid).
      + destruct (Hown pid c Hpid) as (s0 & f0 & Hs0 & Hc0 & ? & ?).
        assert (f0 = f) as -> by congruence.
        exists f'. rewrite Hp, Hpc. done. }
  destruct (perform c a (shared_state w) s) as [|sh' s'|sh' s' o'] eqn:Hperf;
    [done|injection Hstep as <- <-..].
  - unfold perform in Hperf.
    destruct a as [cu p q sp|fault|NEW fault|mode sid fault|p price fault],
      (call s) as [f|] eqn:Hcall; try done.
    + unfold continue in Hperf. injection Hperf as <- <-.
      apply Hsame; [done|by left].
    + destruct (step_make_sale_lock_owner _ _ _ _ _ _ _ Hperf)
        as [(f' & Hcall' & Hidx & Hp) Hlocks].
      apply locks_owned_after; [done|..].
      * intros pid c' Hne Hl.
        destruct (Hlocks pid c' Hl) as [[? _]|[? _]]; done.
      * intros pid Hl. exists f'. split; [done|].
        destruct (Hlocks pid c Hl) as [[Hold Hnot]|(_ & Hpid & Hrange)].
        -- destruct (Hown pid c Hold) as (s0 & f0 & Hs0 & Hc0 & ? & ?).
           assert (s0 = s) as -> by congruence.
           assert (f0 = f) as -> by congruence.
           specialize (Hnot eq_refl). rewrite Hp. split; [done|lia].
        -- rewrite Hp. split; [done|lia].
    + apply (autocommit_statement_locks _ _ _ _ _ _ _
               (idle_session_no_trx _ _ _ Hok Hs Hcall)) in Hperf as [Hl _];
        [|done]. apply Hsame; [done|by left].
    + apply (autocommit_statement_locks _ _ _ _ _ _ _
               (idle_session_no_trx _ _ _ Hok Hs Hcall)) in Hperf as [Hl _];
        [|done]. apply Hsame; [done|by left].
    + apply (autocommit_statement_locks _ _ _ _ _ _ _
               (idle_session_no_trx _ _ _ Hok Hs Hcall)) in Hperf as [Hl _];
        [|done]. apply Hsame; [done|by left].
  - unfold perform in Hperf.
    destruct a as [cu p q sp|fault|NEW fault|mode sid fault|p price fault],
      (call s) as [f|] eqn:Hcall; try done.
    + apply step_make_sale_ends in Hperf
        as [(e & _ & _ & -> & ->)|(Hpc & _ & -> & ->)].
      * apply locks_owned_after; [done|..]; simpl.
        -- intros pid c' _ Hl. by apply release_lookup in Hl as [? _].
        -- intros pid Hl. by apply release_lookup in Hl as [_ ?].
      * apply locks_owned_after; [done|..]; simpl; [done|].
        intros pid Hl. destruct (Hown pid c Hl) as (s0 & f0 & Hs0 & Hc0 & _ & ?).
        assert (f0 = f) as -> by congruence. rewrite Hpc in *. simpl in *. lia.
    + apply (autocommit_statement_locks _ _ _ _ _ _ _
               (idle_session_no_trx _ _ _ Hok Hs Hcall)) in Hperf as [Hl _];
        [|done]. apply Hsame; [done|by left].
    + apply (autocommit_statement_locks _ _ _ _ _ _ _
               (idle_session_no_trx _ _ _ Hok Hs Hcall)) in Hperf as [Hl _];
        [|done]. apply Hsame; [done|by left].
    + apply (autocommit_statement_locks _ _ _ _ _ _ _
               (idle_session_no_trx _ _ _ Hok Hs Hcall)) in Hperf as [Hl _];
        [|done]. apply Hsame; [done|by left].
Qed.

Lemma reachable_locks_owned (w w' : world) :
  sessions_ok w -> locks_owned w -> reachable w w' -> locks_owned w'.
Proof.
  intros Hok Hown Hreach. induction Hreach as [|w1 w2 w3 Hstep _ IH]; [done|].
  apply IH; [by eapply step_sessions_ok | by eapply step_locks_owned].
Qed.

Lemma quiescent_locks_owned (w : world) : quiescent w -> locks_owned w.
Proof. intros [Hl _] pid c H. by rewrite Hl, lookup_empty in H. Qed.

(** X17.  Who holds the row locks.  In every state the server reaches, each
    locked [Product] row is locked by a call that is running, has passed its
    [SELECT ... FOR UPDATE] and has not passed its COMMIT, and the row is
    the row of that call's item.  So an idle connection holds no lock, no
    lock outlives its call, and no call holds two. *)
Theorem locks_belong_to_running_calls (w w' : world) :
  sessions_ok w -> locks_owned w -> reachable w w' -> locks_owned w'.
Proof. apply reachable_locks_owned. Qed.

Lemma forallb_false_elem {A} (p : A -> bool) (l : list A) :
  forallb p l = false -> exists x, x ∈ l /\ p x = false.
Proof.
  induction l as [|x l IH]; simpl; [done|].
  destruct (p x) eqn:Hx; simpl.
  - intros H. destruct (IH H) as (y & ? & ?). exists y. split; [by right|done].
  - intros _. exists x. split; [by left|done].
Qed.

Lemma write_rows_waits (c : conn) (ws : list write) (sh : shared) (s : session) :
  write_rows c ws sh s = None ->
  exists pid c2, pid ∈ written_products ws /\
                 row_locks sh !! pid = Some c2 /\ c2 <> c.
Proof.
  unfold write_rows. destruct (forallb _ _) eqn:Hall; [by destruct (trx s)|].
  intros _. apply forallb_false_elem in Hall as (pid & Hin & Hfree).
  unfold lock_free_for in Hfree.
  destruct (row_locks sh !! pid) as [c2|] eqn:Hl; [|done].
  apply bool_decide_eq_false in Hfree. by exists pid, c2.
Qed.

Lemma storage_statement_waits (c : conn) (fault : bool)
    (stmt : sql_result (list write)) (sh : shared) (s : session)
    (k : shared -> session -> step_result) :
  (forall sh1 s1, k sh1 s1 <> Waits) ->
  storage_statement c fault stmt sh s k = Waits ->
  exists ws, stmt = Ok ws /\ write_rows c ws sh s = None.
Proof.
  unfold storage_statement, EXIT_HANDLER, ROLLBACK. intros Hk H.
  destruct fault; [done|]. destruct stmt as [ws|e]; [|done].
  destruct (write_rows c ws sh s) as [[sh1 s1]|] eqn:Hw; [by apply Hk in H|].
  by exists ws.
Qed.

(** A statement of a call waits only for the lock of the row of the call's
    item, held by another session. *)
Lemma step_make_sale_waits_for (c : conn) (fault : bool) (f : frame)
    (sh : shared) (s : session) :
  step_make_sale c fault f sh s = Waits ->
  (idx (pc f) = 2%nat \/ (5 <= idx (pc f) <= 13)%nat) /\
  exists pid c2, p_product_id f = Some pid /\
                 row_locks sh !! pid = Some c2 /\ c2 <> c.
Proof.
  intros Hstep. unfold step_make_sale in Hstep.
  pose proof (make_sale_statement_products f sh s) as Hprod.
  destruct f as [l pcu ppid pq psp vpr vst vsid vtot]. simpl in *.
  destruct l; simpl in *;
    try (apply storage_statement_waits in Hstep as (ws & Hstmt & Hw);
         [|by unfold continue];
         apply write_rows_waits in Hw as (pid & c2 & Hin & Hl & Hne);
         split; [right; lia|]; exists pid, c2;
         split; [by eapply Hprod|done]);
    unfold continue, EXIT_HANDLER, START_TRANSACTION, COMMIT, ROLLBACK in Hstep;
    try (by repeat case_match).
  destruct fault; [done|]. destruct ppid as [pid|]; [|done].
  destruct (Product (view sh s) !! pid); [|done].
  unfold lock_free_for in Hstep.
  destruct (row_locks sh !! pid) as [c2|] eqn:Hl; [|done].
  destruct (bool_decide (c2 = c)) eqn:Hc2; [done|].
  apply bool_decide_eq_false in Hc2. split; [by left|]. by exists pid, c2.
Qed.

(** Past its locking read a call never waits. *)
Lemma step_make_sale_goes_on (c : conn) (fault : bool) (f : frame)
    (sh : shared) (s : session) (v : sale_vars) :
  shape c sh s f v -> (3 <= idx (pc f))%nat ->
  step_make_sale c fault f sh s <> Waits.
Proof.
  intros Hshape Hidx Hstep.
  apply step_make_sale_waits_for in Hstep
    as [[?|Hidx'] (pid & c2 & Hpid & Hl & Hne)]; [lia|].
  assert (Hrange : (4 <= idx (pc f) <= 14)%nat) by lia.
  destruct (shape_locked _ _ _ _ _ Hshape Hrange) as (Hp & _ & _ & _ & Hlock).
  congruence.
Qed.

(** X18.  Calls do not deadlock.  A statement of a call waits only at the
    locking read or at a write of the row of its item, and only while
    another session holds the lock of that row; past its locking read a call
    never waits.  So in every state in which some call is running, some
    running call can execute its next statement. *)
Theorem some_call_can_always_go_on (w : world) (c : conn) (s : session)
    (f : frame) :
  sessions_ok w -> locks_owned w ->
  sessions w !! c = Some s -> call s = Some f ->
  exists c2 w' o, world_step c2 (Next_statement false) w = Some (w', o).
Proof.
  intros Hok Hown Hs Hcall.
  assert (Hgo : forall c2 s2 f2,
            sessions w !! c2 = Some s2 -> call s2 = Some f2 ->
            step_make_sale c2 false f2 (shared_state w) s2 <> Waits ->
            exists w' o, world_step c2 (Next_statement false) w = Some (w', o)).
  { intros c2 s2 f2 Hs2 Hcall2 Hnw. unfold world_step, perform.
    rewrite Hs2, Hcall2.
    destruct (step_make_sale c2 false f2 (shared_state w) s2); [done|eauto..]. }
  destruct (step_make_sale c false f (shared_state w) s) eqn:Hstep.
  - apply step_make_sale_waits_for in Hstep as [_ (pid & c2 & _ & Hl & _)].
    destruct (Hown pid c2 Hl) as (s2 & f2 & Hs2 & Hcall2 & _ & Hidx).
    pose proof (Hok _ _ Hs2) as Hok2. unfold session_ok in Hok2.
    rewrite Hcall2 in Hok2. destruct Hok2 as [v2 Hshape2].
    exists c2. eapply Hgo; [done..|].
    eapply step_make_sale_goes_on; [done|lia].
  - exists c. eapply Hgo; [done..|]. by rewrite Hstep.
  - exists c. eapply Hgo; [done..|]. by rewrite Hstep.
Qed.

(** X19.  The COMMIT of a call in a run of the server.  Whatever the other
    sessions did in the meantime, the COMMIT of a call takes the quantity
    off the stock that is committed at that moment, which is at least the
    quantity, keeps the price, and changes no other [Product] row: no
    update of a stock is lost. *)
Theorem commit_takes_quantity_off_committed_stock (w w' : world) (c : conn)
    (s : session) (f : frame) (o : option outcome) :
  sessions_ok w ->
  sessions w !! c = Some s -> call s = Some f -> pc f = L186_COMMIT ->
  world_step c (Next_statement false) w = Some (w', o) ->
  exists item qty r,
    p_product_id f = Some item /\ p_quantity f = Some qty /\
    Product (db (shared_state w)) !! item = Some r /\
    0 < qty <= Product_stock r /\
    Product (db (shared_state w'))
    = <[item := mkProduct (Product_price r) (Product_stock r - qty)]>
        (Product (db (shared_state w))).
Proof.
  intros Hok Hs Hcall Hpc Hstep.
  pose proof (Hok _ _ Hs) as Hshape. unfold session_ok in Hshape.
  rewrite Hcall in Hshape. destruct Hshape as [v Hshape].
  unfold world_step, perform in Hstep. rewrite Hs, Hcall in Hstep.
  destruct f as [l pcu ppid pq psp vpr vst vsid vtot]. simpl in Hpc. subst l.
  use_shape Hshape. unfold step_make_sale, COMMIT, continue, view in Hstep.
  simpl in Hstep. rewrite Htrx in Hstep. simpl in Hstep.
  injection Hstep as <- <-. simpl.
  destruct Hlocked as (-> & -> & -> & Hrow & Hlock). destruct Hq as [-> Hq].
  exists (sv_pid v), (sv_q v), (mkProduct (sv_pr v) (sv_st v)).
  simpl. repeat split; try done; lia.
Qed.

(** ** The flag after a call *)

Lemma make_sale_signal_flag (c : conn) (cu pid q sp : option Z)
    (faults : label -> bool) (sh : shared) (s : session)
    (m : string) (sh' : shared) (s' : session) :
  trx s = None ->
  make_sale c cu pid q sp faults sh s = Some (Raised (SIGNAL_45000 m), sh', s') ->
  from_make_sale s' = from_make_sale s.
Proof.
  destruct s as [flag lid t cl], sh as [d [ns ni np] locks]. simpl.
  intros Htrx. subst t. unfold make_sale. simpl.
  destruct cl; [done|]. norm.
  forward_norm.
  destruct q as [z|]; [|by intros [= <- <- <-]].
  destruct (z <=? 0) eqn:Hz; [by intros [= <- <- <-]|].
  apply Z.leb_gt in Hz.
  forward_norm. destruct (faults L139_START_TRANSACTION); [done|].
  forward_norm. destruct (faults L141_SELECT_FOR_UPDATE); [done|].
  destruct pid as [item|].
  2:{ forward_norm. by intros [= <- <- <-]. }
  simpl. destruct (Product d !! item) as [r|] eqn:Hrow.
  2:{ forward_norm. by intros [= <- <- <-]. }
  destruct (lock_free_for c (release c locks) item) eqn:Hfree; [|done].
  forward_norm. forward_norm.
  unfold sql_lt. destruct (Product_stock r <? z) eqn:Hlt;
    [by intros [= <- <- <-]|].
  apply Z.ltb_ge in Hlt. intros Hrun. exfalso.
  eapply run_make_sale_late_error
    with (v := mkVars item z (Product_price r) (Product_stock r) 0 0 0 0)
         (m := m) in Hrun; [done|reflexivity| |simpl; lia].
  prove_shape. rewrite product_row_eta. split; [done|].
  split; [done|]. split; [done|]. split; [done|]. apply lookup_insert_eq.
Qed.

(** The flag along a call: line 163 sets it to 1, line 169 to 0, and no
    other statement, nor the handler, assigns it.  The three SET statements
    neither fail nor wait. *)
Lemma step_make_sale_flag (c : conn) (fault : bool) (f : frame)
    (sh : shared) (s : session) :
  match step_make_sale c fault f sh s with
  | Goes sh' s' =>
      exists f', call s' = Some f' /\ idx (pc f') = S (idx (pc f)) /\
        from_make_sale s'
        = match pc f with
          | L163_SET_from_make_sale_1 => Some 1
          | L169_SET_from_make_sale_0 => Some 0
          | _ => from_make_sale s
          end
  | Waits =>
      pc f <> L157_SET_v_sale_id /\ pc f <> L163_SET_from_make_sale_1 /\
      pc f <> L169_SET_from_make_sale_0
  | Ends sh' s' _ =>
      from_make_sale s' = from_make_sale s /\
      pc f <> L157_SET_v_sale_id /\ pc f <> L163_SET_from_make_sale_1 /\
      pc f <> L169_SET_from_make_sale_0
  end.
Proof.
  destruct f as [l pc0 pp pq ps vpr vst vsid vtot], s as [flag lid t cl].
  unfold step_make_sale, storage_statement, write_rows, continue,
    EXIT_HANDLER, ROLLBACK, START_TRANSACTION, COMMIT.
  destruct l; cbn [pc]; repeat case_match; simplify_eq; simpl;
    try (eexists; split; [reflexivity|]); done.
Qed.

Lemma run_make_sale_at_flag (fuel : nat) (c : conn) (faults : label -> bool)
    (sh : shared) (s : session) (f : frame) (before : option Z)
    (l : label) (o : outcome) (sh' : shared) (s' : session) :
  call s = Some f -> from_make_sale s = flag_at (pc f) before ->
  run_make_sale_at fuel c faults sh s = Some (l, o, sh', s') ->
  from_make_sale s' = flag_at l before /\
  l <> L157_SET_v_sale_id /\ l <> L163_SET_from_make_sale_1 /\
  l <> L169_SET_from_make_sale_0.
Proof.
  revert sh s f. induction fuel as [|fuel IH]; intros sh s f Hcall Hflag; [done|].
  simpl. rewrite Hcall.
  pose proof (step_make_sale_flag c (faults (pc f)) f sh s) as Hstep.
  destruct (step_make_sale c (faults (pc f)) f sh s) as [|sh1 s1|sh1 s1 o1]; simpl.
  - unfold EXIT_HANDLER, ROLLBACK. intros [= <- <- <- <-]. simpl.
    by rewrite Hflag.
  - destruct Hstep as (f' & Hcall' & Hidx & Hflag').
    apply (IH sh1 s1 f' Hcall'). rewrite Hflag', Hflag. unfold flag_at.
    rewrite Hidx. by destruct (pc f).
  - intros [= <- <- <- <-]. destruct Hstep as [-> Hl]. by rewrite Hflag.
Qed.

Lemma run_make_sale_at_agrees (fuel : nat) (c : conn) (faults : label -> bool)
    (sh : shared) (s : session) (o : outcome) (sh' : shared) (s' : session) :
  run_make_sale fuel c faults sh s = Some (o, sh', s') ->
  exists l, run_make_sale_at fuel c faults sh s = Some (l, o, sh', s').
Proof.
  revert sh s. induction fuel as [|fuel IH]; intros sh s; [done|].
  destruct (call s) as [f|] eqn:Hcall;
    [|unfold run_make_sale; by rewrite Hcall].
  rewrite (run_make_sale_S _ _ _ _ _ f Hcall). simpl. rewrite Hcall.
  destruct (or_timeout _ _ _ _) as [|sh1 s1|sh1 s1 o1]; [done|apply IH|].
  intros [= <- <- <-]. by exists (pc f).
Qed.

(** X20.  The flag after a call.  A call that returns its result row leaves
    [@from_make_sale] at 0, and a call refused with one of the procedure's
    three messages leaves it as it was.  So after such calls the trigger
    acts on the connection's own inserts into [Sale_Item] whenever it did
    before.  In general the flag after a call is fixed by the statement the
    call ended at: as before the call up to the insert of line 154, 1 at the
    insert of line 166, that is between the assignments of lines 163 and
    169, and 0 from line 172 on; no call ends at an assignment (lines 157,
    163, 169).  So the flag stays at 1 only when the call fails at line
    166. *)
Theorem ordinary_calls_leave_the_guard_on (c : conn) (cu pid q sp : option Z)
    (faults : label -> bool) (sh : shared) (s : session)
    (o : outcome) (sh' : shared) (s' : session) :
  trx s = None ->
  make_sale c cu pid q sp faults sh s = Some (o, sh', s') ->
  match o with
  | Result_row _ _ => from_make_sale s' = Some 0
  | Raised (SIGNAL_45000 _) => from_make_sale s' = from_make_sale s
  | _ => True
  end /\
  exists l,
    make_sale_at c cu pid q sp faults sh s = Some (l, o, sh', s') /\
    match l with
    | L135_IF_quantity | L139_START_TRANSACTION | L141_SELECT_FOR_UPDATE
    | L146_IF_price_IS_NULL | L150_IF_stock | L154_INSERT_Sale =>
        from_make_sale s' = from_make_sale s
    | L166_INSERT_Sale_Item => from_make_sale s' = Some 1
    | L172_UPDATE_Product | L176_SET_v_total | L178_UPDATE_Sale
    | L183_INSERT_Payment | L186_COMMIT | L189_SELECT_result =>
        from_make_sale s' = Some 0
    | L157_SET_v_sale_id | L163_SET_from_make_sale_1
    | L169_SET_from_make_sale_0 => False
    end.
Proof.
  intros Htrx Hrun. split.
  - destruct o as [a b| |[m| | | | | |]]; try done.
    + by destruct (make_sale_result _ _ _ _ _ _ _ _ _ _ _ _ Htrx Hrun)
        as (_ & _ & _ & _ & _ & _ & ?).
    + by eapply make_sale_signal_flag.
  - unfold make_sale in Hrun. unfold make_sale_at.
    destruct (call s); [done|].
    apply run_make_sale_at_agrees in Hrun as [l Hat]. exists l.
    split; [exact Hat|].
    eapply run_make_sale_at_flag with (before := from_make_sale s) in Hat
      as (Hflag & H1 & H2 & H3); [|reflexivity|reflexivity].
    destruct l; done.
Qed.

(** ** What stays as it is *)

Lemma effect_Sale_kept (c : conn) (sh : shared) (s : session) (sh' : shared)
    (s' : session) (k : Z) (r : Sale_row) :
  effect c sh s sh' s' ->
  (forall x, x ∈ pending s -> pending_fresh (db sh) (auto_increment sh) x) ->
  Sale (db sh) !! k = Some r -> Sale (db sh') !! k = Some r.
Proof.
  intros [f f' v v' _ _ _ _ _ Hdb _ _ _
         |f v _ Hpc Hshape -> ->
         | -> ->
         |f _ _ _ -> ->
         |cu p q sp _ _ -> ->
         | -> ->
         |ws n' _ _ Haw _ -> _ _ _] Hpend Hk; try done.
  - by rewrite Hdb.
  - destruct f as [l ? ? ? sp ? ? ? ?]. simpl in Hpc. subst l. use_shape Hshape.
    unfold pending in Hpend. rewrite Htrx in Hpend. simpl.
    assert (Hi : pending_fresh (db sh) (auto_increment sh)
                   (Ins_Sale (sv_sid v) (mkSale (sv_cu v) (NULLIF sp 0) 0)))
      by (apply Hpend; repeat constructor).
    simpl in Hi. destruct Hi as [_ Hi].
    rewrite !lookup_insert_ne; [done|congruence..].
  - simpl. destruct (Sale_apply_writes ws (db sh) k) as [->|(r0 & [Hin|Hin] & _)];
      [done|..]; by destruct (autocommit_writes_kinds _ _ _ _ _ Haw Hin).
Qed.

Lemma effect_Payment_kept (c : conn) (sh : shared) (s : session) (sh' : shared)
    (s' : session) (k : Z) (r : Payment_row) :
  effect c sh s sh' s' ->
  (forall x, x ∈ pending s -> pending_fresh (db sh) (auto_increment sh) x) ->
  Payment (db sh) !! k = Some r ->
  exists r', Payment (db sh') !! k = Some r' /\
             Payment_sale_id r' = Payment_sale_id r /\
             Payment_status r' = Payment_status r.
Proof.
  intros [f f' v v' _ _ _ _ _ Hdb _ _ _
         |f v _ Hpc Hshape -> ->
         | -> ->
         |f _ _ _ -> ->
         |cu p q sp _ _ -> ->
         | -> ->
         |ws n' _ _ Haw _ -> _ _ _] Hpend Hk; try (by exists r).
  - exists r. by rewrite Hdb.
  - destruct f as [l ? ? ? sp ? ? ? ?]. simpl in Hpc. subst l. use_shape Hshape.
    unfold pending in Hpend. rewrite Htrx in Hpend. simpl.
    assert (Hi : pending_fresh (db sh) (auto_increment sh)
                   (Ins_Payment (sv_payid v)
                      (mkPayment (sv_sid v) "CASH" "SUCCESS")))
      by (apply Hpend; repeat constructor).
    simpl in Hi. destruct Hi as [_ Hi]. exists r.
    rewrite lookup_insert_ne; [done|congruence].
  - simpl.
    destruct (Payment_apply_writes ws (db sh) k) as [->|(r0 & [Hin|Hin] & ->)];
      [by exists r|..];
      pose proof (autocommit_writes_kinds _ _ _ _ _ Haw Hin) as Hkind;
      simpl in Hkind; [done|].
    destruct Hkind as (_ & r1 & Hr1 & ? & ?). exists r0.
    assert (r1 = r) as -> by congruence. done.
Qed.

(** Committed [Sale] rows stay as they are, and [Payment] rows keep their
    key, sale and status. *)
Lemma reachable_rows_kept (w w' : world) :
  well_formed w -> reachable w w' ->
  (forall k r, Sale (db (shared_state w)) !! k = Some r ->
               Sale (db (shared_state w')) !! k = Some r) /\
  (forall k r, Payment (db (shared_state w)) !! k = Some r ->
     exists r', Payment (db (shared_state w')) !! k = Some r' /\
                Payment_sale_id r' = Payment_sale_id r /\
                Payment_status r' = Payment_status r).
Proof.
  intros Hwf Hreach. induction Hreach as [|w1 w2 w3 Hstep _ IH].
  { split; [done|]. intros k r Hk. by exists r. }
  destruct (IH (step_well_formed _ _ Hstep Hwf)) as [IHS IHP].
  destruct Hwf as [Hok [Hkeys Hpend _]].
  destruct Hstep as (c & a & o & Hstep).
  destruct (world_step_effect _ _ _ _ _ Hok Hstep) as (s & s' & Hs & _ & Heff).
  split.
  - intros k r Hk. apply IHS.
    exact (effect_Sale_kept _ _ _ _ _ k r Heff (fun x => Hpend c s x Hs) Hk).
  - intros k r Hk.
    destruct (effect_Payment_kept _ _ _ _ _ k r Heff (fun x => Hpend c s x Hs) Hk)
      as (r1 & Hr1 & Hs1 & Hst1).
    destruct (IHP k r1 Hr1) as (r2 & Hr2 & Hs2 & Hst2).
    exists r2. split; [done|]. split; congruence.
Qed.


(** X21.  Committed sales and payments.  In a run of the server no statement
    changes or deletes a committed [Sale] row, and none deletes a [Payment]
    row or changes its sale or its status: of a payment only the mode is
    ever changed. *)
Theorem committed_sales_and_payments_are_kept (w w' : world) :
  well_formed w -> reachable w w' ->
  (forall k r, Sale (db (shared_state w)) !! k = Some r ->
               Sale (db (shared_state w')) !! k = Some r) /\
  (forall k r, Payment (db (shared_state w)) !! k = Some r ->
     exists r', Payment (db (shared_state w')) !! k = Some r' /\
                Payment_sale_id r' = Payment_sale_id r /\
                Payment_status r' = Payment_status r).
Proof. apply reachable_rows_kept. Qed.

Lemma map_size_1_lookup {A} (m : gmap Z A) (k : Z) (x : A) :
  size m = 1%nat -> m !! k = Some x -> m = {[k := x]}.
Proof.
  intros Hsize Hk. rewrite <- (insert_id m k x Hk), <- insert_delete_eq.
  rewrite <- (insert_id m k x Hk), <- insert_delete_eq in Hsize.
  rewrite map_size_insert_None in Hsize by apply lookup_delete_eq.
  assert (Hempty : delete k m = ∅) by (apply map_size_empty_iff; lia).
  rewrite Hempty. apply insert_empty.
Qed.

(** C8.  One payment for every sale.  In every state the server reaches
    from a state where each sale has exactly one payment, each sale has
    exactly one payment.  Sales do get made: on an idle connection a sale
    that meets the conditions of the procedure and of the tables returns its
    result row.  A [make_sale] call that returns its result row has added
    the new sale and exactly one [Payment] row, under a new key, for that
    sale, with mode CASH and status SUCCESS; it is the only payment of that
    sale.  And it stays the only one: in every state the server reaches
    afterwards, whatever the sessions do, the payments of that sale are that
    one row, with its sale and its status SUCCESS (only the mode can have
    been changed). *)
Theorem every_sale_has_one_payment (w w' : world) :
  well_formed w ->
  payments_ok (db (shared_state w)) ->
  reachable w w' ->
  one_payment_per_sale (db (shared_state w')) /\
  (forall c s cu item qty sp r,
     sessions w' !! c = Some s -> call s = None ->
     cu ∈ Customer (db (shared_state w')) ->
     (forall z, NULLIF sp 0 = Some z -> z ∈ Salesperson (db (shared_state w'))) ->
     Product (db (shared_state w')) !! item = Some r ->
     lock_free_for c (row_locks (shared_state w')) item = true ->
     0 < qty <= Product_stock r ->
     Product_stock r <= INT_MAX ->
     0 <= Product_price r ->
     Product_price r * qty <= DECIMAL_10_2_MAX ->
     exists sh' s',
       make_sale c (Some cu) (Some item) (Some qty) sp no_fault
                 (shared_state w') s
       = Some (Result_row
                 (Some (next_sale_id (auto_increment (shared_state w'))))
                 (Some (Product_price r * qty)), sh', s')) /\
  (forall c cu pid q sp faults s a b sh' s',
     sessions w' !! c = Some s ->
     make_sale c cu pid q sp faults (shared_state w') s
       = Some (Result_row a b, sh', s') ->
     exists sale_id payment_id,
       a = Some sale_id /\
       Sale (db (shared_state w')) !! sale_id = None /\
       is_Some (Sale (db sh') !! sale_id) /\
       Payment (db (shared_state w')) !! payment_id = None /\
       Payment (db sh')
         = <[payment_id := mkPayment sale_id "CASH" "SUCCESS"]>
             (Payment (db (shared_state w'))) /\
       payments_of (db sh') sale_id
         = {[payment_id := mkPayment sale_id "CASH" "SUCCESS"]} /\
       forall w'', reachable (mkWorld sh' (<[c := s']> (sessions w'))) w'' ->
         exists p, payments_of (db (shared_state w'')) sale_id
                   = {[payment_id := p]} /\
                   Payment_sale_id p = sale_id /\
                   Payment_status p = "SUCCESS").
Proof.
  intros Hwf Hpay Hreach.
  pose proof (reachable_well_formed _ _ Hreach Hwf) as Hwf'.
  pose proof (reachable_payments_ok _ _ Hreach Hwf Hpay) as Hpay'.
  split; [by destruct Hpay'|]. split.
  - intros c s cu item qty sp r Hs Hcall Hcu Hsp Hrow Hfree Hqty Hmax Hprice Htot.
    destruct Hwf' as [Hok _].
    apply valid_sale_run; try done.
    by apply (idle_session_no_trx _ _ _ Hok Hs).
  - intros c cu pid q sp faults s a b sh' s' Hs Hrun.
    pose proof Hwf' as [Hok [(K1 & _ & K3) _ _]].
    assert (Htrx : trx s = None).
    { specialize (Hok _ _ Hs). unfold session_ok in Hok.
      unfold make_sale in Hrun. by destruct (call s). }
    destruct (make_sale_result _ _ _ _ _ _ _ _ _ _ _ _ Htrx Hrun)
      as (v & (_ & _ & _ & _ & _ & Hdb & Ho) & Hborn & _).
    injection Ho as -> ->. simpl in Hdb.
    assert (Hsid : Sale (db (shared_state w')) !! sv_sid v = None).
    { destruct (Sale _ !! sv_sid v) eqn:E; [|done].
      specialize (K1 _ (mk_is_Some _ _ E)).
      specialize (Hborn (Ins_Sale (sv_sid v) (mkSale (sv_cu v) (NULLIF sp 0) 0))
                        ltac:(repeat constructor)). simpl in Hborn. lia. }
    assert (Hpayid : Payment (db (shared_state w')) !! sv_payid v = None).
    { destruct (Payment _ !! sv_payid v) eqn:E; [|done].
      specialize (K3 _ (mk_is_Some _ _ E)).
      specialize (Hborn (Ins_Payment (sv_payid v)
                           (mkPayment (sv_sid v) "CASH" "SUCCESS"))
                        ltac:(repeat constructor)). simpl in Hborn. lia. }
    assert (Hsale : Sale (db sh') !! sv_sid v
                    = Some (mkSale (sv_cu v) (NULLIF sp 0) (sv_pr v * sv_q v))).
    { rewrite Hdb. simpl. by rewrite lookup_insert_eq. }
    assert (HPay : Payment (db sh')
                   = <[sv_payid v := mkPayment (sv_sid v) "CASH" "SUCCESS"]>
                       (Payment (db (shared_state w')))).
    { by rewrite Hdb. }
    exists (sv_sid v), (sv_payid v). split; [done|]. split; [done|].
    split; [by rewrite Hsale|]. split; [done|]. split; [done|].
    split.
    { rewrite Hdb. apply payments_of_new_sale; [done|by destruct Hpay']. }
    intros w'' Hlater.
    pose proof (make_sale_reachable _ _ _ _ _ _ _ _ _ _ _ Hs Hrun) as Hcall.
    set (w1 := mkWorld sh' (<[c := s']> (sessions w'))) in *.
    pose proof (reachable_well_formed _ _ Hcall Hwf') as Hwf1.
    pose proof (reachable_payments_ok _ _ Hlater Hwf1
                  (reachable_payments_ok _ _ Hcall Hwf' Hpay')) as [_ Hone].
    destruct (reachable_rows_kept _ _ Hwf1 Hlater) as [HS HP].
    destruct (HP (sv_payid v) (mkPayment (sv_sid v) "CASH" "SUCCESS"))
      as (p & Hp & Hp1 & Hp2).
    { simpl. rewrite HPay. apply lookup_insert_eq. }
    exists p. simpl in Hp1, Hp2. split; [|done].
    apply map_size_1_lookup.
    + apply Hone. rewrite (HS _ _ Hsale). eauto.
    + by apply map_lookup_filter_Some.
Qed.

(** X22.  A sale is invisible until its COMMIT.  No statement of a running
    call other than its COMMIT changes a committed row: what the call has
    inserted and updated so far is in its own transaction, so another
    session reads the tables as they were, and a sale appears with all its
    rows at once or not at all. *)
Theorem uncommitted_sale_is_invisible (w w' : world) (c : conn) (s : session)
    (f : frame) (fault : bool) (o : option outcome) :
  sessions_ok w ->
  sessions w !! c = Some s -> call s = Some f -> pc f <> L186_COMMIT ->
  world_step c (Next_statement fault) w = Some (w', o) ->
  db (shared_state w') = db (shared_state w).
Proof.
  intros Hok Hs Hcall Hpc Hstep.
  destruct (world_step_effect _ _ _ _ _ Hok Hstep) as (s0 & s' & Hs0 & _ & Heff).
  assert (s0 = s) as -> by congruence.
  destruct Heff as [f0 f' v v' _ _ _ _ _ Hdb _ _ _
                   |f0 v Hcall0 Hpc0 _ -> ->
                   | -> ->
                   |f0 _ _ _ -> ->
                   |cu p q sp Hcall0 _ -> ->
                   | -> ->
                   |ws n' Hcall0 _ _ _ -> _ _ _]; try done; congruence.
Qed.

(** ** Sales in the report of the best-selling products *)

Lemma add_line_comm (d : database) (x y : Sale_Item_row)
    (groups : gmap Z top_product) :
  add_line d x (add_line d y groups) = add_line d y (add_line d x groups).
Proof.
  unfold add_line.
  destruct (Product d !! Sale_Item_product_id x) as [rx|] eqn:Hx;
    destruct (Product d !! Sale_Item_product_id y) as [ry|] eqn:Hy; try done.
  destruct (decide (Sale_Item_product_id x = Sale_Item_product_id y)) as [Heq|Hne].
  - rewrite Heq, !lookup_insert_eq, !insert_insert_eq. simpl.
    f_equal. f_equal; lia.
  - rewrite !lookup_insert_ne by congruence.
    apply insert_insert_ne. congruence.
Qed.

Lemma map_fold_add_line_insert (d : database) (m : gmap Z Sale_Item_row)
    (k : Z) (x : Sale_Item_row) :
  m !! k = None ->
  map_fold (fun _ => add_line d) ∅ (<[k := x]> m)
  = add_line d x (map_fold (fun _ => add_line d) ∅ m).
Proof.
  intros Hk. apply (map_fold_insert_L (fun _ => add_line d)); [|done].
  intros j1 j2 z1 z2 y _ _ _. apply add_line_comm.
Qed.

(** The groups depend on [Product] only through which products exist. *)
Lemma map_fold_add_line_same_products (d1 d2 : database)
    (m : gmap Z Sale_Item_row) :
  (forall p, is_Some (Product d1 !! p) <-> is_Some (Product d2 !! p)) ->
  map_fold (fun _ => add_line d1) ∅ m = map_fold (fun _ => add_line d2) ∅ m.
Proof.
  intros Hsame.
  apply (map_fold_weak_ind
           (fun r m => r = map_fold (fun _ => add_line d2) ∅ m)); [done|].
  intros k x m0 r Hk ->. rewrite map_fold_add_line_insert by done.
  unfold add_line. specialize (Hsame (Sale_Item_product_id x)).
  destruct (Product d1 !! _) as [r1|], (Product d2 !! _) as [r2|]; try done.
  - destruct Hsame as [H _]. by destruct (H (mk_is_Some _ _ eq_refl)).
  - destruct Hsame as [_ H]. by destruct (H (mk_is_Some _ _ eq_refl)).
Qed.

(** X23.  A sale in the report.  After a call that returns its result row,
    the group of the sold item in the report of the best-selling products
    has the quantity added to its quantity sold and [quantity * price] added
    to its revenue, starting from 0 for an item sold for the first time; no
    other group changes.  What the sale took off the stock is what it added
    to the quantity sold. *)
Theorem sale_shows_in_top_products (c : conn) (cu pid q sp : option Z)
    (faults : label -> bool) (sh : shared) (s : session)
    (a b : option Z) (sh' : shared) (s' : session) :
  trx s = None ->
  keys_below (db sh) (auto_increment sh) ->
  make_sale c cu pid q sp faults sh s = Some (Result_row a b, sh', s') ->
  exists item qty r r',
    pid = Some item /\ q = Some qty /\
    Product (db sh) !! item = Some r /\ Product (db sh') !! item = Some r' /\
    let g := default (mkTop 0 0) (top_products_groups (db sh) !! item) in
    top_products_groups (db sh')
    = <[item := mkTop (total_quantity_sold g + qty)
                      (total_revenue g + qty * Product_price r)]>
        (top_products_groups (db sh)) /\
    Product_stock r' + (total_quantity_sold g + qty)
    = Product_stock r + total_quantity_sold g.
Proof.
  intros Htrx (_ & K2 & _) Hrun.
  destruct (make_sale_result _ _ _ _ _ _ _ _ _ _ _ _ Htrx Hrun)
    as (v & (_ & Hpid & Hq & _ & Hrow & Hdb & _) & Hborn & _).
  simpl in Hpid, Hq.
  assert (Hiid : Sale_Item (db sh) !! sv_iid v = None).
  { destruct (Sale_Item _ !! sv_iid v) eqn:E; [|done].
    specialize (K2 _ (mk_is_Some _ _ E)).
    specialize (Hborn (Ins_Sale_Item (sv_iid v)
                         (mkSale_Item (sv_sid v) (sv_pid v) (sv_q v) (sv_pr v)))
                      ltac:(repeat constructor)). simpl in Hborn. lia. }
  exists (sv_pid v), (sv_q v), (mkProduct (sv_pr v) (sv_st v)),
    (mkProduct (sv_pr v) (sv_st v - sv_q v)).
  do 3 (split; [done|]).
  split; [rewrite Hdb; simpl; by rewrite lookup_insert_eq|].
  simpl. split; [|lia].
  unfold top_products_groups. rewrite Hdb. simpl.
  rewrite map_fold_add_line_insert by done.
  rewrite (map_fold_add_line_same_products _ (db sh)).
  - unfold add_line. simpl. by rewrite lookup_insert_eq.
  - intros p. simpl. rewrite lookup_insert_is_Some'. split; [|by right].
    intros [<-|?]; [|done]. by rewrite Hrow.
Qed.

End Engine.

(** * The scenarios of the specification, run *)

(** C1 at work: two interleaved sales and an insert past the procedure
    leave no negative stock. *)
Lemma stock_never_negative_witness :
  exists w', run_actions true two_sales_interleaved server = Some w' /\
             stock_nonneg (db (shared_state w')).
Proof.
  eexists. split; [vm_compute; reflexivity|].
  eapply (stock_never_negative true server).
  - apply quiescent_sessions_ok, quiescent_b_ok. vm_compute. reflexivity.
  - apply stock_nonneg_b_ok. vm_compute. reflexivity.
  - apply (run_actions_reachable true two_sales_interleaved). vm_compute. reflexivity.
Defined.

(** C2 at work: a sale whose COMMIT fails leaves the shop as it was. *)
Lemma failed_sale_changes_nothing_witness :
  exists sh' s',
    make_sale true 0%nat (Some 1) (Some 1) (Some 2) (Some 0)
              (fault_at L186_COMMIT) shop idle_session
    = Some (Raised ER_STORAGE_ENGINE, sh', s') /\
    db sh' = db shop /\ holds_no_lock 0%nat sh' /\ trx s' = None.
Proof.
  eexists _, _. split; [vm_compute; reflexivity|].
  apply (failed_sale_changes_nothing true 0%nat (Some 1) (Some 1) (Some 2)
           (Some 0) (fault_at L186_COMMIT) shop idle_session ER_STORAGE_ENGINE
           _ _ eq_refl).
  vm_compute. reflexivity.
Defined.

(** C3 at work, scenario 1: the stock of item 1 goes from 30 to 28, item 2
    keeps its 5. *)
Lemma successful_sale_decrements_stock_once_witness :
  exists sh' s',
    make_sale true 0%nat (Some 1) (Some 1) (Some 2) (Some 0) no_fault shop
              idle_session
    = Some (Result_row (Some 1) (Some 25998), sh', s') /\
    Product (db sh') !! 1 = Some (mkProduct 12999 28) /\
    Product (db sh') !! 2 = Some (mkProduct 9999 5).
Proof.
  eexists _, _. split; [vm_compute; reflexivity|].
  destruct (successful_sale_decrements_stock_once true 0%nat (Some 1) (Some 1)
              (Some 2) (Some 0) no_fault shop idle_session (Some 1) (Some 25998)
              _ _ eq_refl ltac:(vm_compute; reflexivity))
    as (item & qty & r & [= <-] & [= <-] & Hr & Hitem & Hother).
  vm_compute in Hr. injection Hr as <-. split; [exact Hitem|].
  rewrite (Hother 2); [reflexivity|lia].
Defined.


(** C5 at work, scenario 1: two pieces at 129.99 make 259.98. *)
Lemma sale_total_is_price_times_quantity_witness :
  exists sh' s',
    make_sale true 0%nat (Some 1) (Some 1) (Some 2) (Some 0) no_fault shop
              idle_session
    = Some (Result_row (Some 1) (Some 25998), sh', s') /\
    exists row, Sale (db sh') !! 1 = Some row /\ Sale_total_amount row = 25998.
Proof.
  eexists _, _. split; [vm_compute; reflexivity|].
  destruct (sale_total_is_price_times_quantity true 0%nat (Some 1) (Some 1)
              (Some 2) (Some 0) no_fault shop idle_session (Some 1) (Some 25998)
              _ _ eq_refl ltac:(vm_compute; reflexivity))
    as (sid & item & qty & r & row & [= <-] & [= <-] & Hr & [= <-] & _ & Hrow & Htot).
  vm_compute in Hr. injection Hr as <-.
  exists row. split; [exact Hrow|exact Htot].
Defined.

(** C7 at work: after the sale of scenario 1 the price of item 1 is raised
    to 159.99; the line item still says 129.99. *)
Lemma unit_price_is_a_snapshot_witness :
  exists sh' s' w',
    make_sale true 0%nat (Some 1) (Some 1) (Some 2) (Some 0) no_fault shop
              idle_session
    = Some (Result_row (Some 1) (Some 25998), sh', s') /\
    run_actions true [(1%nat, UPDATE_Product_price 1 15999 false)]
                (mkWorld sh' (<[0%nat := s']> (sessions server))) = Some w' /\
    Product (db (shared_state w')) !! 1 = Some (mkProduct 15999 28) /\
    exists line, Sale_Item (db sh') !! line = Some (mkSale_Item 1 1 2 12999) /\
      Sale_Item (db (shared_state w')) !! line = Some (mkSale_Item 1 1 2 12999).
Proof.
  eexists _, _, _. split; [vm_compute; reflexivity|].
  split; [vm_compute; reflexivity|]. split; [vm_compute; reflexivity|].
  destruct (unit_price_is_a_snapshot true 0%nat (Some 1) (Some 1) (Some 2)
              (Some 0) no_fault server idle_session (Some 1) (Some 25998) _ _
              (quiescent_well_formed server eq_refl eq_refl)
              eq_refl ltac:(vm_compute; reflexivity))
    as (line & sid & item & qty & r & [= <-] & [= <-] & [= <-] & Hr & Hline & Hkept).
  vm_compute in Hr. injection Hr as <-.
  exists line. split; [exact Hline|]. apply Hkept.
  apply (run_actions_reachable true [(1%nat, UPDATE_Product_price 1 15999 false)]).
  vm_compute. reflexivity.
Defined.

(** C8 at work.  After the two interleaved sales each sale has its one
    payment; and the sale of scenario 1 returns its row, with sale 1 and its
    one payment, CASH and SUCCESS, in the tables. *)
Lemma every_sale_has_one_payment_witness :
  (exists w', run_actions true two_sales_interleaved server = Some w' /\
              one_payment_per_sale (db (shared_state w'))) /\
  exists sh' s',
    make_sale true 0%nat (Some 1) (Some 1) (Some 2) (Some 0) no_fault shop
              idle_session
    = Some (Result_row (Some 1) (Some 25998), sh', s') /\
    Payment (db shop) = ∅ /\
    is_Some (Sale (db sh') !! 1) /\
    payments_of (db sh') 1 = {[1 := mkPayment 1 "CASH" "SUCCESS"]}.
Proof.
  assert (Hwf : well_formed server)
    by (apply quiescent_well_formed; vm_compute; reflexivity).
  assert (Hpay : payments_ok (db (shared_state server)))
    by (apply no_sales_payments_ok; vm_compute; reflexivity).
  split.
  - eexists. split; [vm_compute; reflexivity|].
    apply (every_sale_has_one_payment true server); [exact Hwf|exact Hpay|].
    apply (run_actions_reachable true two_sales_interleaved).
    vm_compute. reflexivity.
  - destruct (every_sale_has_one_payment true server server Hwf Hpay
                (rtc_refl _ _)) as (_ & Hgoes & Hrow).
    destruct (Hgoes 0%nat idle_session 1 1 2 (Some 0) (mkProduct 12999 30))
      as (sh' & s' & Hrun);
      [vm_compute; reflexivity|reflexivity|vm_compute; reflexivity|
       intros z Hz; vm_compute in Hz; discriminate|
       vm_compute; reflexivity|vm_compute; reflexivity|
       simpl; lia|unfold INT_MAX; simpl; lia|simpl; lia|
       unfold DECIMAL_10_2_MAX; simpl; lia|].
    exists sh', s'. split; [exact Hrun|]. split; [reflexivity|].
    destruct (Hrow 0%nat (Some 1) (Some 1) (Some 2) (Some 0) no_fault
                idle_session _ _ sh' s' ltac:(vm_compute; reflexivity) Hrun)
      as (sid & payid & Hsid & _ & Hsale & _ & HP & Hof & _).
    injection Hsid as <-. split; [exact Hsale|].
    assert (Hkey : payid = 1).
    { assert (Hsh : Payment (db sh') !! 1
                    = Some (mkPayment 1 "CASH" "SUCCESS"))
        by (vm_compute in Hrun; injection Hrun as <- _; vm_compute; reflexivity).
      rewrite HP in Hsh. destruct (decide (payid = 1)) as [|Hne]; [done|].
      rewrite lookup_insert_ne in Hsh by done. vm_compute in Hsh. discriminate. }
    by rewrite Hkey in Hof.
Defined.



(** C10 at work: a sale of two pieces of item 1 whose insert into
    [Sale_Item] fails in the storage engine. *)
Lemma flag_outlives_aborted_call_witness :
  exists w_mid w',
    run_actions true sale_up_to_line_166 server = Some w_mid /\
    world_step true 0%nat (Next_statement true) w_mid
    = Some (w', Some (Raised ER_STORAGE_ENGINE)) /\
    db (shared_state w') = db (shared_state w_mid) /\
    exists s', sessions w' !! 0%nat = Some s' /\
               from_make_sale s' = Some 1 /\ call s' = None /\ trx s' = None.
Proof.
  eexists _, _. split; [vm_compute; reflexivity|].
  split; [vm_compute; reflexivity|].
  eapply (proj1 (flag_outlives_aborted_call true) _ 0%nat _ _ true _
            ER_STORAGE_ENGINE).
  - eapply (reachable_sessions_ok true server).
    + apply (run_actions_reachable true sale_up_to_line_166).
      vm_compute. reflexivity.
    + apply quiescent_sessions_ok, quiescent_b_ok. vm_compute. reflexivity.
  - vm_compute. reflexivity.
  - reflexivity.
  - reflexivity.
  - vm_compute. reflexivity.
Defined.

(** * The guard after an aborted call *)

(** C6.  The stock guard and inserts past the procedure, on the code.  The
    trigger is meant to decrement the stock and to refuse a negative one on
    every insert into [Sale_Item] that does not come from [make_sale]; it
    decides by the session variable [@from_make_sale] alone.  Connection 0
    sells two pieces of item 1 (stock 28), then starts a second sale whose
    insert into [Sale_Item] fails in the storage engine: the call is rolled
    back and raises.  The next statement on connection 0 inserts a line of 29 pieces of item 1 past the
    procedure.  The trigger stays silent: the row is added, the stock is
    still 28, nothing is raised.  The same statement on connection 1 is
    refused.  This holds whether or not the server enforces CHECK
    constraints. *)
Theorem stock_guard_skipped_after_aborted_call (check_constraints : bool) :
  exists sh1 s1 sh2 s2 sh3 s3,
    make_sale check_constraints 0%nat (Some 1) (Some 1) (Some 2) (Some 0)
              no_fault shop idle_session
    = Some (Result_row (Some 1) (Some 25998), sh1, s1) /\
    make_sale check_constraints 0%nat (Some 1) (Some 1) (Some 2) (Some 0)
              (fault_at L166_INSERT_Sale_Item) sh1 s1
    = Some (Raised ER_STORAGE_ENGINE, sh2, s2) /\
    db sh2 = db sh1 /\
    Product (db sh2) !! 1 = Some (mkProduct 12999 28) /\
    perform check_constraints 0%nat
            (INSERT_Sale_Item (mkSale_Item 1 1 29 12999) false) sh2 s2
    = Ends sh3 s3 Query_OK /\
    Product (db sh3) !! 1 = Some (mkProduct 12999 28) /\
    Sale_Item (db sh3) !! 2 = Some (mkSale_Item 1 1 29 12999) /\
    exists e,
      perform check_constraints 1%nat
              (INSERT_Sale_Item (mkSale_Item 1 1 29 12999) false) sh2
              idle_session
      = Ends sh2 idle_session (Raised e).
Proof.
  destruct check_constraints;
    eexists _, _, _, _, _, _;
    (split; [vm_compute; reflexivity|]);
    (split; [vm_compute; reflexivity|]);
    (split; [vm_compute; reflexivity|]);
    (split; [vm_compute; reflexivity|]);
    (split; [vm_compute; reflexivity|]);
    (split; [vm_compute; reflexivity|]);
    (split; [vm_compute; reflexivity|]);
    eexists; vm_compute; reflexivity.
Qed.

(** * Further scenarios, run *)

(** After the sale of scenario 1, connection 1 inserts a line of the five
    pieces of item 2 past the procedure: the stock of item 2 goes to 0. *)
Lemma direct_insert_decrements_stock_witness :
  exists sh' s',
    perform true 1%nat (INSERT_Sale_Item (mkSale_Item 1 2 5 9999) false)
            (shop_sold true) idle_session
    = Ends sh' s' Query_OK /\
    Product (db sh') !! 2 = Some (mkProduct 9999 0) /\
    Sale_Item (db sh') !! 2 = Some (mkSale_Item 1 2 5 9999).
Proof.
  destruct (direct_insert_decrements_stock true 1%nat (mkSale_Item 1 2 5 9999)
              (shop_sold true) idle_session (mkProduct 9999 5))
    as (sh' & s' & Hperf & Hitem & Hprod & _);
    try (vm_compute; reflexivity); try (unfold INT_MAX; simpl; lia).
  exists sh', s'. split; [exact Hperf|].
  rewrite Hprod, Hitem. split; apply lookup_insert_eq.
Defined.

(** The same line with six pieces is refused, by the CHECK constraint on a
    server that enforces it. *)
Lemma direct_insert_refused_when_stock_short_witness :
  exists sh' s',
    perform true 1%nat (INSERT_Sale_Item (mkSale_Item 1 2 6 9999) false)
            (shop_sold true) idle_session
    = Ends sh' s' (Raised (ER_CHECK_CONSTRAINT_VIOLATED "stock >= 0")) /\
    db sh' = db (shop_sold true).
Proof.
  apply (direct_insert_refused_when_stock_short true 1%nat
           (mkSale_Item 1 2 6 9999) (shop_sold true) idle_session
           (mkProduct 9999 5));
    try (vm_compute; reflexivity); try (unfold INT_MIN; simpl; lia).
Defined.

(** With six pieces asked of the five of item 2, the trigger's error on
    such a server is the constraint's. *)
Lemma stock_signal_unreachable_under_CHECK_witness :
  trg_sale_item_after_insert true None (mkSale_Item 1 2 6 9999)
    (db (shop_sold true))
  <> Err (SIGNAL_45000 "Stock cannot be negative").
Proof.
  apply (stock_signal_unreachable_under_CHECK true None (mkSale_Item 1 2 6 9999)
           (db (shop_sold true))).
  reflexivity.
Defined.

(** Customer 2 buys the whole stock of item 2. *)
Lemma valid_sale_succeeds_witness :
  exists sh' s',
    make_sale true 1%nat (Some 2) (Some 2) (Some 5) (Some 0) no_fault shop
              idle_session
    = Some (Result_row (Some 1) (Some 49995), sh', s').
Proof.
  apply (valid_sale_succeeds true 1%nat 2 2 5 (Some 0) (mkProduct 9999 5) shop
           idle_session);
    try (vm_compute; reflexivity); try (unfold INT_MAX, DECIMAL_10_2_MAX; simpl; lia).
  intros z Hz. vm_compute in Hz. discriminate.
Defined.

(** Scenario 1 adds sale 1 and line 1. *)
Lemma successful_sale_adds_one_sale_and_one_line_witness :
  exists sh' s',
    make_sale true 0%nat (Some 1) (Some 1) (Some 2) (Some 0) no_fault shop
              idle_session
    = Some (Result_row (Some 1) (Some 25998), sh', s') /\
    Sale (db sh') !! 1 = Some (mkSale 1 None 25998) /\
    exists line, Sale_Item (db sh') !! line = Some (mkSale_Item 1 1 2 12999).
Proof.
  eexists _, _. split; [vm_compute; reflexivity|].
  assert (HK : keys_below (db shop) (auto_increment shop)).
  { vm_compute. repeat split; intros k [x Hk]; discriminate. }
  destruct (successful_sale_adds_one_sale_and_one_line true 0%nat (Some 1)
              (Some 1) (Some 2) (Some 0) no_fault shop idle_session (Some 1)
              (Some 25998) _ _ eq_refl HK ltac:(vm_compute; reflexivity))
    as (sid & line & cu & item & qty & r & [= <-] & [= <-] & [= <-] & [= <-]
        & Hr & _ & _ & HS & HI & _).
  vm_compute in Hr. injection Hr as <-. split.
  - rewrite HS. apply lookup_insert_eq.
  - exists line. rewrite HI. apply lookup_insert_eq.
Defined.



(** 1112 laptops at 89999.00 would cost more than 99999999.99. *)
Lemma sale_with_total_out_of_range_is_refused_witness :
  let warehouse :=
    mkShared (mkDb {[1]} ∅ {[6 := mkProduct 8999900 2000]} ∅ ∅ ∅)
             (mkCounters 1 1 1) ∅ in
  exists sh' s',
    make_sale true 0%nat (Some 1) (Some 6) (Some 1112) (Some 0) no_fault
              warehouse idle_session
    = Some (Raised ER_WARN_DATA_OUT_OF_RANGE, sh', s') /\
    db sh' = db warehouse.
Proof.
  intros warehouse.
  apply (sale_with_total_out_of_range_is_refused true 0%nat 1 6 1112 (Some 0)
           (mkProduct 8999900 2000) warehouse idle_session);
    try (vm_compute; reflexivity);
    try (unfold INT_MAX, DECIMAL_10_2_MAX; simpl; lia).
  intros z Hz. vm_compute in Hz. discriminate.
Defined.

(** A sale whose insert into [Payment] fails in the storage engine. *)
Lemma make_sale_always_returns_witness :
  exists o sh' s',
    make_sale true 0%nat (Some 1) (Some 1) (Some 2) (Some 0)
              (fault_at L183_INSERT_Payment) shop idle_session
    = Some (o, sh', s') /\
    call s' = None /\ trx s' = None /\ holds_no_lock 0%nat sh'.
Proof.
  destruct (make_sale_always_returns true 0%nat (Some 1) (Some 1) (Some 2)
              (Some 0) (fault_at L183_INSERT_Payment) shop idle_session
              eq_refl eq_refl) as (o & sh' & s' & Hrun & _ & Hrest).
  exists o, sh', s'. split; [exact Hrun|exact Hrest].
Defined.

(** Scenario 2: 'Insufficient stock' tells that item 2 has fewer than the
    six pieces asked for. *)
Lemma make_sale_signals_witness :
  exists sh' s',
    make_sale true 0%nat (Some 1) (Some 2) (Some 6) (Some 0) no_fault shop
              idle_session
    = Some (Raised (SIGNAL_45000 "Insufficient stock"), sh', s') /\
    exists r, Product (db shop) !! 2 = Some r /\ Product_stock r < 6.
Proof.
  eexists _, _. split; [vm_compute; reflexivity|].
  destruct (make_sale_signals true 0%nat (Some 1) (Some 2) (Some 6) (Some 0)
              no_fault shop idle_session "Insufficient stock" _ _ eq_refl
              ltac:(vm_compute; reflexivity))
    as [[Hm _]|[[Hm _]|(_ & item & r & qty & [= <-] & [= <-] & Hr & Hlt)]];
    [discriminate Hm|discriminate Hm|].
  exists r. split; [exact Hr|exact Hlt].
Defined.


(** After scenario 1 the payment of sale 1 is switched to UPI; a mode of 24
    characters is refused. *)
Lemma payment_mode_update_changes_one_sale_witness :
  (exists sh' s',
     perform true 1%nat (UPDATE_Payment_mode "UPI" 1 false) (shop_sold true)
             idle_session
     = Ends sh' s' Query_OK /\
     Payment (db sh') !! 1 = Some (mkPayment 1 "UPI" "SUCCESS")) /\
  perform true 1%nat (UPDATE_Payment_mode "PAYMENT_BY_BANK_TRANSFER" 1 false)
          (shop_sold true) idle_session
  = Ends (shop_sold true) idle_session (Raised ER_DATA_TOO_LONG).
Proof.
  split.
  - destruct (payment_mode_update_changes_one_sale true 1%nat "UPI" 1
                (shop_sold true) idle_session eq_refl eq_refl) as [H _].
    destruct (H ltac:(simpl; lia)) as (sh' & s' & Hperf & HPay & _).
    exists sh', s'. split; [exact Hperf|].
    rewrite HPay, lookup_fmap. vm_compute. reflexivity.
  - apply (proj2 (payment_mode_update_changes_one_sale true 1%nat
                    "PAYMENT_BY_BANK_TRANSFER" 1 (shop_sold true) idle_session
                    eq_refl eq_refl)
             ltac:(simpl; lia) eq_refl 1 (mkPayment 1 "CASH" "SUCCESS")).
    + vm_compute. reflexivity.
    + reflexivity.
Defined.

(** The request of scenario 1 is not answered with 500. *)
Lemma no_output_reply_is_unreachable_witness :
  POST_api_sale true 0%nat 1%nat
    (mkRequest (JsInteger 1) (JsInteger 1) (JsInteger 2) JsNaN) "UPI"
    no_fault false server
  <> Some (Reply_error 500 "Sale created but no output returned from procedure"
                       None, server).
Proof.
  apply (no_output_reply_is_unreachable true).
  - apply quiescent_sessions_ok, quiescent_b_ok. vm_compute. reflexivity.
  - simpl. lia.
Defined.

(** Scenario 2 through the route. *)
Lemma handler_sees_two_signals_witness :
  exists w',
    POST_api_sale true 0%nat 1%nat
      (mkRequest (JsInteger 1) (JsInteger 2) (JsInteger 6) JsNaN) "UPI"
      no_fault false server
    = Some (Reply_error 400 "Sale failed"
              (Some (SIGNAL_45000 "Insufficient stock")), w') /\
    ("Insufficient stock" = "Invalid product_id" \/
     "Insufficient stock" = "Insufficient stock").
Proof.
  eexists. split; [vm_compute; reflexivity|].
  eapply (handler_sees_two_signals true 0%nat 1%nat
            (mkRequest (JsInteger 1) (JsInteger 2) (JsInteger 6) JsNaN) "UPI"
            no_fault false server).
  - apply quiescent_sessions_ok, quiescent_b_ok. vm_compute. reflexivity.
  - vm_compute. reflexivity.
Defined.

(** Scenario 1 through the route, paid by UPI. *)
Lemma completed_reply_means_sale_with_mode_witness :
  exists w' pay_id,
    POST_api_sale true 0%nat 1%nat
      (mkRequest (JsInteger 1) (JsInteger 1) (JsInteger 2) JsNaN) "UPI"
      no_fault false server
    = Some (Reply_sale_completed 1 (Some 25998) "UPI", w') /\
    payments_of (db (shared_state w')) 1
    = {[pay_id := mkPayment 1 "UPI" "SUCCESS"]}.
Proof.
  assert (Hrun : exists w', POST_api_sale true 0%nat 1%nat
            (mkRequest (JsInteger 1) (JsInteger 1) (JsInteger 2) JsNaN) "UPI"
            no_fault false server
          = Some (Reply_sale_completed 1 (Some 25998) "UPI", w')).
  { eexists. vm_compute. reflexivity. }
  destruct Hrun as [w' Hrun]. exists w'.
  destruct (completed_reply_means_sale_with_mode true _ _ _ _ _ _ _ _ _ _ _
              (quiescent_well_formed server eq_refl eq_refl)
              (no_sales_payments_ok (db (shared_state server)) eq_refl) Hrun)
    as (_ & cu & item & qty & r & sp & pay_id & _ & _ & _ & _ & _ & _ & _ & _ & Hpay).
  exists pay_id. split; [exact Hrun|exact Hpay].
Defined.

(** Scenario 1 through the route, with the update of the payment mode
    failing. *)
Lemma sale_failed_reply_after_commit_witness :
  exists w' pay_id,
    POST_api_sale true 0%nat 1%nat
      (mkRequest (JsInteger 1) (JsInteger 1) (JsInteger 2) JsNaN) "UPI"
      no_fault true server
    = Some (Reply_error 400 "Sale failed" (Some ER_STORAGE_ENGINE), w') /\
    Sale (db (shared_state w')) !! 1 = Some (mkSale 1 None 25998) /\
    Product (db (shared_state w')) !! 1 = Some (mkProduct 12999 28) /\
    Payment (db (shared_state w')) !! pay_id = Some (mkPayment 1 "CASH" "SUCCESS").
Proof.
  apply (sale_failed_reply_after_commit true 0%nat 1%nat 1 1 2 0 JsNaN "UPI"
           (mkProduct 12999 30) server idle_session idle_session);
    try (vm_compute; reflexivity);
    try (unfold INT_MAX, DECIMAL_10_2_MAX; simpl; lia).
  - apply quiescent_sessions_ok, quiescent_b_ok. vm_compute. reflexivity.
  - intros z Hz. vm_compute in Hz. discriminate.
Defined.

(** While two sales of item 1 run, the lock of its row is with connection 0,
    whose call is at line 146. *)
Lemma locks_belong_to_running_calls_witness :
  exists w,
    run_actions true two_sales_of_one_item server = Some w /\
    row_locks (shared_state w) !! 1 = Some 0%nat /\
    locks_owned w.
Proof.
  eexists. split; [vm_compute; reflexivity|]. split; [vm_compute; reflexivity|].
  apply (locks_belong_to_running_calls true server).
  - apply quiescent_sessions_ok, quiescent_b_ok. vm_compute. reflexivity.
  - apply quiescent_locks_owned, quiescent_b_ok. vm_compute. reflexivity.
  - apply (run_actions_reachable true two_sales_of_one_item).
    vm_compute. reflexivity.
Defined.

(** There connection 1 waits at its locking read, and a call can go on. *)
Lemma some_call_can_always_go_on_witness :
  exists w,
    run_actions true two_sales_of_one_item server = Some w /\
    world_step true 1%nat (Next_statement false) w = None /\
    exists c2 w' o, world_step true c2 (Next_statement false) w = Some (w', o).
Proof.
  eexists. split; [vm_compute; reflexivity|]. split; [vm_compute; reflexivity|].
  eapply (some_call_can_always_go_on true _ 1%nat).
  - eapply (reachable_sessions_ok true server).
    + apply (run_actions_reachable true two_sales_of_one_item).
      vm_compute. reflexivity.
    + apply quiescent_sessions_ok, quiescent_b_ok. vm_compute. reflexivity.
  - eapply (reachable_locks_owned true server).
    + apply quiescent_sessions_ok, quiescent_b_ok. vm_compute. reflexivity.
    + apply quiescent_locks_owned, quiescent_b_ok. vm_compute. reflexivity.
    + apply (run_actions_reachable true two_sales_of_one_item).
      vm_compute. reflexivity.
  - vm_compute. reflexivity.
  - reflexivity.
Defined.

(** The COMMIT of scenario 1 takes 2 off the 30 pieces of item 1. *)
Lemma commit_takes_quantity_off_committed_stock_witness :
  exists w w',
    run_actions true sale_up_to_COMMIT server = Some w /\
    world_step true 0%nat (Next_statement false) w = Some (w', None) /\
    Product (db (shared_state w)) !! 1 = Some (mkProduct 12999 30) /\
    Product (db (shared_state w')) !! 1 = Some (mkProduct 12999 28).
Proof.
  eexists _, _. split; [vm_compute; reflexivity|].
  split; [vm_compute; reflexivity|]. split; [vm_compute; reflexivity|].
  pose proof (fun w w' =>
                commit_takes_quantity_off_committed_stock true w w' 0%nat) as T.
  edestruct T as (item & qty & r & Hitem & Hqty & Hr & _ & HP).
  - eapply (reachable_sessions_ok true server).
    + apply (run_actions_reachable true sale_up_to_COMMIT).
      vm_compute. reflexivity.
    + apply quiescent_sessions_ok, quiescent_b_ok. vm_compute. reflexivity.
  - vm_compute. reflexivity.
  - reflexivity.
  - reflexivity.
  - vm_compute. reflexivity.
  - simpl in Hitem, Hqty. injection Hitem as <-. injection Hqty as <-.
    rewrite HP. vm_compute in Hr. injection Hr as <-. apply lookup_insert_eq.
Defined.

(** A sale whose insert into [Sale_Item] fails in the storage engine, at line
    166, leaves the flag of the connection at 1. *)
Lemma ordinary_calls_leave_the_guard_on_witness :
  exists sh' s',
    make_sale true 0%nat (Some 1) (Some 2) (Some 3) (Some 0)
              (fault_at L166_INSERT_Sale_Item) shop idle_session
    = Some (Raised ER_STORAGE_ENGINE, sh', s') /\
    make_sale_at true 0%nat (Some 1) (Some 2) (Some 3) (Some 0)
                 (fault_at L166_INSERT_Sale_Item) shop idle_session
    = Some (L166_INSERT_Sale_Item, Raised ER_STORAGE_ENGINE, sh', s') /\
    from_make_sale idle_session = None /\
    from_make_sale s' = Some 1.
Proof.
  assert (Hrun : exists r,
            make_sale true 0%nat (Some 1) (Some 2) (Some 3) (Some 0)
                      (fault_at L166_INSERT_Sale_Item) shop idle_session
            = Some (Raised ER_STORAGE_ENGINE, r.1, r.2))
    by (eexists (_, _); vm_compute; reflexivity).
  destruct Hrun as [[sh' s'] Hrun]. exists sh', s'. split; [exact Hrun|].
  destruct (ordinary_calls_leave_the_guard_on true 0%nat (Some 1) (Some 2)
              (Some 3) (Some 0) (fault_at L166_INSERT_Sale_Item) shop
              idle_session (Raised ER_STORAGE_ENGINE) sh' s' eq_refl Hrun)
    as (_ & l & Hat & Hl).
  assert (Hl' : l = L166_INSERT_Sale_Item)
    by (vm_compute in Hat; by injection Hat as -> _ _).
  subst l. split; [exact Hat|]. split; [reflexivity|exact Hl].
Defined.

(** After the two interleaved sales the payment of sale 1 is switched to
    UPI: sale 1 is as it was, and so are the sale and the status of its
    payment. *)
Lemma committed_sales_and_payments_are_kept_witness :
  exists w w',
    run_actions true two_sales_interleaved server = Some w /\
    run_actions true [(1%nat, UPDATE_Payment_mode "UPI" 1 false)] w = Some w' /\
    Sale (db (shared_state w')) !! 1 = Some (mkSale 1 None 389970) /\
    exists r', Payment (db (shared_state w')) !! 1 = Some r' /\
               Payment_sale_id r' = 1 /\ Payment_status r' = "SUCCESS".
Proof.
  eexists _, _. split; [vm_compute; reflexivity|].
  split; [vm_compute; reflexivity|].
  edestruct (committed_sales_and_payments_are_kept true) as [HS HP].
  - eapply (reachable_well_formed true server).
    + apply (run_actions_reachable true two_sales_interleaved).
      vm_compute. reflexivity.
    + apply quiescent_well_formed; vm_compute; reflexivity.
  - apply (run_actions_reachable true
             [(1%nat, UPDATE_Payment_mode "UPI" 1 false)]).
    vm_compute. reflexivity.
  - split.
    + apply HS. vm_compute. reflexivity.
    + apply (HP 1 (mkPayment 1 "CASH" "SUCCESS")). vm_compute. reflexivity.
Defined.

(** The insert into [Sale_Item] of scenario 1: the tables other sessions
    read still have no sale. *)
Lemma uncommitted_sale_is_invisible_witness :
  exists w w',
    run_actions true sale_up_to_line_166 server = Some w /\
    world_step true 0%nat (Next_statement false) w = Some (w', None) /\
    db (shared_state w') = db (shared_state w) /\
    Sale (db (shared_state w')) = ∅.
Proof.
  eexists _, _. split; [vm_compute; reflexivity|].
  split; [vm_compute; reflexivity|].
  split; [|vm_compute; reflexivity].
  pose proof (fun w w' =>
                uncommitted_sale_is_invisible true w w' 0%nat) as T.
  eapply (T _ _ _ _ false None).
  - eapply (reachable_sessions_ok true server).
    + apply (run_actions_reachable true sale_up_to_line_166).
      vm_compute. reflexivity.
    + apply quiescent_sessions_ok, quiescent_b_ok. vm_compute. reflexivity.
  - vm_compute. reflexivity.
  - reflexivity.
  - simpl. discriminate.
  - vm_compute. reflexivity.
Defined.

(** Scenario 1 in the report: item 1, two pieces, 259.98. *)
Lemma sale_shows_in_top_products_witness :
  exists sh' s',
    make_sale true 0%nat (Some 1) (Some 1) (Some 2) (Some 0) no_fault shop
              idle_session
    = Some (Result_row (Some 1) (Some 25998), sh', s') /\
    top_products_groups (db sh') !! 1 = Some (mkTop 2 25998).
Proof.
  eexists _, _. split; [vm_compute; reflexivity|].
  assert (HK : keys_below (db shop) (auto_increment shop)).
  { vm_compute. repeat split; intros k [x Hk]; discriminate. }
  destruct (sale_shows_in_top_products true 0%nat (Some 1) (Some 1) (Some 2)
              (Some 0) no_fault shop idle_session (Some 1) (Some 25998) _ _
              eq_refl HK ltac:(vm_compute; reflexivity))
    as (item & qty & r & r' & [= <-] & [= <-] & Hr & _ & Hg & _).
  vm_compute in Hr. injection Hr as <-.
  rewrite Hg, lookup_insert_eq. vm_compute. reflexivity.
Defined.
